(** * code-review-js: diff line mapping and AST context extraction

    A shallow embedding of [src/diff_utils.js], [src/ast_utils.js] (with
    the AST part of [src/config.js]), [src/ast_context.js], the Vue
    extractor that it requires as [./ast_context_vue], and the two lines
    of [src/review_engine.js] that build the added-line set, followed by
    the properties of the specification that concern them.

    Around these: [prepareFilesForReview] of [src/main.js], the first
    steps of [reviewSingleFile], [buildUserContent] of
    [src/prompt_builder.js] and [extractDiffCode] of [src/report.js],
    with further properties of the code that the walk, the selector,
    the two line counters and the size limits show.

    Conventions of the embedding:
    - a JavaScript string is the list of its UTF-16 code units, so that
      [.length], [substring] and [startsWith] count what the engine
      counts;
    - a JavaScript number holding a line number, an offset or a size is
      an integer of [Z].  The engine holds the integers from -2^53 to
      2^53 and adds and subtracts them exactly there; beyond, it rounds
      to the nearest double, which [Z] does not follow.  The sizes and
      offsets of a file stay far below; the start that a hunk header
      names need not, and the properties that count on from it
      ([counts_exactly], [new_lines_counted_exactly]) state the bound;
    - a JavaScript [Set] of numbers is the duplicate-free list of its
      elements in insertion order, which is the order [Array.from]
      reads them back in;
    - code that throws runs in an exception monad; closures that mutate
      captured variables ([sections], [currentDepth]) thread that state
      explicitly, and the state survives a [throw];
    - the Babel parser, the Vue SFC compiler, the file system, the
      process environment and the clock are collaborators outside the
      repository: their results are fields of a [World] record.  So is
      what [@babel/traverse] does of its own at a node before it calls
      the visitor, which can throw ([crawlScope]). *)

From Stdlib Require Import ZArith List Bool Lia Permutation Sorted.
From Stdlib Require Import String Ascii DecimalString.
Import ListNotations.
Local Open Scope Z_scope.

(* ================================================================== *)
(** ** JavaScript values *)
(* ================================================================== *)

Module Js.

(** A string: UTF-16 code units. *)
Definition jsstring : Type := list N.

(** An ASCII literal of the source, unit by unit. *)
Fixpoint lit (s : string) : jsstring :=
  match s with
  | EmptyString => []
  | String c r => N_of_ascii c :: lit r
  end.

Definition str_length (s : jsstring) : Z := Z.of_nat (List.length s).

Fixpoint str_eqb (a b : jsstring) : bool :=
  match a, b with
  | [], [] => true
  | x :: a', y :: b' => N.eqb x y && str_eqb a' b'
  | _, _ => false
  end.

(** [s.startsWith(p)] *)
Fixpoint startsWith (p s : jsstring) : bool :=
  match p, s with
  | [], _ => true
  | x :: p', y :: s' => N.eqb x y && startsWith p' s'
  | _ :: _, [] => false
  end.

(** [s.includes(p)] *)
Fixpoint includes (p s : jsstring) : bool :=
  startsWith p s ||
  match s with
  | [] => false
  | _ :: s' => includes p s'
  end.

(** [s.endsWith(p)], which is what a regular expression [/p$/] without
    the [m] flag tests when [p] is a literal. *)
Definition endsWith (p s : jsstring) : bool := startsWith (rev p) (rev s).

(** [s.split('\n')]: always at least one piece. *)
Fixpoint split_lines_aux (cur : jsstring) (s : jsstring) : list jsstring :=
  match s with
  | [] => [rev cur]
  | c :: r =>
      if N.eqb c 10 then rev cur :: split_lines_aux [] r
      else split_lines_aux (c :: cur) r
  end.

Definition split_lines (s : jsstring) : list jsstring := split_lines_aux [] s.

(** [pieces.join(sep)] *)
Fixpoint join (sep : jsstring) (pieces : list jsstring) : jsstring :=
  match pieces with
  | [] => []
  | [p] => p
  | p :: rest => p ++ sep ++ join sep rest
  end.

(** Index clamping of [String.prototype.substring]: below 0 is 0, above
    the length is the length. *)
Definition clamp (len i : Z) : Z := Z.min (Z.max i 0) len.

(** [s.substring(a, b)]: both ends clamped, then swapped when out of
    order. *)
Definition substring (s : jsstring) (a b : Z) : jsstring :=
  let len := str_length s in
  let a' := clamp len a in
  let b' := clamp len b in
  let lo := Z.min a' b' in
  let hi := Z.max a' b' in
  firstn (Z.to_nat (hi - lo)) (skipn (Z.to_nat lo) s).

(** Relative index of [Array.prototype.slice]: a negative index counts
    from the end. *)
Definition slice_index (len i : Z) : Z :=
  if i <? 0 then Z.max (len + i) 0 else Z.min i len.

(** [xs.slice(a, b)] *)
Definition slice {A : Type} (xs : list A) (a b : Z) : list A :=
  let len := Z.of_nat (List.length xs) in
  let k := slice_index len a in
  let final := slice_index len b in
  firstn (Z.to_nat (final - k)) (skipn (Z.to_nat k) xs).

(** [`${n}`] for an integer [n]. *)
Definition of_Z (n : Z) : jsstring := lit (NilZero.string_of_int (Z.to_int n)).

Definition is_digit (c : N) : bool := (N.leb 48 c && N.leb c 57)%N.

(** [parseInt(ds, 10)] on a string of decimal digits: the integer that
    the digits denote.  This is the number of the engine when it is at
    most 2^53; a longer run of digits is rounded there to the nearest
    double (to [Infinity] beyond the largest one), which this integer
    is not. *)
Definition parseInt (ds : jsstring) : Z :=
  fold_left (fun acc c => 10 * acc + (Z.of_N c - 48)) ds 0.

(** [!!v] for a value that is an object or [null]. *)
Definition isSome {A : Type} (o : option A) : bool :=
  match o with Some _ => true | None => false end.

(** Truthiness of a value that is a string or [undefined]. *)
Definition truthy (v : option jsstring) : bool :=
  match v with
  | Some (_ :: _) => true
  | _ => false
  end.

(** [a || b] on such values. *)
Definition or_else (a b : option jsstring) : option jsstring :=
  if truthy a then a else b.

(** *** Sets of numbers, in insertion order *)

Definition numset : Type := list Z.

Definition set_has (s : numset) (x : Z) : bool := existsb (Z.eqb x) s.

Definition set_add (s : numset) (x : Z) : numset :=
  if set_has s x then s else s ++ [x].

(** [new Set(xs)] *)
Definition set_of_list (xs : list Z) : numset := fold_left set_add xs [].

(** [xs.forEach(x => s.add(x))] *)
Definition set_add_all (s : numset) (xs : list Z) : numset :=
  fold_left set_add xs s.

(** *** [Array.prototype.sort] with the comparator [(a, b) => key(a) - key(b)]

    The sort is stable (ECMAScript 2019): elements with equal keys keep
    their relative order.  The stable sort of a list is unique, so any
    stable algorithm is a model; this is insertion sort. *)
Section Sort.
Context {A : Type} (key : A -> Z).

Fixpoint insert_by (x : A) (l : list A) : list A :=
  match l with
  | [] => [x]
  | y :: l' => if key x <=? key y then x :: l else y :: insert_by x l'
  end.

Fixpoint sort_by (l : list A) : list A :=
  match l with
  | [] => []
  | x :: l' => insert_by x (sort_by l')
  end.
End Sort.

End Js.

Import Js.

(* ================================================================== *)
(** ** Exceptions, and state that survives them *)
(* ================================================================== *)

(** An [Error] object, reduced to its [message]. *)
Record Error : Type := mkError { message : jsstring }.

(** A computation that returns or throws. *)
Inductive Result (A : Type) : Type :=
| Ok (a : A)
| Throw (e : Error).
Arguments Ok {A} a.
Arguments Throw {A} e.

Definition bind {A B : Type} (m : Result A) (k : A -> Result B) : Result B :=
  match m with
  | Ok a => k a
  | Throw e => Throw e
  end.

(** [try { m } catch (e) { h(e) }] *)
Definition try_catch {A : Type} (m : Result A) (h : Error -> Result A) : Result A :=
  match m with
  | Ok a => Ok a
  | Throw e => h e
  end.

Notation "x <- m ;; k" := (bind m (fun x => k))
  (at level 61, m at next level, right associativity).

Arguments lit s%_string.

(* ================================================================== *)
(** ** src/config.js: the AST part of the runtime configuration *)
(* ================================================================== *)

(** [config.astConfig].  Each field is [parseInt] of an environment
    variable or of its default. *)
Record AstConfig : Type := mkAstConfig {
  maxSnippetLength : Z;
  maxBlockSizeLines : Z;
  maxDepth : Z;
  timeoutMs : Z
}.

(* ================================================================== *)
(** ** src/ast_utils.js *)
(* ================================================================== *)

Module AstUtils.

(** 'AST' then U+904D U+5386 U+6DF1 U+5EA6 U+8D85 U+9650 then ' (>' *)
Definition depth_message_head : jsstring :=
  [65; 83; 84; 0x904d; 0x5386; 0x6df1; 0x5ea6; 0x8d85; 0x9650; 32; 40; 62]%N.

(** The message thrown by [createDepthLimiter(maxDepth).enter()]:
    [`AST<...> (>${maxDepth})`]. *)
Definition depth_message (maxDepth : Z) : jsstring :=
  depth_message_head ++ of_Z maxDepth ++ lit ")".

(** [createDepthLimiter]: the closure's [currentDepth] is the state. *)
Definition depth_enter (maxDepth : Z) (currentDepth : Z) : Z * option Error :=
  let d := currentDepth + 1 in
  if d >? maxDepth then (d, Some (mkError (depth_message maxDepth)))
  else (d, None).

Definition depth_exit (currentDepth : Z) : Z := currentDepth - 1.

(** [selectSmallestSections(sections, addedLines)].  The function reads
    two fields of a unit, [size] and [added_lines]; [addedLines] is not
    read at all. *)
Section Select.
Context {A : Type} (size : A -> Z) (added_lines : A -> list Z).

(** The [for (const section of sorted)] loop; [selected] and
    [coveredLines] are the two variables it updates. *)
Fixpoint select_loop (sorted : list A) (selected : list A)
         (coveredLines : numset) : list A :=
  match sorted with
  | [] => selected
  | section :: rest =>
      let sectionLines :=
        filter (fun line => negb (set_has coveredLines line))
               (added_lines section) in
      if (Z.of_nat (List.length sectionLines) >? 0) then
        select_loop rest (selected ++ [section])
                    (set_add_all coveredLines (added_lines section))
      else
        select_loop rest selected coveredLines
  end.

Definition selectSmallestSections (sections : list A) (addedLines : numset)
  : list A :=
  match sections with
  | [] => []
  | [_] => sections
  | _ => select_loop (sort_by size sections) [] []
  end.
End Select.

(** ' ' U+2190 ' ' U+65B0 U+589E: the marker put after an added line. *)
Definition added_marker : jsstring := [32; 0x2190; 32; 0x65b0; 0x589e]%N.

(** The separator ['\n\n...\n\n'] between two windows. *)
Definition elision : jsstring := [10; 10; 46; 46; 46; 10; 10]%N.

(** [extractContextAroundLines(code, addedLines, blockStart, blockEnd, radius)] *)
Definition extractContextAroundLines (code : jsstring) (addedLines : list Z)
           (blockStart blockEnd radius : Z) : jsstring :=
  let lines := split_lines code in
  let contexts :=
    map (fun lineNum =>
           let contextStart := Z.max blockStart (lineNum - radius) in
           let contextEnd := Z.min blockEnd (lineNum + radius) in
           let contextLines := slice lines (contextStart - 1) contextEnd in
           join [10%N]
             (map (fun '(idx, line) =>
                     let actualLineNum := contextStart + Z.of_nat idx in
                     let marker :=
                       if actualLineNum =? lineNum then added_marker else [] in
                     of_Z actualLineNum ++ lit "| " ++ line ++ marker)
                  (combine (seq 0 (List.length contextLines)) contextLines)))
        addedLines in
  join elision contexts.

End AstUtils.

(* ================================================================== *)
(** ** The syntax tree of @babel/parser and the walk of @babel/traverse *)
(* ================================================================== *)

Module Babel.

Inductive NodeType : Type :=
| FunctionDeclaration
| FunctionExpression
| ArrowFunctionExpression
| ClassMethod
| ObjectMethod
| ClassDeclaration
| VariableDeclarator
| ObjectExpression
| ObjectProperty
| ExportDefaultDeclaration
| OtherType (name : jsstring).

(** [node.type] *)
Definition type_name (t : NodeType) : jsstring :=
  match t with
  | FunctionDeclaration => lit "FunctionDeclaration"
  | FunctionExpression => lit "FunctionExpression"
  | ArrowFunctionExpression => lit "ArrowFunctionExpression"
  | ClassMethod => lit "ClassMethod"
  | ObjectMethod => lit "ObjectMethod"
  | ClassDeclaration => lit "ClassDeclaration"
  | VariableDeclarator => lit "VariableDeclarator"
  | ObjectExpression => lit "ObjectExpression"
  | ObjectProperty => lit "ObjectProperty"
  | ExportDefaultDeclaration => lit "ExportDefaultDeclaration"
  | OtherType name => name
  end.

(** [node.key]: an identifier has a [name], a string literal a [value]. *)
Record Key : Type := mkKey {
  key_name : option jsstring;
  key_value : option jsstring
}.

(** What the visitors read of a node.  [node_loc] is [None] when
    [node.loc], [node.loc.start] or [node.loc.end] is missing, and
    holds [(loc.start.line, loc.end.line)] otherwise. *)
Record NodeData : Type := mkData {
  node_type : NodeType;
  node_loc : option (Z * Z);
  node_start : Z;
  node_end : Z;
  node_id_name : option jsstring;
  node_key : option Key
}.

#[warnings="-register-all"]
Inductive Node : Type :=
| mkNode (data : NodeData) (children : list Node).

(** A path: the node and its ancestors, nearest first ([parentPath],
    then its [parentPath], ...). *)
Definition Path : Type := (NodeData * list NodeData)%type.

Definition is_type (t : NodeType) (d : NodeData) : bool :=
  match t, node_type d with
  | FunctionDeclaration, FunctionDeclaration => true
  | FunctionExpression, FunctionExpression => true
  | ArrowFunctionExpression, ArrowFunctionExpression => true
  | ClassMethod, ClassMethod => true
  | ObjectMethod, ObjectMethod => true
  | ClassDeclaration, ClassDeclaration => true
  | VariableDeclarator, VariableDeclarator => true
  | ObjectExpression, ObjectExpression => true
  | ObjectProperty, ObjectProperty => true
  | ExportDefaultDeclaration, ExportDefaultDeclaration => true
  | _, _ => false
  end.

(** [astPath.findParent(p => p.isT())] *)
Definition findParent (t : NodeType) (p : Path) : option NodeData :=
  find (is_type t) (snd p).

(** [traverse(ast, { enter, exit })]: every node below the root, in
    pre-order; [enter] before the children of a node and [exit] after
    them.  The visitor's captured variables are the state [S]; a throw
    of [enter] ends the walk at once and leaves the state as it is.

    The library can also throw by itself.  When it arrives at a node it
    sets up the scope of the node before it calls [enter], and that
    throws on a tree that the parser has accepted under [errorRecovery]
    with two declarations of one name ([Duplicate declaration]).
    [arrive] says what this step does at each path: [None] when it
    passes, the error when it throws.  This throw too ends the walk at
    once and leaves the state as it is. *)
Section Traverse.
Context {S : Type}.
Variable arrive : Path -> option Error.
Variable enter : Path -> S -> S * option Error.
Variable exit : S -> S.

Fixpoint visit (ancestors : list NodeData) (n : Node) (st : S)
  : S * option Error :=
  match n with
  | mkNode d children =>
      match arrive (d, ancestors) with
      | Some e => (st, Some e)
      | None =>
          match enter (d, ancestors) st with
          | (st1, Some e) => (st1, Some e)
          | (st1, None) =>
              let fix visit_all (cs : list Node) (st : S) : S * option Error :=
                match cs with
                | [] => (st, None)
                | c :: cs' =>
                    match visit (d :: ancestors) c st with
                    | (st', Some e) => (st', Some e)
                    | (st', None) => visit_all cs' st'
                    end
                end in
              match visit_all children st1 with
              | (st2, Some e) => (st2, Some e)
              | (st2, None) => (exit st2, None)
              end
          end
      end
  end.

Fixpoint visit_list (ancestors : list NodeData) (cs : list Node) (st : S)
  : S * option Error :=
  match cs with
  | [] => (st, None)
  | c :: cs' =>
      match visit ancestors c st with
      | (st', Some e) => (st', Some e)
      | (st', None) => visit_list ancestors cs' st'
      end
  end.

Definition traverse (ast : Node) (st : S) : S * option Error :=
  match ast with
  | mkNode _ children => visit_list [] children st
  end.
End Traverse.

End Babel.

Import Babel.

(* ================================================================== *)
(** ** The Section and the Extraction Result *)
(* ================================================================== *)

Module Sec.

(** An emitted Section.  The three last fields are absent
    ([undefined]) on a unit that is not truncated. *)
Record t : Type := mk {
  type : jsstring;
  name : jsstring;
  start_line : Z;
  end_line : Z;
  added_lines : list Z;
  snippet : jsstring;
  is_truncated : option bool;
  truncation_reason : option jsstring;
  summary : option jsstring
}.

End Sec.

(** [component_info] of a Vue result. *)
Record ComponentInfo : Type := mkComponentInfo {
  has_template : bool;
  has_script : bool;
  has_script_setup : bool;
  style_blocks : Z;
  script_lang : jsstring
}.

(** What an extractor returns. *)
Record ExtractorResult : Type := mkExtractorResult {
  impacted_sections : list Sec.t;
  component_info : option ComponentInfo;
  errors : list jsstring
}.

(** What [extractAstContext] returns: [{ ...result, parse_time_ms }]. *)
Record ExtractionResult : Type := mkExtractionResult {
  result : ExtractorResult;
  parse_time_ms : Z
}.

(* ================================================================== *)
(** ** The collaborators *)
(* ================================================================== *)

(** One block of a Vue single-file component: [content],
    [loc.start.line] and [lang]. *)
Record SfcBlock : Type := mkSfcBlock {
  content : jsstring;
  loc_start_line : Z;
  lang : option jsstring
}.

(** [descriptor]: [styles] is [None] when the field is missing. *)
Record SfcDescriptor : Type := mkSfcDescriptor {
  template : bool;
  script : option SfcBlock;
  scriptSetup : option SfcBlock;
  styles : option Z
}.

(** The value of [parseSFC]: [descriptor] and the length of [errors]. *)
Record SfcParsed : Type := mkSfcParsed {
  descriptor : SfcDescriptor;
  sfc_errors : Z
}.

Record World : Type := mkWorld {
  (** [loadRuntimeConfig().astConfig], or the throw of
      [loadRuntimeConfig] when a required variable is missing.  The
      environment does not change during a run, so the cache of
      [getAstConfig] is not modelled. *)
  loadAstConfig : Result AstConfig;
  (** [fs.readFile(path.resolve(projectRoot, filePath), 'utf-8')];
      [None] when it rejects. *)
  readFile : jsstring -> jsstring -> option jsstring;
  (** [withTimeout(parseCode(code), ...)]: the tree, or the error of the
      parser or of the timer, whichever settles first. *)
  parseCode : jsstring -> Result Node;
  (** [babelParser.parse(scriptContent, ...)] of the Vue extractor. *)
  parseScript : jsstring -> Result Node;
  (** What @babel/traverse does by itself when it arrives at a node:
      [None] when the scope of the node is set up, the error when that
      throws. *)
  crawlScope : Path -> option Error;
  (** [loadVueSfcCompiler()]: [None] when the package is not installed;
      otherwise [parseSFC] raced against the timer. *)
  vueSfcCompiler : option (jsstring -> jsstring -> Result SfcParsed);
  (** The two readings of [Date.now()]. *)
  now_start : Z;
  now_end : Z
}.

(** [getAstConfig()] *)
Definition getAstConfig (w : World) : Result AstConfig := loadAstConfig w.

(** [readFileSafe(filePath, projectRoot)] *)
Definition readFileSafe (w : World) (filePath projectRoot : jsstring)
  : option jsstring := readFile w projectRoot filePath.

(** [!code] for a string or [null]. *)
Definition unreadable (code : option jsstring) : bool := negb (truthy code).

(* ================================================================== *)
(** ** src/ast_context.js *)
(* ================================================================== *)

Module AstContext.

(** A candidate unit, as [collectImpactedSections] pushes it. *)
Record Candidate : Type := mkCandidate {
  type : jsstring;
  name : jsstring;
  start_line : Z;
  end_line : Z;
  start_offset : Z;
  end_offset : Z;
  added_lines : list Z;
  size : Z
}.

(** [isTargetNode(astPath)] of ast_utils.js *)
Definition isTargetNode (p : Path) : bool :=
  let d := fst p in
  is_type FunctionDeclaration d ||
  is_type FunctionExpression d ||
  is_type ArrowFunctionExpression d ||
  is_type ClassMethod d ||
  is_type ObjectMethod d ||
  is_type ClassDeclaration d.

Definition anonymous : jsstring := lit "anonymous".

Definition string_or (v : option jsstring) (d : jsstring) : jsstring :=
  match v with
  | Some s => if truthy v then s else d
  | None => d
  end.

(** [node.key.name || node.key.value || 'anonymous'] *)
Definition key_label (k : Key) : jsstring :=
  string_or (or_else (key_name k) (key_value k)) anonymous.

(** [getNodeName(node, astPath)] *)
Definition getNodeName (p : Path) : jsstring :=
  let node := fst p in
  if truthy (node_id_name node) then string_or (node_id_name node) anonymous
  else
    let from_key :=
      match node_key node with
      | Some k => key_label k
      | None => anonymous
      end in
    match snd p with
    | parent :: _ =>
        if is_type VariableDeclarator parent
           && truthy (node_id_name parent)
        then string_or (node_id_name parent) anonymous
        else from_key
    | [] => from_key
    end.

(** The state of the visitor: the array [sections] and the counter of
    the depth limiter. *)
Definition VisitorState : Type := (list Candidate * Z)%type.

Section Collect.
Variable w : World.
Variable addedLines : numset.
Variable config : AstConfig.

(** The [enter(astPath)] callback. *)
Definition enter (p : Path) (st : VisitorState) : VisitorState * option Error :=
  let '(sections, depth) := st in
  match AstUtils.depth_enter (maxDepth config) depth with
  | (depth', Some e) => ((sections, depth'), Some e)
  | (depth', None) =>
      let node := fst p in
      if negb (isTargetNode p) then ((sections, depth'), None)
      else
        match node_loc node with
        | None => ((sections, depth'), None)
        | Some (start, end_) =>
            let relevantLines :=
              filter (fun lineNumber =>
                        (lineNumber >=? start) && (lineNumber <=? end_))
                     addedLines in
            if Z.of_nat (List.length relevantLines) =? 0
            then ((sections, depth'), None)
            else
              let section :=
                {| type := type_name (node_type node);
                   name := getNodeName p;
                   start_line := start;
                   end_line := end_;
                   start_offset := node_start node;
                   end_offset := node_end node;
                   added_lines := relevantLines;
                   size := end_ - start + 1 |} in
              ((sections ++ [section], depth'), None)
        end
  end.

(** The [exit()] callback. *)
Definition exit (st : VisitorState) : VisitorState :=
  (fst st, AstUtils.depth_exit (snd st)).

(** U+6DF1 U+5EA6 U+8D85 U+9650, the words that the [catch] looks for
    in the message. *)
Definition depth_words : jsstring := [0x6df1; 0x5ea6; 0x8d85; 0x9650]%N.

(** [collectImpactedSections(ast, code, addedLines, config)] *)
Definition collectImpactedSections (ast : Node) : Result (list Candidate) :=
  match traverse (crawlScope w) enter exit ast ([], 0) with
  | (st, None) => Ok (fst st)
  | (st, Some error) =>
      if includes depth_words (message error) then Ok (fst st)
      else Throw error
  end.
End Collect.

(** ['\n\n/* ... ' U+4EE3 U+7801 U+8FC7 U+957F U+5DF2 U+622A U+65AD ' ('
    U+603B U+957F], the text before the length in the truncation
    marker. *)
Definition marker_head : jsstring :=
  [10; 10; 47; 42; 32; 46; 46; 46; 32; 0x4ee3; 0x7801; 0x8fc7; 0x957f;
   0x5df2; 0x622a; 0x65ad; 32; 40; 0x603b; 0x957f]%N.

(** [U+5B57 U+7B26 ') */'], the text after it. *)
Definition marker_tail : jsstring := [0x5b57; 0x7b26; 41; 32; 42; 47]%N.

(** The marker appended to a snippet cut at the character limit; it
    quotes the length the snippet had. *)
Definition truncation_marker (length : Z) : jsstring :=
  marker_head ++ of_Z length ++ marker_tail.

Definition CONTEXT_RADIUS : Z := 8.

(** [U+51FD U+6570 U+8F83 U+5927 '('] *)
Definition summary_head : jsstring := [0x51fd; 0x6570; 0x8f83; 0x5927; 40]%N.
(** [U+884C ')' U+FF0C U+53EA U+663E U+793A U+65B0 U+589E U+884C U+5468 U+56F4] *)
Definition summary_mid : jsstring :=
  [0x884c; 41; 0xff0c; 0x53ea; 0x663e; 0x793a; 0x65b0; 0x589e; 0x884c;
   0x5468; 0x56f4]%N.
(** [U+884C U+4E0A U+4E0B U+6587] *)
Definition summary_tail : jsstring := [0x884c; 0x4e0a; 0x4e0b; 0x6587]%N.

(** [limitSectionSize(section, code, config)] *)
Definition limitSectionSize (section : Candidate) (code : jsstring)
           (config : AstConfig) : Sec.t :=
  let snippet := substring code (start_offset section) (end_offset section) in
  if str_length snippet >? maxSnippetLength config then
    {| Sec.type := type section;
       Sec.name := name section;
       Sec.start_line := start_line section;
       Sec.end_line := end_line section;
       Sec.added_lines := added_lines section;
       Sec.snippet := substring snippet 0 (maxSnippetLength config)
                        ++ truncation_marker (str_length snippet);
       Sec.is_truncated := Some true;
       Sec.truncation_reason := Some (lit "char_limit");
       Sec.summary := None |}
  else if size section >? maxBlockSizeLines config then
    let contextSnippet :=
      AstUtils.extractContextAroundLines
        code (added_lines section) (start_line section) (end_line section)
        CONTEXT_RADIUS in
    {| Sec.type := type section;
       Sec.name := name section;
       Sec.start_line := start_line section;
       Sec.end_line := end_line section;
       Sec.added_lines := added_lines section;
       Sec.snippet := contextSnippet;
       Sec.is_truncated := Some true;
       Sec.truncation_reason := Some (lit "line_limit");
       Sec.summary :=
         Some (summary_head ++ of_Z (size section) ++ summary_mid
                 ++ of_Z CONTEXT_RADIUS ++ summary_tail) |}
  else
    {| Sec.type := type section;
       Sec.name := name section;
       Sec.start_line := start_line section;
       Sec.end_line := end_line section;
       Sec.added_lines := added_lines section;
       Sec.snippet := snippet;
       Sec.is_truncated := None;
       Sec.truncation_reason := None;
       Sec.summary := None |}.

Definition empty_result (errs : list jsstring) : ExtractorResult :=
  {| impacted_sections := []; component_info := None; errors := errs |}.

(** [extractJsAstContext(filePath, addedLines, projectRoot)] *)
Definition extractJsAstContext (w : World) (filePath : jsstring)
           (addedLines : numset) (projectRoot : jsstring)
  : Result ExtractorResult :=
  config <- getAstConfig w ;;
  let code := readFileSafe w filePath projectRoot in
  match code with
  | None => Ok (empty_result [lit "file_not_readable"])
  | Some code =>
      if unreadable (Some code) then Ok (empty_result [lit "file_not_readable"])
      else
        match parseCode w code with
        | Throw e => Ok (empty_result [lit "parse_error: " ++ message e])
        | Ok ast =>
            match collectImpactedSections w addedLines config ast with
            | Throw e => Ok (empty_result [lit "traverse_error: " ++ message e])
            | Ok allSections =>
                let selectedSections :=
                  AstUtils.selectSmallestSections size added_lines
                    allSections addedLines in
                Ok {| impacted_sections :=
                        map (fun section => limitSectionSize section code config)
                            selectedSections;
                      component_info := None;
                      errors := [] |}
            end
        end
  end.

End AstContext.

(* ================================================================== *)
(** ** src/ast_context_vue.js *)
(* ================================================================== *)

Module AstContextVue.

(** A unit of a script block: what [collectScriptSections] pushes, and,
    once [applySectionSizeLimit] has spread it into a new object, the
    same with the truncation fields. *)
Record Unit : Type := mkUnit {
  type : jsstring;
  name : jsstring;
  start_line : Z;
  end_line : Z;
  added_lines : list Z;
  size : Z;
  snippet : jsstring;
  is_truncated : option bool;
  truncation_reason : option jsstring;
  summary : option jsstring
}.

(** [isScriptTargetNode(astPath)] *)
Definition isScriptTargetNode (p : Path) : bool :=
  let d := fst p in
  is_type FunctionDeclaration d ||
  is_type FunctionExpression d ||
  is_type ArrowFunctionExpression d ||
  is_type ClassMethod d ||
  is_type ObjectMethod d ||
  is_type ClassDeclaration d.

Definition vueContexts : list jsstring :=
  [lit "methods"; lit "computed"; lit "watch"; lit "setup"].

(** [detectVueContext(astPath)]; [[]] is the empty string. *)
Definition detectVueContext (p : Path) : jsstring :=
  match findParent ObjectProperty p with
  | Some objectParent =>
      match node_key objectParent with
      | Some k =>
          match or_else (key_name k) (key_value k) with
          | Some parentKey =>
              if existsb (str_eqb parentKey) vueContexts
              then lit "vue_" ++ parentKey
              else []
          | None => []
          end
      | None => []
      end
  | None => []
  end.

(** [getScriptNodeInfo(node, astPath)]: the pair [(name, context)]. *)
Definition getScriptNodeInfo (p : Path) : jsstring * jsstring :=
  let node := fst p in
  if truthy (node_id_name node) then
    (AstContext.string_or (node_id_name node) AstContext.anonymous, [])
  else
    match snd p with
    | parent :: _ =>
        if is_type VariableDeclarator parent then
          (AstContext.string_or (node_id_name parent) AstContext.anonymous, [])
        else
          match node_key node with
          | Some k =>
              (AstContext.key_label k,
               match findParent ObjectExpression p with
               | Some _ =>
                   match findParent ExportDefaultDeclaration p with
                   | Some _ => detectVueContext p
                   | None => []
                   end
               | None => []
               end)
          | None => (AstContext.anonymous, [])
          end
    | [] =>
        match node_key node with
        | Some k => (AstContext.key_label k, [])
        | None => (AstContext.anonymous, [])
        end
    end.

Definition VisitorState : Type := (list Unit * Z)%type.

Section Collect.
Variable w : World.
Variable scriptContent : jsstring.
Variable addedLines : numset.
Variable config : AstConfig.

(** The [enter(astPath)] callback of [collectScriptSections]. *)
Definition enter (p : Path) (st : VisitorState) : VisitorState * option Error :=
  let '(sections, depth) := st in
  match AstUtils.depth_enter (maxDepth config) depth with
  | (depth', Some e) => ((sections, depth'), Some e)
  | (depth', None) =>
      let node := fst p in
      if negb (isScriptTargetNode p) then ((sections, depth'), None)
      else
        match node_loc node with
        | None => ((sections, depth'), None)
        | Some (start, end_) =>
            let relevantLines :=
              filter (fun lineNumber =>
                        (lineNumber >=? start) && (lineNumber <=? end_))
                     addedLines in
            if Z.of_nat (List.length relevantLines) =? 0
            then ((sections, depth'), None)
            else
              let '(name, context) := getScriptNodeInfo p in
              let section :=
                {| type := match context with
                           | [] => type_name (node_type node)
                           | _ => context
                           end;
                   name := name;
                   start_line := start;
                   end_line := end_;
                   added_lines := relevantLines;
                   size := end_ - start + 1;
                   snippet :=
                     substring scriptContent (node_start node) (node_end node);
                   is_truncated := None;
                   truncation_reason := None;
                   summary := None |} in
              ((sections ++ [section], depth'), None)
        end
  end.

Definition exit (st : VisitorState) : VisitorState :=
  (fst st, AstUtils.depth_exit (snd st)).

(** [collectScriptSections(ast, scriptContent, addedLines, config)] *)
Definition collectScriptSections (ast : Node) : Result (list Unit) :=
  match traverse (crawlScope w) enter exit ast ([], 0) with
  | (st, None) => Ok (fst st)
  | (st, Some error) =>
      if includes AstContext.depth_words (message error) then Ok (fst st)
      else Throw error
  end.
End Collect.

(** [extractContextAroundLines(snippet, addedLines, blockStart, blockEnd,
    radius)], the version of this file: line numbers are taken relative
    to the snippet. *)
Definition extractContextAroundLines (snippet : jsstring) (addedLines : list Z)
           (blockStart blockEnd radius : Z) : jsstring :=
  let lines := split_lines snippet in
  let contexts :=
    map (fun lineNum =>
           let relativeLineNum := lineNum - blockStart + 1 in
           let contextStart := Z.max 1 (relativeLineNum - radius) in
           let contextEnd :=
             Z.min (Z.of_nat (List.length lines)) (relativeLineNum + radius) in
           let contextLines := slice lines (contextStart - 1) contextEnd in
           join [10%N]
             (map (fun '(idx, line) =>
                     let actualLineNum :=
                       blockStart + contextStart - 1 + Z.of_nat idx in
                     let marker :=
                       if actualLineNum =? lineNum
                       then AstUtils.added_marker else [] in
                     of_Z actualLineNum ++ lit "| " ++ line ++ marker)
                  (combine (seq 0 (List.length contextLines)) contextLines)))
        addedLines in
  join AstUtils.elision contexts.

(** [U+4EE3 U+7801 U+5757 U+8F83 U+5927 '('] *)
Definition summary_head : jsstring :=
  [0x4ee3; 0x7801; 0x5757; 0x8f83; 0x5927; 40]%N.

(** [applySectionSizeLimit(section, config)] *)
Definition applySectionSizeLimit (section : Unit) (config : AstConfig) : Unit :=
  if str_length (snippet section) >? maxSnippetLength config then
    {| type := type section;
       name := name section;
       start_line := start_line section;
       end_line := end_line section;
       added_lines := added_lines section;
       size := size section;
       snippet := substring (snippet section) 0 (maxSnippetLength config)
                    ++ AstContext.truncation_marker (str_length (snippet section));
       is_truncated := Some true;
       truncation_reason := Some (lit "char_limit");
       summary := summary section |}
  else if size section >? maxBlockSizeLines config then
    let contextSnippet :=
      extractContextAroundLines
        (snippet section) (added_lines section)
        (start_line section) (end_line section) AstContext.CONTEXT_RADIUS in
    {| type := type section;
       name := name section;
       start_line := start_line section;
       end_line := end_line section;
       added_lines := added_lines section;
       size := size section;
       snippet := contextSnippet;
       is_truncated := Some true;
       truncation_reason := Some (lit "line_limit");
       summary :=
         Some (summary_head ++ of_Z (size section) ++ AstContext.summary_mid
                 ++ of_Z AstContext.CONTEXT_RADIUS ++ AstContext.summary_tail) |}
  else section.

(** The loop of this file's [selectSmallestSections]: the lines of a
    unit are read again from [addedLines] by its line range. *)
Fixpoint select_loop (config : AstConfig) (addedLines : numset)
         (sorted : list Unit) (selected : list Unit) (coveredLines : numset)
  : list Unit :=
  match sorted with
  | [] => selected
  | section :: rest =>
      let sectionLines :=
        filter (fun line =>
                  (line >=? start_line section) && (line <=? end_line section))
               addedLines in
      let hasUncoveredLines :=
        existsb (fun line => negb (set_has coveredLines line)) sectionLines in
      if hasUncoveredLines then
        let limitedSection := applySectionSizeLimit section config in
        select_loop config addedLines rest (selected ++ [limitedSection])
                    (set_add_all coveredLines sectionLines)
      else
        select_loop config addedLines rest selected coveredLines
  end.

(** [selectSmallestSections(sections, addedLines)], the version of this
    file.  [getAstConfig()] inside it returns the configuration that
    [extractScriptContext] has already loaded. *)
Definition selectSmallestSections (config : AstConfig) (sections : list Unit)
           (addedLines : numset) : list Unit :=
  match sections with
  | [] => []
  | [only] => [applySectionSizeLimit only config]
  | _ => select_loop config addedLines (sort_by size sections) [] []
  end.

(** The value of [extractScriptContext]. *)
Record ScriptResult : Type := mkScriptResult {
  sections : list Sec.t;
  script_errors : list jsstring
}.

(** [new Set(Array.from(addedLines).filter(...).map(...))] *)
Definition adjustAddedLines (addedLines : numset) (scriptStartLine : Z) : numset :=
  set_of_list
    (map (fun line => line - scriptStartLine + 1)
         (filter (fun line => line >=? scriptStartLine) addedLines)).

(** The object built for each selected unit, in file coordinates. *)
Definition toFileLines (scriptStartLine : Z) (section : Unit) : Sec.t :=
  {| Sec.type := type section;
     Sec.name := name section;
     Sec.start_line := start_line section + scriptStartLine - 1;
     Sec.end_line := end_line section + scriptStartLine - 1;
     Sec.added_lines :=
       map (fun l => l + scriptStartLine - 1) (added_lines section);
     Sec.snippet := snippet section;
     Sec.is_truncated := is_truncated section;
     Sec.truncation_reason := truncation_reason section;
     Sec.summary := summary section |}.

(** [extractScriptContext(scriptContent, addedLines, scriptStartLine)] *)
Definition extractScriptContext (w : World) (scriptContent : jsstring)
           (addedLines : numset) (scriptStartLine : Z) : Result ScriptResult :=
  config <- getAstConfig w ;;
  match parseScript w scriptContent with
  | Throw e =>
      Ok {| sections := [];
            script_errors := [lit "script_parse_error: " ++ message e] |}
  | Ok ast =>
      let adjustedAddedLines := adjustAddedLines addedLines scriptStartLine in
      if Z.of_nat (List.length adjustedAddedLines) =? 0 then
        Ok {| sections := []; script_errors := [] |}
      else
        match collectScriptSections
                w scriptContent adjustedAddedLines config ast with
        | Throw e =>
            Ok {| sections := [];
                  script_errors := [lit "script_traverse_error: " ++ message e] |}
        | Ok allSections =>
            let selectedSections :=
              selectSmallestSections config allSections adjustedAddedLines in
            Ok {| sections := map (toFileLines scriptStartLine) selectedSections;
                  script_errors := [] |}
        end
  end.

(** One of the two [if (descriptor.X && descriptor.X.content) { try ... }]
    blocks: the sections and errors it appends. *)
Definition analyseBlock (w : World) (block : option SfcBlock)
           (addedLines : numset) (tag : jsstring)
  : list Sec.t * list jsstring :=
  match block with
  | Some b =>
      if truthy (Some (content b)) then
        match extractScriptContext w (content b) addedLines (loc_start_line b) with
        | Ok scriptResult => (sections scriptResult, script_errors scriptResult)
        | Throw error => ([], [tag ++ message error])
        end
      else ([], [])
  | None => ([], [])
  end.

(** [extractVueAstContext(filePath, addedLines, projectRoot)] *)
Definition extractVueAstContext (w : World) (filePath : jsstring)
           (addedLines : numset) (projectRoot : jsstring)
  : Result ExtractorResult :=
  config <- getAstConfig w ;;
  match vueSfcCompiler w with
  | None =>
      Ok (AstContext.empty_result [lit "vue_sfc_compiler_not_installed"])
  | Some parseSFC =>
      let code := readFileSafe w filePath projectRoot in
      match code with
      | None => Ok (AstContext.empty_result [lit "file_not_readable"])
      | Some code =>
          if unreadable (Some code)
          then Ok (AstContext.empty_result [lit "file_not_readable"])
          else
            match parseSFC code filePath with
            | Throw e =>
                Ok (AstContext.empty_result [lit "sfc_parse_error: " ++ message e])
            | Ok parsed =>
                let descriptor := descriptor parsed in
                let errors0 :=
                  if sfc_errors parsed >? 0
                  then [lit "sfc_parse_errors: " ++ of_Z (sfc_errors parsed)]
                  else [] in
                let info :=
                  {| has_template := template descriptor;
                     has_script := isSome (script descriptor);
                     has_script_setup := isSome (scriptSetup descriptor);
                     style_blocks :=
                       match styles descriptor with Some n => n | None => 0 end;
                     script_lang :=
                       AstContext.string_or
                         (match script descriptor with
                          | Some b => lang b
                          | None => None
                          end) (lit "js") |} in
                let '(s1, e1) :=
                  analyseBlock w (script descriptor) addedLines
                               (lit "script_analysis_error: ") in
                let '(s2, e2) :=
                  analyseBlock w (scriptSetup descriptor) addedLines
                               (lit "script_setup_analysis_error: ") in
                let allSections := s1 ++ s2 in
                Ok {| impacted_sections := sort_by Sec.start_line allSections;
                      component_info := Some info;
                      errors := errors0 ++ e1 ++ e2 |}
            end
      end
  end.

End AstContextVue.

(* ================================================================== *)
(** ** src/ast_context.js, the entry point *)
(* ================================================================== *)

Definition ends_with_any (suffixes : list jsstring) (s : jsstring) : bool :=
  existsb (fun suffix => endsWith suffix s) suffixes.

(** [/\.(js|jsx|ts|tsx)$/.test(filePath)] *)
Definition is_js_path (filePath : jsstring) : bool :=
  ends_with_any [lit ".js"; lit ".jsx"; lit ".ts"; lit ".tsx"] filePath.

(** [/\.vue$/.test(filePath)] *)
Definition is_vue_path (filePath : jsstring) : bool :=
  endsWith (lit ".vue") filePath.

(** [extractAstContext(filePath, addedLines, projectRoot)] *)
Definition extractAstContext (w : World) (filePath : jsstring)
           (addedLines : numset) (projectRoot : jsstring)
  : Result ExtractionResult :=
  let startTime := now_start w in
  result <-
    try_catch
      (if is_js_path filePath then
         AstContext.extractJsAstContext w filePath addedLines projectRoot
       else if is_vue_path filePath then
         AstContextVue.extractVueAstContext w filePath addedLines projectRoot
       else
         Ok {| impacted_sections := [];
               component_info := None;
               errors := [lit "unsupported_file_type"] |})
      (fun error =>
         Ok {| impacted_sections := [];
               component_info := None;
               errors := [lit "unexpected_error: " ++ message error] |}) ;;
  Ok {| result := result; parse_time_ms := now_end w - startTime |}.

(* ================================================================== *)
(** ** src/diff_utils.js *)
(* ================================================================== *)

Module DiffUtils.

(** *** The two header patterns

    Both patterns are sequences of literals, of [\d+] and of optional
    pieces, and every [\d+] is followed by a character that is not a
    digit.  At a given start the backtracking matcher therefore has one
    way to succeed: each [\d+] takes the whole run of digits, and each
    optional piece is taken when it is there.  [exec] tries the starts
    from left to right. *)

(** The longest prefix of digits, and what follows it. *)
Fixpoint span_digits (s : jsstring) : jsstring * jsstring :=
  match s with
  | c :: r =>
      if is_digit c then let '(d, r') := span_digits r in (c :: d, r')
      else ([], s)
  | [] => ([], [])
  end.

(** [\d+] *)
Definition digits1 (s : jsstring) : option (jsstring * jsstring) :=
  match span_digits s with
  | ([], _) => None
  | (d, r) => Some (d, r)
  end.

(** A literal. *)
Definition strip (p s : jsstring) : option jsstring :=
  if startsWith p s then Some (skipn (List.length p) s) else None.

(** [(,\d+)?] *)
Definition opt_comma_digits (s : jsstring) : jsstring :=
  match strip (lit ",") s with
  | Some r => match digits1 r with Some (_, r') => r' | None => s end
  | None => s
  end.

(** [,?(\d+)?] *)
Definition opt_comma_opt_digits (s : jsstring) : jsstring :=
  let s1 := match strip (lit ",") s with Some r => r | None => s end in
  snd (span_digits s1).

Definition opt_bind {A B : Type} (o : option A) (k : A -> option B) : option B :=
  match o with Some a => k a | None => None end.

(** [/@@ -\d+(,\d+)? \+(\d+)(,\d+)? @@/] at the start of [s]: the text of
    group 2. *)
Definition new_start_at (s : jsstring) : option jsstring :=
  opt_bind (strip (lit "@@ -") s) (fun s1 =>
  opt_bind (digits1 s1) (fun '(_, s2) =>
  opt_bind (strip (lit " +") (opt_comma_digits s2)) (fun s3 =>
  opt_bind (digits1 s3) (fun '(g2, s4) =>
  opt_bind (strip (lit " @@") (opt_comma_digits s4)) (fun _ =>
  Some g2))))).

(** [/@@ -\d+(,\d+)? \+(\d+)(,\d+)? @@/.exec(line)], group 2. *)
Fixpoint new_start_exec (line : jsstring) : option jsstring :=
  match new_start_at line with
  | Some g => Some g
  | None =>
      match line with
      | [] => None
      | _ :: r => new_start_exec r
      end
  end.

(** [/@@ -(\d+),?(\d+)? \+(\d+),?(\d+)? @@/] at the start of [s]: the
    texts of groups 1 and 3. *)
Definition starts_at (s : jsstring) : option (jsstring * jsstring) :=
  opt_bind (strip (lit "@@ -") s) (fun s1 =>
  opt_bind (digits1 s1) (fun '(g1, s2) =>
  opt_bind (strip (lit " +") (opt_comma_opt_digits s2)) (fun s3 =>
  opt_bind (digits1 s3) (fun '(g3, s4) =>
  opt_bind (strip (lit " @@") (opt_comma_opt_digits s4)) (fun _ =>
  Some (g1, g3)))))).

(** [line.match(/@@ -(\d+),?(\d+)? \+(\d+),?(\d+)? @@/)], groups 1 and 3. *)
Fixpoint starts_match (line : jsstring) : option (jsstring * jsstring) :=
  match starts_at line with
  | Some g => Some g
  | None =>
      match line with
      | [] => None
      | _ :: r => starts_match r
      end
  end.

(** *** [parseDiffNewlineMap] *)

(** The [for] loop: [i] is the index of [line], [mapping] and
    [currentNewLine] are the variables the loop updates.  Group 2 of a
    match is never empty, so [match && match[2]] is [match]. *)
Fixpoint parse_loop (diffLines : list jsstring) (i : Z)
         (mapping : list (Z * Z)) (currentNewLine : Z) : list (Z * Z) :=
  match diffLines with
  | [] => mapping
  | line :: rest =>
      if startsWith (lit "@@") line then
        match new_start_exec line with
        | Some g2 => parse_loop rest (i + 1) mapping (parseInt g2)
        | None => parse_loop rest (i + 1) mapping currentNewLine
        end
      else if startsWith (lit "+") line && negb (startsWith (lit "+++") line) then
        if negb (currentNewLine =? -1) then
          parse_loop rest (i + 1) (mapping ++ [(i + 1, currentNewLine)])
                     (currentNewLine + 1)
        else parse_loop rest (i + 1) mapping currentNewLine
      else if negb (startsWith (lit "-") line) || startsWith (lit "---") line then
        if negb (currentNewLine =? -1) then
          parse_loop rest (i + 1) mapping (currentNewLine + 1)
        else parse_loop rest (i + 1) mapping currentNewLine
      else parse_loop rest (i + 1) mapping currentNewLine
  end.

(** [parseDiffNewlineMap(diffText)] *)
Definition parseDiffNewlineMap (diffText : jsstring) : list (Z * Z) :=
  parse_loop (split_lines diffText) 0 [] (-1).

(** *** [splitHunks] *)

Record Hunk : Type := mkHunk {
  oldStart : Z;
  newStart : Z;
  hunkLines : list jsstring
}.

Definition fresh_hunk : Hunk :=
  {| oldStart := 0; newStart := 0; hunkLines := [] |}.

Definition is_file_header (line : jsstring) : bool :=
  startsWith (lit "diff --git") line ||
  startsWith (lit "---") line ||
  startsWith (lit "+++") line ||
  startsWith (lit "index ") line ||
  startsWith (lit "new file ") line ||
  startsWith (lit "deleted file ") line.

Definition nonempty {A : Type} (l : list A) : bool :=
  match l with [] => false | _ => true end.

(** The state of the [forEach]: [hunks], [currentHunk], [inHunk]. *)
Definition SplitState : Type := (list Hunk * Hunk * bool)%type.

Definition split_step (st : SplitState) (line : jsstring) : SplitState :=
  let '(hunks, currentHunk, inHunk) := st in
  if negb inHunk && is_file_header line then st
  else
    let '(hunks1, current1, inHunk1) :=
      if startsWith (lit "@@") line then
        let m := starts_match line in
        let '(hunks', current') :=
          if nonempty (hunkLines currentHunk)
          then (hunks ++ [currentHunk], fresh_hunk)
          else (hunks, currentHunk) in
        let current'' :=
          match m with
          | Some (g1, g3) =>
              {| oldStart := parseInt g1;
                 newStart := parseInt g3;
                 hunkLines := hunkLines current' |}
          | None => current'
          end in
        (hunks', current'', true)
      else (hunks, currentHunk, inHunk) in
    if inHunk1 then
      (hunks1,
       {| oldStart := oldStart current1;
          newStart := newStart current1;
          hunkLines := hunkLines current1 ++ [line] |},
       inHunk1)
    else (hunks1, current1, inHunk1).

(** [splitHunks(diffText)] *)
Definition splitHunks (diffText : jsstring) : list Hunk :=
  let '(hunks, currentHunk, _) :=
    fold_left split_step (split_lines diffText) ([], fresh_hunk, false) in
  if nonempty (hunkLines currentHunk) then hunks ++ [currentHunk] else hunks.

(** *** [computeHunkLineNumbers] *)

(** A [Map] from line numbers to lines, in insertion order; [set] on a
    key that is present replaces the value in place. *)
Definition LinesMap : Type := list (Z * jsstring).

Fixpoint map_set (m : LinesMap) (k : Z) (v : jsstring) : LinesMap :=
  match m with
  | [] => [(k, v)]
  | (k', v') :: m' =>
      if k' =? k then (k, v) :: m' else (k', v') :: map_set m' k v
  end.

(** [header.padEnd(n)] *)
Definition padEnd (s : jsstring) (n : Z) : jsstring :=
  s ++ repeat 32%N (Z.to_nat (n - str_length s)).

(** The variables that the [forEach] over [hunkLines.slice(1)] updates. *)
Record NumberingState : Type := mkNumbering {
  temp : list (jsstring * jsstring);
  maxHeaderLength : Z;
  oldLinesMap : LinesMap;
  newLinesMap : LinesMap;
  oldLineNumber : Z;
  newLineNumber : Z
}.

Definition number_step (st : NumberingState) (line : jsstring) : NumberingState :=
  if startsWith (lit "-") line then
    let header := lit "(" ++ of_Z (oldLineNumber st) ++ lit ", )" in
    {| temp := temp st ++ [(header, line)];
       maxHeaderLength := Z.max (maxHeaderLength st) (str_length header);
       oldLinesMap := map_set (oldLinesMap st) (oldLineNumber st) line;
       newLinesMap := newLinesMap st;
       oldLineNumber := oldLineNumber st + 1;
       newLineNumber := newLineNumber st |}
  else if startsWith (lit "+") line then
    let header := lit "( , " ++ of_Z (newLineNumber st) ++ lit ")" in
    {| temp := temp st ++ [(header, line)];
       maxHeaderLength := Z.max (maxHeaderLength st) (str_length header);
       oldLinesMap := oldLinesMap st;
       newLinesMap := map_set (newLinesMap st) (newLineNumber st) line;
       oldLineNumber := oldLineNumber st;
       newLineNumber := newLineNumber st + 1 |}
  else
    let header :=
      lit "(" ++ of_Z (oldLineNumber st) ++ lit ", "
          ++ of_Z (newLineNumber st) ++ lit ")" in
    {| temp := temp st ++ [(header, line)];
       maxHeaderLength := Z.max (maxHeaderLength st) (str_length header);
       oldLinesMap := map_set (oldLinesMap st) (oldLineNumber st) line;
       newLinesMap := map_set (newLinesMap st) (newLineNumber st) line;
       oldLineNumber := oldLineNumber st + 1;
       newLineNumber := newLineNumber st + 1 |}.

(** The value of [computeHunkLineNumbers]; [hunkLines[0]] of a hunk that
    [splitHunks] built is its header line. *)
Record Numbered : Type := mkNumbered {
  newHunkLines : list jsstring;
  numbered_new : LinesMap;
  numbered_old : LinesMap
}.

(** [computeHunkLineNumbers(hunk)] *)
Definition computeHunkLineNumbers (hunk : Hunk) : Numbered :=
  let st :=
    fold_left number_step (tl (hunkLines hunk))
      {| temp := []; maxHeaderLength := 0;
         oldLinesMap := []; newLinesMap := [];
         oldLineNumber := oldStart hunk; newLineNumber := newStart hunk |} in
  {| newHunkLines :=
       firstn 1 (hunkLines hunk)
         ++ map (fun '(header, line) =>
                   padEnd header (maxHeaderLength st) ++ lit " " ++ line)
                (temp st);
     numbered_new := newLinesMap st;
     numbered_old := oldLinesMap st |}.

(** The value of [addLineNumbersToDiff]. *)
Record ExtendedDiff : Type := mkExtendedDiff {
  extendedDiff : jsstring;
  allNewLinesMap : LinesMap;
  allOldLinesMap : LinesMap
}.

Definition merge_into (all m : LinesMap) : LinesMap :=
  fold_left (fun acc '(lineNum, line) => map_set acc lineNum line) m all.

(** [addLineNumbersToDiff(diffText)] *)
Definition addLineNumbersToDiff (diffText : jsstring) : ExtendedDiff :=
  let numbered := map computeHunkLineNumbers (splitHunks diffText) in
  {| extendedDiff := join [10%N] (map (fun n => join [10%N] (newHunkLines n)) numbered);
     allNewLinesMap := fold_left (fun all n => merge_into all (numbered_new n)) numbered [];
     allOldLinesMap := fold_left (fun all n => merge_into all (numbered_old n)) numbered [] |}.

End DiffUtils.

(* ================================================================== *)
(** ** src/review_engine.js: the added-line set of [reviewSingleFile] *)
(* ================================================================== *)

Module ReviewEngine.

(** [new Set(parseDiffNewlineMap(diffText).map(([, newLine]) => newLine))] *)
Definition addedLines (diffText : jsstring) : numset :=
  set_of_list (map snd (DiffUtils.parseDiffNewlineMap diffText)).

End ReviewEngine.

(* ================================================================== *)
(** ** Notions used by the statements *)
(* ================================================================== *)

(** The lines that a list of units accounts for, unit after unit. *)
Definition lines_of {A : Type} (added_lines : A -> list Z) (units : list A)
  : list Z := flat_map added_lines units.

(** A unit brings a line that none of the units before it holds. *)
Definition brings_new {A : Type} (added_lines : A -> list Z)
           (before : list A) (u : A) : Prop :=
  exists l, In l (added_lines u) /\ ~ In l (lines_of added_lines before).

(** Every unit of the list brings a line that the units before it lack. *)
Inductive Chain {A : Type} (added_lines : A -> list Z) : list A -> Prop :=
| Chain_nil : Chain added_lines []
| Chain_snoc (sel : list A) (u : A) :
    Chain added_lines sel ->
    brings_new added_lines sel u ->
    Chain added_lines (sel ++ [u]).

(** Ascending order of a key, ties allowed. *)
Definition ascending {A : Type} (key : A -> Z) (l : list A) : Prop :=
  StronglySorted (fun a b => key a <= key b) l.

(** How many of the units hold the line. *)
Definition holders {A : Type} (added_lines : A -> list Z) (line : Z)
           (units : list A) : nat :=
  List.length (filter (fun u => set_has (added_lines u) line) units).

(** A candidate as the collector builds it from the added-line set: its
    [added_lines] are the lines of the set inside its range, and there
    is at least one. *)
Definition from_added_lines (addedLines : numset) (c : AstContext.Candidate)
  : Prop :=
  AstContext.added_lines c =
    filter (fun l => (l >=? AstContext.start_line c)
                       && (l <=? AstContext.end_line c)) addedLines
  /\ AstContext.added_lines c <> [].

(** The invariant of an emitted Section: some added line, and all of
    them inside the range. *)
Definition section_ok (s : Sec.t) : Prop :=
  Sec.added_lines s <> [] /\
  forall l, In l (Sec.added_lines s) -> Sec.start_line s <= l <= Sec.end_line s.

(** A class of lines 1 to 30 that holds a function of lines 8 to 10;
    lines 9 and 20 are added.  The candidates come in the order of the
    walk: the class, then the function. *)
Definition class_1_30 : AstContext.Candidate :=
  {| AstContext.type := lit "ClassDeclaration";
     AstContext.name := lit "Outer";
     AstContext.start_line := 1;
     AstContext.end_line := 30;
     AstContext.start_offset := 0;
     AstContext.end_offset := 600;
     AstContext.added_lines := [9; 20];
     AstContext.size := 30 |}.

Definition method_8_10 : AstContext.Candidate :=
  {| AstContext.type := lit "ClassMethod";
     AstContext.name := lit "inner";
     AstContext.start_line := 8;
     AstContext.end_line := 10;
     AstContext.start_offset := 150;
     AstContext.end_offset := 210;
     AstContext.added_lines := [9];
     AstContext.size := 3 |}.

Definition nested_candidates : list AstContext.Candidate :=
  [class_1_30; method_8_10].

(** The selector at the candidates of ast_context.js. *)
Definition select_candidates (sections : list AstContext.Candidate)
           (addedLines : numset) : list AstContext.Candidate :=
  AstUtils.selectSmallestSections
    AstContext.size AstContext.added_lines sections addedLines.

(* ================================================================== *)
(** ** Two concrete files *)
(* ================================================================== *)

Definition text (lines : list jsstring) : jsstring := join [10%N] lines.

Definition other (name : string) (start_l end_l start_o end_o : Z)
           (children : list Node) : Node :=
  mkNode {| node_type := OtherType (lit name);
            node_loc := Some (start_l, end_l);
            node_start := start_o; node_end := end_o;
            node_id_name := None; node_key := None |} children.

Definition ident (name : string) : Key :=
  {| key_name := Some (lit name); key_value := None |}.

Definition config_default : AstConfig :=
  {| maxSnippetLength := 10000; maxBlockSizeLines := 150;
     maxDepth := 60; timeoutMs := 8000 |}.

(** *** A script file: a class with a field and a method *)

Definition shape_js : jsstring :=
  text [ lit "class A {";
         lit "  x = 1;";
         lit "  m() {";
         lit "    return 2;";
         lit "  }";
         lit "}";
         [] ].

(** The tree of @babel/parser for [shape_js]: the class spans lines 1 to
    6 and offsets 0 to 46, its method [m] lines 3 to 5 and offsets 21 to
    44. *)
Definition shape_ast : Node :=
  other "File" 1 7 0 47
    [ other "Program" 1 7 0 47
        [ mkNode {| node_type := ClassDeclaration;
                    node_loc := Some (1, 6);
                    node_start := 0; node_end := 46;
                    node_id_name := Some (lit "A"); node_key := None |}
            [ other "Identifier" 1 1 6 7 [];
              other "ClassBody" 1 6 8 46
                [ mkNode {| node_type := OtherType (lit "ClassProperty");
                            node_loc := Some (2, 2);
                            node_start := 12; node_end := 18;
                            node_id_name := None;
                            node_key := Some (ident "x") |}
                    [ other "Identifier" 2 2 12 13 [];
                      other "NumericLiteral" 2 2 16 17 [] ];
                  mkNode {| node_type := ClassMethod;
                            node_loc := Some (3, 5);
                            node_start := 21; node_end := 44;
                            node_id_name := None;
                            node_key := Some (ident "m") |}
                    [ other "Identifier" 3 3 21 22 [];
                      other "BlockStatement" 3 5 25 44
                        [ other "ReturnStatement" 4 4 31 40
                            [ other "NumericLiteral" 4 4 38 39 [] ] ] ] ] ] ] ].

(** A run where [src/shape.js] is that file, and lines 2 and 4 are the
    added lines. *)
Definition world_js : World :=
  {| loadAstConfig := Ok config_default;
     readFile := fun _ _ => Some shape_js;
     parseCode := fun _ => Ok shape_ast;
     parseScript := fun _ => Ok shape_ast;
     crawlScope := fun _ => None;
     vueSfcCompiler := None;
     now_start := 1000;
     now_end := 1004 |}.

(** *** A component file: two methods in the script block

    The file has a three-line template, then [<script>] on line 4; the
    block content starts on that line, right after the tag. *)

Definition panel_script : jsstring :=
  text [ [];
         lit "export default {";
         lit "  methods: {";
         lit "    a() {";
         lit "      const x = 1;";
         lit "      const y = 2;";
         lit "      return x + y;";
         lit "    },";
         lit "    b() {";
         lit "      return 3;";
         lit "    }";
         lit "  }";
         lit "};";
         [] ].

Definition panel_vue : jsstring :=
  text [ lit "<template>"; lit "  <div/>"; lit "</template>" ]
    ++ [10%N] ++ lit "<script>" ++ panel_script ++ lit "</script>" ++ [10%N].

Definition object_method (name : string) (start_l end_l start_o end_o : Z) : Node :=
  mkNode {| node_type := ObjectMethod;
            node_loc := Some (start_l, end_l);
            node_start := start_o; node_end := end_o;
            node_id_name := None; node_key := Some (ident name) |}
    [ other "Identifier" start_l start_l start_o (start_o + 1) [];
      other "BlockStatement" start_l end_l (start_o + 4) end_o [] ].

(** The tree of @babel/parser for [panel_script], in the lines of the
    block: [a] spans lines 4 to 8, [b] lines 9 to 11. *)
Definition panel_ast : Node :=
  other "File" 1 14 0 145
    [ other "Program" 1 14 0 145
        [ mkNode {| node_type := ExportDefaultDeclaration;
                    node_loc := Some (2, 13);
                    node_start := 1; node_end := 144;
                    node_id_name := None; node_key := None |}
            [ mkNode {| node_type := ObjectExpression;
                        node_loc := Some (2, 13);
                        node_start := 16; node_end := 143;
                        node_id_name := None; node_key := None |}
                [ mkNode {| node_type := ObjectProperty;
                            node_loc := Some (3, 12);
                            node_start := 20; node_end := 141;
                            node_id_name := None;
                            node_key := Some (ident "methods") |}
                    [ other "Identifier" 3 3 20 27 [];
                      mkNode {| node_type := ObjectExpression;
                                node_loc := Some (3, 12);
                                node_start := 29; node_end := 141;
                                node_id_name := None; node_key := None |}
                        [ object_method "a" 4 8 35 104;
                          object_method "b" 9 11 110 137 ] ] ] ] ] ].

(** A run where [src/Panel.vue] is that file. *)
Definition world_vue : World :=
  {| loadAstConfig := Ok config_default;
     readFile := fun _ _ => Some panel_vue;
     parseCode := fun _ => Ok panel_ast;
     parseScript := fun _ => Ok panel_ast;
     crawlScope := fun _ => None;
     vueSfcCompiler :=
       Some (fun _ _ =>
               Ok {| descriptor :=
                       {| template := true;
                          script := Some {| content := panel_script;
                                            loc_start_line := 4;
                                            lang := None |};
                          scriptSetup := None;
                          styles := Some 0 |};
                     sfc_errors := 0 |});
     now_start := 2000;
     now_end := 2007 |}.

(** The head of the message of [loadRuntimeConfig] when a required
    variable is missing: U+7F3A U+5C11 U+5FC5 U+9700 U+7684 U+73AF U+5883
    U+53D8 U+91CF, then [': ']. *)
Definition missing_variable : jsstring :=
  [0x7f3a; 0x5c11; 0x5fc5; 0x9700; 0x7684; 0x73af; 0x5883; 0x53d8; 0x91cf;
   58; 32]%N.

(** A run in which a required environment variable is missing, so that
    [loadRuntimeConfig] throws. *)
Definition world_unconfigured : World :=
  {| loadAstConfig := Throw (mkError (missing_variable ++ lit "GITLAB_TOKEN"));
     readFile := fun _ _ => None;
     parseCode := fun _ => Throw (mkError []);
     parseScript := fun _ => Throw (mkError []);
     crawlScope := fun _ => None;
     vueSfcCompiler := None;
     now_start := 0;
     now_end := 1 |}.

(** Every candidate of a collector has an added line, all its added
    lines are lines of the set and lie in its range, and its size is
    the number of lines of the range. *)
Definition candidate_ok (addedLines : numset) (c : AstContext.Candidate) : Prop :=
  AstContext.added_lines c <> [] /\
  (forall l, In l (AstContext.added_lines c) ->
             In l addedLines
             /\ AstContext.start_line c <= l <= AstContext.end_line c) /\
  AstContext.size c = AstContext.end_line c - AstContext.start_line c + 1.

(** The same for a unit of the Vue collector, in the lines of its
    block. *)
Definition unit_ok (addedLines : numset) (u : AstContextVue.Unit) : Prop :=
  AstContextVue.added_lines u <> [] /\
  forall l, In l (AstContextVue.added_lines u) ->
            In l addedLines
            /\ AstContextVue.start_line u <= l <= AstContextVue.end_line u.

(** What a Section says when it was cut at the character limit: the
    flag, the reason, and a snippet of [limit] units followed by the
    marker that quotes the raw length. *)
Definition cut_at_limit (limit raw_length : Z) (s : Sec.t) : Prop :=
  Sec.is_truncated s = Some true
  /\ Sec.truncation_reason s = Some (lit "char_limit")
  /\ str_length (Sec.snippet s)
     = limit + str_length (AstContext.truncation_marker raw_length).

(** A unit of 23 characters and 200 lines under a limit of 10
    characters and 150 lines. *)
Definition config_tight : AstConfig :=
  {| maxSnippetLength := 10; maxBlockSizeLines := 150;
     maxDepth := 60; timeoutMs := 8000 |}.

Definition long_method : AstContext.Candidate :=
  {| AstContext.type := lit "ClassMethod";
     AstContext.name := lit "m";
     AstContext.start_line := 3;
     AstContext.end_line := 202;
     AstContext.start_offset := 21;
     AstContext.end_offset := 44;
     AstContext.added_lines := [4];
     AstContext.size := 200 |}.

Definition long_unit : AstContextVue.Unit :=
  {| AstContextVue.type := lit "vue_methods";
     AstContextVue.name := lit "m";
     AstContextVue.start_line := 3;
     AstContextVue.end_line := 202;
     AstContextVue.added_lines := [4];
     AstContextVue.size := 200;
     AstContextVue.snippet := substring shape_js 21 44;
     AstContextVue.is_truncated := None;
     AstContextVue.truncation_reason := None;
     AstContextVue.summary := None |}.

(** What [extractScriptContext] returns for the script block of the
    component file, which starts on line 4, when lines 2, 8 and 13 of
    the file are added. *)
Definition panel_result : AstContextVue.ScriptResult :=
  Eval vm_compute in
    match AstContextVue.extractScriptContext world_vue panel_script [2; 8; 13] 4 with
    | Ok r => r
    | Throw _ => {| AstContextVue.sections := []; AstContextVue.script_errors := [] |}
    end.

(* ================================================================== *)
(** ** The added lines of a diff, as the specification defines them *)
(* ================================================================== *)

Module DiffSpec.

(** Section 4.1 of the specification keeps line counters that a hunk
    header initialises; before the first header there is no counter,
    and a header that does not match leaves none until the next valid
    header. *)
Inductive Counter : Type :=
| NoHunk
| NewLine (n : Z).

(** The new-file line numbers of the [+] lines, in the order of the
    diff, in the words of the specification: a line beginning with [-]
    advances only the old counter; a line beginning with [+] advances
    only the new counter and registers a new-line mapping; any other
    line advances both counters.  File-header lines come before the
    first [@@] and are never hunk content.  A header is valid when the
    pattern of [parseDiffNewlineMap] matches it. *)
Fixpoint new_line_numbers (lines : list jsstring) (c : Counter) : list Z :=
  match lines with
  | [] => []
  | line :: rest =>
      if startsWith (lit "@@") line then
        match DiffUtils.new_start_exec line with
        | Some newStart => new_line_numbers rest (NewLine (parseInt newStart))
        | None => new_line_numbers rest NoHunk
        end
      else
        match c with
        | NoHunk => new_line_numbers rest NoHunk
        | NewLine n =>
            if startsWith (lit "-") line then new_line_numbers rest (NewLine n)
            else if startsWith (lit "+") line
                 then n :: new_line_numbers rest (NewLine (n + 1))
                 else new_line_numbers rest (NewLine (n + 1))
        end
  end.

(** The Added-Line Set of the specification: those numbers, with no
    duplicates. *)
Definition added_line_set (diffText : jsstring) : numset :=
  set_of_list (new_line_numbers (split_lines diffText) NoHunk).

(** All the hunk headers of the diff parse. *)
Definition headers_parse (diffText : jsstring) : bool :=
  forallb (fun line =>
             negb (startsWith (lit "@@") line)
             || isSome (DiffUtils.new_start_exec line))
          (split_lines diffText).

(** No line of a hunk begins with [---] or [+++]: no removed line begins
    with [--], no added line with [++]. *)
Fixpoint plain_hunks (lines : list jsstring) (inHunk : bool) : bool :=
  match lines with
  | [] => true
  | line :: rest =>
      if startsWith (lit "@@") line then plain_hunks rest true
      else
        (negb inHunk
         || negb (startsWith (lit "---") line || startsWith (lit "+++") line))
        && plain_hunks rest inHunk
  end.

(** The positions in the diff (counted from 1, as the mapping pairs
    count them) of the lines of hunks whose header does not match. *)
Fixpoint lines_of_unparsed_hunks (lines : list jsstring) (i : Z)
         (unparsed : bool) : list Z :=
  match lines with
  | [] => []
  | line :: rest =>
      if startsWith (lit "@@") line then
        lines_of_unparsed_hunks
          rest (i + 1) (negb (isSome (DiffUtils.new_start_exec line)))
      else
        (if unparsed then [i + 1] else [])
          ++ lines_of_unparsed_hunks rest (i + 1) unparsed
  end.

End DiffSpec.

(** A hunk that replaces the statement [--count;] of line 3. *)
Definition decrement_diff : jsstring :=
  text [ lit "@@ -3,2 +3,2 @@";
         lit "---count;";
         lit "+count -= 1;";
         lit " done();" ].

(** A hunk that adds the statement [++i;] as line 2. *)
Definition increment_diff : jsstring :=
  text [ lit "@@ -1,1 +1,2 @@";
         lit " let i = 0;";
         lit "+++i;" ].

(** A valid hunk followed by a hunk whose header has no line numbers. *)
Definition broken_header_diff : jsstring :=
  text [ lit "@@ -1,1 +1,2 @@";
         lit " a";
         lit "+b";
         lit "@@ malformed @@";
         lit "+c" ].

(** A diff whose first hunk header does not match. *)
Definition headless_diff : jsstring :=
  text [ lit "@@ malformed @@";
         lit "+x";
         lit "@@ -1,1 +7,2 @@";
         lit "+y" ].

(** The counter of the mapper and the counter of the specification. *)
Definition same_counter (cur : Z) (c : DiffSpec.Counter) (inHunk : bool) : Prop :=
  (cur = -1 /\ c = DiffSpec.NoHunk /\ inHunk = false)
  \/ (0 <= cur /\ c = DiffSpec.NewLine cur /\ inHunk = true).

(* ================================================================== *)
(** ** src/main.js and src/review_engine.js: what reaches the line mapper *)
(* ================================================================== *)

Module GitLab.

(** One entry of the [diffs] that [getGitDiffs] returns, as far as
    main.js reads it; [diff] is [None] when the field is missing. *)
Record Diff : Type := mkDiff {
  diff : option jsstring;
  old_path : jsstring;
  new_path : jsstring
}.

End GitLab.

Module Main.

(** An element of the list that [prepareFilesForReview] returns. *)
Record File : Type := mkFile {
  path : jsstring;
  diff : jsstring;
  old_path : jsstring
}.

(** [`diff --git a/${old} b/${new}\n--- a/${old}\n+++ b/${new}\n`] *)
Definition file_header (old_path new_path : jsstring) : jsstring :=
  lit "diff --git a/" ++ old_path ++ lit " b/" ++ new_path ++ [10%N]
    ++ lit "--- a/" ++ old_path ++ [10%N]
    ++ lit "+++ b/" ++ new_path ++ [10%N].

(** [d.diff && !d.diff.startsWith('Binary files')] *)
Definition reviewable (d : GitLab.Diff) : bool :=
  match GitLab.diff d with
  | Some text => truthy (Some text) && negb (startsWith (lit "Binary files") text)
  | None => false
  end.

(** [prepareFilesForReview(diffs)] *)
Definition prepareFilesForReview (diffs : list GitLab.Diff) : list File :=
  map (fun d =>
         {| path := GitLab.new_path d;
            diff := file_header (GitLab.old_path d) (GitLab.new_path d)
                      ++ AstContext.string_or (GitLab.diff d) [];
            old_path := GitLab.old_path d |})
      (filter reviewable diffs).

End Main.

Module ReviewSingleFile.

(** [diffText.split('\n').filter(l => l.startsWith('+') &&
    !l.startsWith('+++')).length], the [added_lines] of a review. *)
Definition added (diffText : jsstring) : Z :=
  Z.of_nat
    (List.length
       (filter (fun l => startsWith (lit "+") l && negb (startsWith (lit "+++") l))
               (split_lines diffText))).

(** [diffText.split('\n').filter(l => l.startsWith('-') &&
    !l.startsWith('---')).length], the [deleted_lines] of a review. *)
Definition deleted (diffText : jsstring) : Z :=
  Z.of_nat
    (List.length
       (filter (fun l => startsWith (lit "-") l && negb (startsWith (lit "---") l))
               (split_lines diffText))).

End ReviewSingleFile.

(* ================================================================== *)
(** ** Notions used by the further statements *)
(* ================================================================== *)

(** A string without a line break. *)
Definition one_line (s : jsstring) : Prop := ~ In 10%N s.

(** The pairs of a mapping, every diff position moved by [k]. *)
Definition shift_positions (k : Z) (mapping : list (Z * Z)) : list (Z * Z) :=
  map (fun pn => (fst pn + k, snd pn)) mapping.

(** Strictly ascending numbers. *)
Definition increasing (l : list Z) : Prop := StronglySorted Z.lt l.

(** The lines of a diff from its first [@@] line on. *)
Fixpoint from_first_header (lines : list jsstring) : list jsstring :=
  match lines with
  | [] => []
  | line :: rest =>
      if startsWith (lit "@@") line then lines else from_first_header rest
  end.

(** How many lines begin with [@@]. *)
Definition header_count (lines : list jsstring) : nat :=
  List.length (filter (startsWith (lit "@@")) lines).

(** [n] consecutive numbers from [start]. *)
Fixpoint consecutive (start : Z) (n : nat) : list Z :=
  match n with
  | O => []
  | S n' => start :: consecutive (start + 1) n'
  end.

(** The value of [currentNewLine] when the loop of [parseDiffNewlineMap]
    has read the lines. *)
Fixpoint counter_after (diffLines : list jsstring) (currentNewLine : Z) : Z :=
  match diffLines with
  | [] => currentNewLine
  | line :: rest =>
      if startsWith (lit "@@") line then
        match DiffUtils.new_start_exec line with
        | Some g2 => counter_after rest (parseInt g2)
        | None => counter_after rest currentNewLine
        end
      else if startsWith (lit "+") line && negb (startsWith (lit "+++") line) then
        counter_after rest
          (if negb (currentNewLine =? -1) then currentNewLine + 1
           else currentNewLine)
      else if negb (startsWith (lit "-") line) || startsWith (lit "---") line then
        counter_after rest
          (if negb (currentNewLine =? -1) then currentNewLine + 1
           else currentNewLine)
      else counter_after rest currentNewLine
  end.

(** The pairs of a mapping whose diff position [p] has [lo < p <= hi]. *)
Definition pairs_between (lo hi : Z) (mapping : list (Z * Z)) : list (Z * Z) :=
  filter (fun pn => (lo <? fst pn) && (fst pn <=? hi)) mapping.

(** What a pair of the mapping says: its position is the position of a
    line that begins with [+] and not with [+++], and its line number is
    not negative. *)
Definition points_at_added_line (diffLines : list jsstring) (i : Z)
           (pn : Z * Z) : Prop :=
  exists line,
    nth_error diffLines (Z.to_nat (fst pn - 1 - i)) = Some line
    /\ i < fst pn <= i + Z.of_nat (List.length diffLines)
    /\ startsWith (lit "+") line = true
    /\ startsWith (lit "+++") line = false
    /\ 0 <= snd pn.

(** What the review reads from a diff text. *)
Definition same_review_input (prepared text : jsstring) : Prop :=
  DiffUtils.parseDiffNewlineMap prepared
  = shift_positions 3 (DiffUtils.parseDiffNewlineMap text)
  /\ ReviewEngine.addedLines prepared = ReviewEngine.addedLines text
  /\ DiffUtils.addLineNumbersToDiff prepared = DiffUtils.addLineNumbersToDiff text
  /\ ReviewSingleFile.added prepared = ReviewSingleFile.added text
  /\ ReviewSingleFile.deleted prepared = ReviewSingleFile.deleted text.

(** A prepared file comes from one of the diffs, whose text is not
    empty and not binary, and the review reads from it what it would
    read from that text. *)
Definition prepared_from (diffs : list GitLab.Diff) (f : Main.File) : Prop :=
  exists d text,
    In d diffs
    /\ GitLab.diff d = Some text
    /\ text <> []
    /\ startsWith (lit "Binary files") text = false
    /\ Main.path f = GitLab.new_path d
    /\ same_review_input (Main.diff f) text.

(** A hunk as [splitHunks] builds it: its first line is a [@@] line, no
    other line of it is one, and its two starts are read from that
    first line, or are 0 when the pattern does not match it. *)
Definition hunk_ok (h : DiffUtils.Hunk) : Prop :=
  exists header body,
    DiffUtils.hunkLines h = header :: body
    /\ startsWith (lit "@@") header = true
    /\ Forall (fun l => startsWith (lit "@@") l = false) body
    /\ match DiffUtils.starts_match header with
       | Some (g1, g3) =>
           DiffUtils.oldStart h = parseInt g1
           /\ DiffUtils.newStart h = parseInt g3
       | None => DiffUtils.oldStart h = 0 /\ DiffUtils.newStart h = 0
       end.

(** The lines of a hunk that [computeHunkLineNumbers] gives a new-file
    number: those that do not begin with [-]. *)
Definition new_side (line : jsstring) : bool := negb (startsWith (lit "-") line).

(** The lines that it gives an old-file number: those that begin with
    [-], and those that do not begin with [+]. *)
Definition old_side (line : jsstring) : bool :=
  startsWith (lit "-") line || negb (startsWith (lit "+") line).

(** The hunk that a [@@] line opens. *)
Definition opened_by (header : jsstring) : DiffUtils.Hunk :=
  match DiffUtils.starts_match header with
  | Some (g1, g3) =>
      {| DiffUtils.oldStart := parseInt g1;
         DiffUtils.newStart := parseInt g3;
         DiffUtils.hunkLines := [header] |}
  | None =>
      {| DiffUtils.oldStart := 0;
         DiffUtils.newStart := 0;
         DiffUtils.hunkLines := [header] |}
  end.

(** The two maps and the two counters while the lines are numbered:
    [ns] and [os] are the lines that have a new and an old number so
    far. *)
Definition numbered_so_far (newStart oldStart : Z) (ns os : list jsstring)
           (st : DiffUtils.NumberingState) : Prop :=
  DiffUtils.newLinesMap st = combine (consecutive newStart (List.length ns)) ns
  /\ DiffUtils.newLineNumber st = newStart + Z.of_nat (List.length ns)
  /\ DiffUtils.oldLinesMap st = combine (consecutive oldStart (List.length os)) os
  /\ DiffUtils.oldLineNumber st = oldStart + Z.of_nat (List.length os).

(** The longest prefix of a list whose elements all pass a test. *)
Fixpoint take_while {A : Type} (f : A -> bool) (l : list A) : list A :=
  match l with
  | [] => []
  | x :: l' => if f x then x :: take_while f l' else []
  end.

(** The paths of a tree in pre-order: the node, then its children from
    left to right, each with the nodes above it. *)
Fixpoint preorder (ancestors : list NodeData) (n : Node) : list Path :=
  match n with
  | mkNode d children =>
      (d, ancestors) :: flat_map (preorder (d :: ancestors)) children
  end.

(** The paths that [traverse] can visit: all the nodes below the root. *)
Definition paths_below (ast : Node) : list Path :=
  match ast with
  | mkNode _ children => flat_map (preorder []) children
  end.

(** The depth of a node below the root: 1 for a child of the root. *)
Definition depth_of (p : Path) : Z := Z.of_nat (List.length (snd p)) + 1.

(** How far a walk gets through the paths of a tree, taken in
    pre-order.  At each node the library first sets up the scope, and
    the walk ends there when that throws; then the depth limiter counts
    the node, and the walk ends there when the node lies deeper than
    [maxDepth].  The result is the nodes whose [enter] went on to look
    at the node, and what ended the walk, if anything did. *)
Fixpoint walk (arrive : Path -> option Error) (maxDepth : Z)
         (paths : list Path) : list Path * option Error :=
  match paths with
  | [] => ([], None)
  | p :: rest =>
      match arrive p with
      | Some e => ([], Some e)
      | None =>
          if depth_of p <=? maxDepth then
            let '(examined, stop) := walk arrive maxDepth rest in
            (p :: examined, stop)
          else ([], Some (mkError (AstUtils.depth_message maxDepth)))
      end
  end.

(** What a collector returns after such a walk: what it has found,
    unless the walk was ended by an error without the words of the
    depth limiter, which it throws again. *)
Definition collected {A : Type} (found : list A) (stop : option Error)
  : Result (list A) :=
  match stop with
  | None => Ok found
  | Some e =>
      if includes AstContext.depth_words (message e) then Ok found
      else Throw e
  end.

(** The library sets up the scope of every node of the tree without a
    throw. *)
Definition scopes_pass (w : World) (ast : Node) : Prop :=
  Forall (fun p => crawlScope w p = None) (paths_below ast).

(** What the [enter] callback of [collectImpactedSections] pushes for a
    node: nothing, or one candidate. *)
Definition candidate_at (addedLines : numset) (p : Path)
  : list AstContext.Candidate :=
  if AstContext.isTargetNode p then
    match node_loc (fst p) with
    | Some (start, end_) =>
        match filter (fun lineNumber =>
                        (lineNumber >=? start) && (lineNumber <=? end_))
                     addedLines with
        | [] => []
        | relevantLines =>
            [ {| AstContext.type := type_name (node_type (fst p));
                 AstContext.name := AstContext.getNodeName p;
                 AstContext.start_line := start;
                 AstContext.end_line := end_;
                 AstContext.start_offset := node_start (fst p);
                 AstContext.end_offset := node_end (fst p);
                 AstContext.added_lines := relevantLines;
                 AstContext.size := end_ - start + 1 |} ]
        end
    | None => []
    end
  else [].

(** What the [enter] callback of [collectScriptSections] pushes for a
    node. *)
Definition unit_at (scriptContent : jsstring) (addedLines : numset) (p : Path)
  : list AstContextVue.Unit :=
  if AstContextVue.isScriptTargetNode p then
    match node_loc (fst p) with
    | Some (start, end_) =>
        match filter (fun lineNumber =>
                        (lineNumber >=? start) && (lineNumber <=? end_))
                     addedLines with
        | [] => []
        | relevantLines =>
            [ {| AstContextVue.type :=
                   match snd (AstContextVue.getScriptNodeInfo p) with
                   | [] => type_name (node_type (fst p))
                   | context => context
                   end;
                 AstContextVue.name := fst (AstContextVue.getScriptNodeInfo p);
                 AstContextVue.start_line := start;
                 AstContextVue.end_line := end_;
                 AstContextVue.added_lines := relevantLines;
                 AstContextVue.size := end_ - start + 1;
                 AstContextVue.snippet :=
                   substring scriptContent (node_start (fst p)) (node_end (fst p));
                 AstContextVue.is_truncated := None;
                 AstContextVue.truncation_reason := None;
                 AstContextVue.summary := None |} ]
        end
    | None => []
    end
  else [].

(** The paths that a walk limited to the [maxDepth] of a configuration
    visits. *)
Definition walked (config : AstConfig) (ast : Node) : list Path :=
  take_while (fun p => depth_of p <=? maxDepth config) (paths_below ast).

(** What [extractJsAstContext] returns for a file that was read as
    [code] and parsed as [ast], when the walk of the tree is not ended
    by the library. *)
Definition js_sections (config : AstConfig) (code : jsstring) (ast : Node)
           (addedLines : numset) : list Sec.t :=
  map (fun section => AstContext.limitSectionSize section code config)
      (AstUtils.selectSmallestSections
         AstContext.size AstContext.added_lines
         (flat_map (candidate_at addedLines) (walked config ast))
         addedLines).

(** The candidates of a walk, or the error of the library that the
    collector throws again. *)
Definition walk_candidates (w : World) (config : AstConfig) (ast : Node)
           (addedLines : numset) : Result (list AstContext.Candidate) :=
  let '(examined, stop) :=
    walk (crawlScope w) (maxDepth config) (paths_below ast) in
  collected (flat_map (candidate_at addedLines) examined) stop.

(** The path of the method [m] in the tree of the script file: the
    first walked node that is a method. *)
Definition shape_method_path : Path :=
  Eval vm_compute in
    match find (fun p => is_type ClassMethod (fst p))
               (walked config_default shape_ast) with
    | Some p => p
    | None => (mkData (OtherType []) None 0 0 None None, [])
    end.

(** A unit of the Vue collector lists the lines of the set that lie in
    its range, in the order of the set. *)
Definition read_from (addedLines : numset) (u : AstContextVue.Unit) : Prop :=
  AstContextVue.added_lines u
  = filter (fun line => (line >=? AstContextVue.start_line u)
                          && (line <=? AstContextVue.end_line u))
           addedLines.

(** The units that [collectScriptSections] finds in a script block. *)
Definition script_units (config : AstConfig) (scriptContent : jsstring)
           (ast : Node) (addedLines : numset) : list AstContextVue.Unit :=
  flat_map (unit_at scriptContent addedLines) (walked config ast).

(** A Section carried [k] lines down the file: the three line fields
    move, the snippet and the rest stay. *)
Definition moved_down (k : Z) (s : Sec.t) : Sec.t :=
  {| Sec.type := Sec.type s;
     Sec.name := Sec.name s;
     Sec.start_line := Sec.start_line s + k;
     Sec.end_line := Sec.end_line s + k;
     Sec.added_lines := map (fun l => l + k) (Sec.added_lines s);
     Sec.snippet := Sec.snippet s;
     Sec.is_truncated := Sec.is_truncated s;
     Sec.truncation_reason := Sec.truncation_reason s;
     Sec.summary := Sec.summary s |}.

(** The path of the method [b] in the tree of the script block: the
    second walked node that is an object method. *)
Definition panel_method_path : Path :=
  Eval vm_compute in
    match filter (fun p => is_type ObjectMethod (fst p))
                 (walked config_default panel_ast) with
    | _ :: p :: _ => p
    | _ => (mkData (OtherType []) None 0 0 None None, [])
    end.

(** A line that counts as added: it begins with [+] and not with
    [+++]. *)
Definition is_added (line : jsstring) : bool :=
  startsWith (lit "+") line && negb (startsWith (lit "+++") line).

(** The new-file numbers under which [computeHunkLineNumbers] files the
    added lines of a hunk. *)
Definition added_numbers (h : DiffUtils.Hunk) : list Z :=
  map fst
      (filter (fun kv => is_added (snd kv))
              (DiffUtils.numbered_new (DiffUtils.computeHunkLineNumbers h))).

(** Every [@@] line of the diff is a header in the usual place: the
    pattern of [parseDiffNewlineMap] matches at the start of the line. *)
Definition headers_at_line_start (diffText : jsstring) : bool :=
  forallb (fun line =>
             negb (startsWith (lit "@@") line)
             || isSome (DiffUtils.new_start_at line))
          (split_lines diffText).

(** From the first [@@] line on, no line begins with [---]: no removed
    line begins with [--]. *)
Definition no_removed_dashes (diffText : jsstring) : bool :=
  forallb (fun line => negb (startsWith (lit "---") line))
          (from_first_header (split_lines diffText)).

(** The numbers of the engine are doubles.  The integers from [-2^53]
    to [2^53] are among them, [n + 1] is the successor of [n] as long
    as it is at most [2^53], and [parseInt] of decimal digits is their
    value when that is at most [2^53].  Beyond, the engine rounds:
    [2^53 + 1] is [2^53], and a counter that has reached [2^53] stays
    there.  A counter that starts at [start] and is advanced [steps]
    times counts as the integers do when all its values lie in the
    range. *)
Definition exact_limit : Z := 2 ^ 53.

Definition counts_exactly (start : Z) (steps : nat) : bool :=
  (- exact_limit <=? start) && (start + Z.of_nat steps <=? exact_limit).

(** A line number from which the engine counts on exactly: the number
    and its successor are integers of the range. *)
Definition in_counting_range (n : Z) : Prop :=
  - exact_limit <= n < exact_limit.

(** The new-file starts that the headers of a diff name, as
    [parseDiffNewlineMap] reads them. *)
Definition new_starts (diffLines : list jsstring) : list Z :=
  flat_map (fun line =>
              if startsWith (lit "@@") line then
                match DiffUtils.new_start_exec line with
                | Some g2 => [parseInt g2]
                | None => []
                end
              else [])
           diffLines.

(** No new-file counter of the diff leaves the range in which the
    engine counts as the integers do: whichever header it starts from,
    it stays in the range even when every line of the diff advances
    it. *)
Definition new_lines_counted_exactly (diffText : jsstring) : bool :=
  forallb (fun start =>
             counts_exactly start (List.length (split_lines diffText)))
          (new_starts (split_lines diffText)).

(** A Section obeys the two limits of a configuration.  Either it is
    whole: it has no truncation field, its snippet is no longer than
    [maxSnippetLength] and its range no longer than [maxBlockSizeLines].
    Or it is flagged as truncated, with the reason [char_limit], or with
    the reason [line_limit], a summary, and a range longer than
    [maxBlockSizeLines]. *)
Definition within_limits (config : AstConfig) (s : Sec.t) : Prop :=
  (Sec.is_truncated s = None
   /\ Sec.truncation_reason s = None
   /\ Sec.summary s = None
   /\ str_length (Sec.snippet s) <= maxSnippetLength config
   /\ Sec.end_line s - Sec.start_line s + 1 <= maxBlockSizeLines config)
  \/ (Sec.is_truncated s = Some true
      /\ Sec.truncation_reason s = Some (lit "char_limit"))
  \/ (Sec.is_truncated s = Some true
      /\ Sec.truncation_reason s = Some (lit "line_limit")
      /\ Sec.summary s <> None
      /\ maxBlockSizeLines config < Sec.end_line s - Sec.start_line s + 1).

(* ================================================================== *)
(** ** src/report.js: the excerpt of the diff shown with an issue *)
(* ================================================================== *)

Module Report.

(** The value of [extractDiffCode]. *)
Record Excerpt : Type := mkExcerpt {
  code : jsstring;
  actualRange : jsstring
}.

(** [linesMap.get(lineNum)] *)
Definition map_get (m : DiffUtils.LinesMap) (k : Z) : option jsstring :=
  match find (fun kv => fst kv =? k) m with
  | Some kv => Some (snd kv)
  | None => None
  end.

(** [Math.min(...xs)] and [Math.max(...xs)] of a list with a first
    element. *)
Definition min_of (x : Z) (xs : list Z) : Z := fold_left Z.min xs x.
Definition max_of (x : Z) (xs : list Z) : Z := fold_left Z.max xs x.

(** The variables that the [for] loop updates. *)
Record Collected : Type := mkCollected {
  lines : list jsstring;
  actualFirstLine : option Z;
  actualLastLine : option Z
}.

(** One turn of the loop; [if (line)] passes a line that is there and
    is not the empty string. *)
Definition collect_step (linesMap : DiffUtils.LinesMap) (st : Collected)
           (lineNum : Z) : Collected :=
  match map_get linesMap lineNum with
  | Some line =>
      if truthy (Some line) then
        {| lines := lines st ++ [line];
           actualFirstLine :=
             match actualFirstLine st with
             | None => Some lineNum
             | first => first
             end;
           actualLastLine := Some lineNum |}
      else st
  | None => st
  end.

(** The lines collected from [extendedStartLine] to [extendedEndLine]. *)
Definition collect (linesMap : DiffUtils.LinesMap)
           (extendedStartLine extendedEndLine : Z) : Collected :=
  fold_left (collect_step linesMap)
            (consecutive extendedStartLine
                         (Z.to_nat (extendedEndLine - extendedStartLine + 1)))
            {| lines := []; actualFirstLine := None; actualLastLine := None |}.

(** U+8D85 U+51FA U+8303 U+56F4 U+FF08 U+53EF U+7528 U+FF1A, then
    [min-max], then U+FF09. *)
Definition out_of_range (minAvailableLine maxAvailableLine : Z) : jsstring :=
  [0x8d85; 0x51fa; 0x8303; 0x56f4; 0xff08; 0x53ef; 0x7528; 0xff1a]%N
    ++ of_Z minAvailableLine ++ lit "-" ++ of_Z maxAvailableLine
    ++ [0xff09]%N.

(** The map that [type] selects. *)
Definition chosen_map (info : DiffUtils.ExtendedDiff) (type : jsstring)
  : DiffUtils.LinesMap :=
  if str_eqb type (lit "new") then DiffUtils.allNewLinesMap info
  else DiffUtils.allOldLinesMap info.

(** [extractDiffCode(extendedDiffInfo, type, startLine, endLine)];
    [extendedDiffInfo] is [None] when it is missing. *)
Definition extractDiffCode (extendedDiffInfo : option DiffUtils.ExtendedDiff)
           (type : jsstring) (startLine endLine : Z) : Excerpt :=
  match extendedDiffInfo with
  | None => {| code := []; actualRange := [] |}
  | Some info =>
      let linesMap := chosen_map info type in
      match map fst linesMap with
      | [] => {| code := []; actualRange := [] |}
      | k :: ks =>
          let minAvailableLine := min_of k ks in
          let maxAvailableLine := max_of k ks in
          if (startLine >? maxAvailableLine) || (endLine <? minAvailableLine)
          then {| code := [];
                  actualRange := out_of_range minAvailableLine maxAvailableLine |}
          else
            let adjustedStartLine :=
              Z.max minAvailableLine (Z.min startLine maxAvailableLine) in
            let adjustedEndLine :=
              Z.max minAvailableLine (Z.min endLine maxAvailableLine) in
            let contextLines := 3 in
            let extendedStartLine :=
              Z.max minAvailableLine (adjustedStartLine - contextLines) in
            let extendedEndLine :=
              Z.min maxAvailableLine (adjustedEndLine + contextLines) in
            let st := collect linesMap extendedStartLine extendedEndLine in
            {| code := join [10%N] (lines st);
               actualRange :=
                 match actualFirstLine st with
                 | Some first =>
                     of_Z first
                       ++ match actualLastLine st with
                          | Some last =>
                              if first =? last then []
                              else lit "-" ++ of_Z last
                          | None => lit "-null"
                          end
                 | None => []
                 end |}
      end
  end.

End Report.

(** The lines of an excerpt come from the map, are not empty, and have
    numbers at most three before [startLine] and three after
    [endLine]. *)
Definition drawn_from (m : DiffUtils.LinesMap) (startLine endLine : Z)
           (excerpt : list jsstring) : Prop :=
  Forall (fun line =>
            line <> []
            /\ exists n, startLine - 3 <= n <= endLine + 3
                         /\ Report.map_get m n = Some line)
         excerpt.

(** The excerpt holds every line of the map that is not empty and
    whose number lies from [startLine] to [endLine]. *)
Definition holds_the_range (m : DiffUtils.LinesMap) (startLine endLine : Z)
           (excerpt : list jsstring) : Prop :=
  forall n line,
    Report.map_get m n = Some line -> line <> [] ->
    startLine <= n <= endLine ->
    In line excerpt.

(** The range from [startLine] to [endLine] lies beside the numbers of
    the map: every number of the map is before [startLine], or every
    number is after [endLine]. *)
Definition range_misses (m : DiffUtils.LinesMap) (startLine endLine : Z)
  : Prop :=
  Forall (fun n => n < startLine) (map fst m)
  \/ Forall (fun n => endLine < n) (map fst m).

(** One line of a window around the added line [lineNum], as both
    versions of [extractContextAroundLines] print it: the number, the
    text, and the marker on the added line itself. *)
Definition labelled (lineNum n : Z) (text : jsstring) : jsstring :=
  of_Z n ++ lit "| " ++ text
    ++ (if n =? lineNum then AstUtils.added_marker else []).

(** Line [n] of a text, counted from 1. *)
Definition line_at (lines : list jsstring) (n : Z) : jsstring :=
  nth (Z.to_nat (n - 1)) lines [].

(** The numbers from [lo] to [hi]. *)
Definition from_to (lo hi : Z) : list Z :=
  consecutive lo (Z.to_nat (hi - lo + 1)).

(** A window: the lines numbered [lo] to [hi], where line [n] shows the
    line [n - shift] of the text. *)
Definition window (lines : list jsstring) (shift lineNum lo hi : Z) : jsstring :=
  join [10%N]
       (map (fun n => labelled lineNum n (line_at lines (n - shift)))
            (from_to lo hi)).

(** Where a Section comes from.  On the script path: a node that the
    walk of the parsed file reached, made a candidate and passed
    through [limitSectionSize].  On the component path: a node that the
    walk of a parsed script block reached, made a unit in the lines of
    the block, passed through [applySectionSizeLimit] and carried to the
    lines of the file. *)
Definition emitted_from (w : World) (config : AstConfig) (addedLines : numset)
           (s : Sec.t) : Prop :=
  (exists code ast p c,
      parseCode w code = Ok ast
      /\ In p (walked config ast)
      /\ In c (candidate_at addedLines p)
      /\ s = AstContext.limitSectionSize c code config)
  \/ (exists scriptContent o ast p u,
         parseScript w scriptContent = Ok ast
         /\ In p (walked config ast)
         /\ In u (unit_at scriptContent
                          (AstContextVue.adjustAddedLines addedLines o) p)
         /\ s = AstContextVue.toFileLines
                  o (AstContextVue.applySectionSizeLimit u config)).

(** The types a Section can have: the six kinds of node that are
    units, and the four places of a Vue component. *)
Definition section_types : list jsstring :=
  [ lit "FunctionDeclaration"; lit "FunctionExpression";
    lit "ArrowFunctionExpression"; lit "ClassMethod"; lit "ObjectMethod";
    lit "ClassDeclaration";
    lit "vue_methods"; lit "vue_computed"; lit "vue_watch"; lit "vue_setup" ].

(** The errors that a result can report once the configuration is
    loaded. *)
Definition reported_error (e : jsstring) : Prop :=
  e = lit "unsupported_file_type"
  \/ e = lit "file_not_readable"
  \/ e = lit "vue_sfc_compiler_not_installed"
  \/ (exists m, e = lit "parse_error: " ++ m)
  \/ (exists m, e = lit "sfc_parse_error: " ++ m)
  \/ (exists n, 0 < n /\ e = lit "sfc_parse_errors: " ++ of_Z n)
  \/ (exists m, e = lit "script_parse_error: " ++ m)
  \/ (exists m, e = lit "traverse_error: " ++ m)
  \/ (exists m, e = lit "script_traverse_error: " ++ m).

(** The line that a list of hunks files under the number [n] on one
    side: that of the last hunk that uses the number. *)
Definition last_numbering (side : DiffUtils.Numbered -> DiffUtils.LinesMap)
           (n : Z) (hunks : list DiffUtils.Hunk) : option jsstring :=
  fold_left (fun found h =>
               match Report.map_get
                       (side (DiffUtils.computeHunkLineNumbers h)) n with
               | Some line => Some line
               | None => found
               end)
            hunks None.

(* ================================================================== *)
(** ** src/prompt_builder.js: the user content of a review *)
(* ================================================================== *)

Module PromptBuilder.

(** [\n\n# AST U+4E0A U+4E0B U+6587 U+FF08 U+8F85 U+52A9 U+4FE1 U+606F
    U+FF09 \n] *)
Definition ast_heading : jsstring :=
  [10; 10; 35; 32; 65; 83; 84; 32; 0x4e0a; 0x4e0b; 0x6587; 0xff08; 0x8f85;
   0x52a9; 0x4fe1; 0x606f; 0xff09; 10]%N.

(** [ U+4EE5 U+4E0B U+662F U+5305 U+542B U+53D8 U+66F4 U+884C U+7684
    U+5B8C U+6574 U+51FD U+6570 / U+7C7B U+4EE3 U+7801 U+FF0C U+5E2E
    U+52A9 U+4F60 U+7406 U+89E3 U+4FEE U+6539 U+7684 U+4E0A U+4E0B
    U+6587 U+3002 \n] *)
Definition ast_intro : jsstring :=
  [0x4ee5; 0x4e0b; 0x662f; 0x5305; 0x542b; 0x53d8; 0x66f4; 0x884c; 0x7684;
   0x5b8c; 0x6574; 0x51fd; 0x6570; 47; 0x7c7b; 0x4ee3; 0x7801; 0xff0c;
   0x5e2e; 0x52a9; 0x4f60; 0x7406; 0x89e3; 0x4fee; 0x6539; 0x7684; 0x4e0a;
   0x4e0b; 0x6587; 0x3002; 10]%N.

(** [** U+6CE8 U+610F ** U+FF1A U+5E76 U+975E U+6240 U+6709 Diff
    U+53D8 U+66F4 U+90FD U+4F1A U+6709 AST U+4E0A U+4E0B U+6587 U+FF0C
    U+8FD9 U+662F U+6B63 U+5E38 U+7684 U+3002 U+8BF7 U+4EE5 Diff
    U+4E3A U+4E3B U+8981 U+5BA1 U+67E5 U+4F9D U+636E U+3002 \n\n] *)
Definition ast_note : jsstring :=
  [42; 42; 0x6ce8; 0x610f; 42; 42; 0xff1a; 0x5e76; 0x975e; 0x6240; 0x6709;
   32; 68; 105; 102; 102; 32; 0x53d8; 0x66f4; 0x90fd; 0x4f1a; 0x6709; 32;
   65; 83; 84; 32; 0x4e0a; 0x4e0b; 0x6587; 0xff0c; 0x8fd9; 0x662f; 0x6b63;
   0x5e38; 0x7684; 0x3002; 0x8bf7; 0x4ee5; 32; 68; 105; 102; 102; 32;
   0x4e3a; 0x4e3b; 0x8981; 0x5ba1; 0x67e5; 0x4f9d; 0x636e; 0x3002; 10;
   10]%N.

(** [## U+4EE3 U+7801 U+6BB5 ] *)
Definition section_heading : jsstring :=
  [35; 35; 32; 0x4ee3; 0x7801; 0x6bb5; 32]%N.

(** [- ** U+7C7B U+578B **: ] *)
Definition type_label : jsstring :=
  [45; 32; 42; 42; 0x7c7b; 0x578b; 42; 42; 58; 32]%N.

(** [- ** U+4F4D U+7F6E **: U+7B2C ] *)
Definition position_label : jsstring :=
  [45; 32; 42; 42; 0x4f4d; 0x7f6e; 42; 42; 58; 32; 0x7b2c; 32]%N.

(** [ U+884C \n] *)
Definition position_tail : jsstring :=
  [32; 0x884c; 10]%N.

(** [- ** U+65B0 U+589E U+884C U+53F7 **: [] *)
Definition added_label : jsstring :=
  [45; 32; 42; 42; 0x65b0; 0x589e; 0x884c; 0x53f7; 42; 42; 58; 32; 91]%N.

(** [- ** U+5B8C U+6574 U+4EE3 U+7801 **:\n```\n] *)
Definition code_label : jsstring :=
  [45; 32; 42; 42; 0x5b8c; 0x6574; 0x4ee3; 0x7801; 42; 42; 58; 10; 96; 96;
   96; 10]%N.

(** [\n```\n\n] *)
Definition code_tail : jsstring :=
  [10; 96; 96; 96; 10; 10]%N.

(** [** U+6CE8 U+610F **: AST U+89E3 U+6790 U+9047 U+5230 U+4EE5
    U+4E0B U+95EE U+9898 : ] *)
Definition errors_label : jsstring :=
  [42; 42; 0x6ce8; 0x610f; 42; 42; 58; 32; 65; 83; 84; 32; 0x89e3; 0x6790;
   0x9047; 0x5230; 0x4ee5; 0x4e0b; 0x95ee; 0x9898; 58; 32]%N.

(** What the [forEach] adds for one Section; [index] counts from 0. *)
Definition section_text (index : nat) (section : Sec.t) : jsstring :=
  section_heading ++ of_Z (Z.of_nat index + 1) ++ lit ": "
    ++ Sec.name section ++ [10%N]
    ++ type_label ++ Sec.type section ++ [10%N]
    ++ position_label ++ of_Z (Sec.start_line section) ++ lit "-"
    ++ of_Z (Sec.end_line section) ++ position_tail
    ++ added_label ++ join (lit ", ") (map of_Z (Sec.added_lines section))
    ++ lit "]" ++ [10%N]
    ++ code_label ++ Sec.snippet section ++ code_tail.

(** [buildUserContent({ filePath, extendedDiff, astContext })];
    [astContext] is [None] when it is [null]. *)
Definition buildUserContent (filePath extendedDiff : jsstring)
           (astContext : option ExtractionResult) : jsstring :=
  let oldPath := filePath in
  let newPath := filePath in
  let content :=
    lit "## new_path: " ++ newPath ++ [10%N]
      ++ lit "## old_path: " ++ oldPath ++ [10%N] ++ extendedDiff in
  match astContext with
  | Some astContext =>
      let sections := impacted_sections (result astContext) in
      if Z.of_nat (List.length sections) >? 0 then
        let content1 := content ++ ast_heading ++ ast_intro ++ ast_note in
        let content2 :=
          fold_left (fun content '(index, section) =>
                       content ++ section_text index section)
                    (combine (seq 0 (List.length sections)) sections)
                    content1 in
        if Z.of_nat (List.length (errors (result astContext))) >? 0 then
          content2 ++ errors_label
            ++ join (lit ", ") (errors (result astContext)) ++ [10%N]
        else content2
      else content
  | None => content
  end.

End PromptBuilder.

(** The first steps of [reviewSingleFile] of src/review_engine.js, up
    to the user content: the numbered diff, the added-line set, the AST
    context when [config.enableAst] is set, and [buildUserContent]. *)
Definition userContent (w : World) (enableAst : bool)
           (filePath diffText projectRoot : jsstring) : Result jsstring :=
  let extendedDiffInfo := DiffUtils.addLineNumbersToDiff diffText in
  let addedLines := ReviewEngine.addedLines diffText in
  astContext <-
    (if enableAst then
       r <- extractAstContext w filePath addedLines projectRoot ;; Ok (Some r)
     else Ok None) ;;
  Ok (PromptBuilder.buildUserContent
        filePath (DiffUtils.extendedDiff extendedDiffInfo) astContext).

(** A configuration with a depth limit of 4. *)
Definition config_shallow : AstConfig :=
  {| maxSnippetLength := 10000; maxBlockSizeLines := 150;
     maxDepth := 4; timeoutMs := 8000 |}.

(** A run where the parser accepts the script file and the library
    then throws when it sets up the scope of the program, as it does for
    a file with two declarations of one name. *)
Definition world_duplicate : World :=
  {| loadAstConfig := Ok config_default;
     readFile := fun _ _ => Some shape_js;
     parseCode := fun _ => Ok shape_ast;
     parseScript := fun _ => Ok shape_ast;
     crawlScope := fun _ => Some (mkError (lit "Duplicate declaration"));
     vueSfcCompiler := None;
     now_start := 1000;
     now_end := 1004 |}.

(** A GitLab diff of one hunk, for a file that moved. *)
Definition moved_file : GitLab.Diff :=
  {| GitLab.diff := Some (text [ lit "@@ -10,3 +10,5 @@";
                                 lit " before";
                                 lit "+first";
                                 lit "+second";
                                 lit " after";
                                 lit " last" ]);
     GitLab.old_path := lit "src/old.js";
     GitLab.new_path := lit "src/new.js" |}.

(** Two hunks in one diff text. *)
(** A numbered diff whose new side has the lines 3 and 9. *)
Definition lines_3_and_9 : DiffUtils.ExtendedDiff :=
  {| DiffUtils.extendedDiff := [];
     DiffUtils.allNewLinesMap := [(3, lit "+x"); (9, lit "+y")];
     DiffUtils.allOldLinesMap := [] |}.

Definition two_hunks_diff : jsstring :=
  text [ lit "@@ -1,2 +1,3 @@";
         lit " a";
         lit "+b";
         lit " c";
         lit "@@ -20,2 +21,3 @@";
         lit "-d";
         lit "+e";
         lit "+f";
         lit " g" ].

(* ================================================================== *)
(** ** Lists, sets and the sort *)
(* ================================================================== *)

Section SetFacts.

Lemma set_has_In (s : numset) (x : Z) : set_has s x = true <-> In x s.
Proof.
  unfold set_has. rewrite existsb_exists. split.
  - intros [y [Hy Heq]]. apply Z.eqb_eq in Heq. now subst.
  - intros H. exists x. split; [assumption | apply Z.eqb_refl].
Qed.

Lemma set_has_false (s : numset) (x : Z) : set_has s x = false <-> ~ In x s.
Proof.
  rewrite <- set_has_In. destruct (set_has s x); split; congruence.
Qed.

Lemma set_add_In (s : numset) (x y : Z) :
  In y (set_add s x) <-> In y s \/ y = x.
Proof.
  unfold set_add. destruct (set_has s x) eqn:E.
  - apply set_has_In in E. split; [tauto | intros [H | ->]; assumption].
  - rewrite in_app_iff. simpl. intuition congruence.
Qed.

Lemma set_add_all_In (xs : list Z) : forall (s : numset) (y : Z),
  In y (set_add_all s xs) <-> In y s \/ In y xs.
Proof.
  unfold set_add_all.
  induction xs as [| x xs IH]; intros s y; simpl.
  - tauto.
  - rewrite IH, set_add_In. intuition congruence.
Qed.

Lemma set_of_list_In (xs : list Z) (y : Z) :
  In y (set_of_list xs) <-> In y xs.
Proof.
  unfold set_of_list. rewrite (set_add_all_In xs [] y). simpl. tauto.
Qed.

Lemma set_add_NoDup (s : numset) (x : Z) : NoDup s -> NoDup (set_add s x).
Proof.
  intros H. unfold set_add. destruct (set_has s x) eqn:E; [assumption |].
  apply set_has_false in E.
  apply NoDup_rev in H. rewrite <- (rev_involutive (s ++ [x])).
  apply NoDup_rev. rewrite rev_app_distr. simpl.
  constructor; [rewrite <- in_rev; assumption | assumption].
Qed.

Lemma set_of_list_NoDup (xs : list Z) : NoDup (set_of_list xs).
Proof.
  unfold set_of_list.
  assert (G : forall s, NoDup s -> NoDup (fold_left set_add xs s)).
  { induction xs as [| x xs IH]; intros s Hs; simpl; [assumption |].
    apply IH, set_add_NoDup, Hs. }
  apply G. constructor.
Qed.

End SetFacts.

Section SortFacts.
Context {A : Type} (key : A -> Z).

Lemma insert_by_perm (x : A) (l : list A) :
  Permutation (insert_by key x l) (x :: l).
Proof.
  induction l as [| y l IH]; simpl.
  - apply Permutation_refl.
  - destruct (key x <=? key y).
    + apply Permutation_refl.
    + eapply perm_trans; [apply perm_skip, IH | apply perm_swap].
Qed.

Lemma sort_by_perm (l : list A) : Permutation (sort_by key l) l.
Proof.
  induction l as [| x l IH]; simpl.
  - apply perm_nil.
  - eapply perm_trans; [apply insert_by_perm | apply perm_skip, IH].
Qed.

Lemma sort_by_In (l : list A) (x : A) : In x (sort_by key l) <-> In x l.
Proof.
  split; apply Permutation_in;
    [apply sort_by_perm | apply Permutation_sym, sort_by_perm].
Qed.

Lemma insert_by_ascending (x : A) (l : list A) :
  ascending key l -> ascending key (insert_by key x l).
Proof.
  unfold ascending.
  induction l as [| y l IH]; intros Hs; simpl.
  - constructor; constructor.
  - destruct (key x <=? key y) eqn:E.
    + apply Z.leb_le in E. constructor; [assumption |].
      constructor; [assumption |].
      inversion Hs as [| ? ? _ Hall]; subst.
      eapply Forall_impl; [| exact Hall]. simpl. intros; lia.
    + apply Z.leb_gt in E.
      inversion Hs as [| ? ? Hl Hall]; subst.
      constructor; [apply IH, Hl |].
      eapply Permutation_Forall;
        [apply Permutation_sym, insert_by_perm |].
      constructor; [lia | assumption].
Qed.

Lemma sort_by_ascending (l : list A) : ascending key (sort_by key l).
Proof.
  induction l as [| x l IH]; simpl.
  - constructor.
  - apply insert_by_ascending, IH.
Qed.

(** Dropping an element keeps a list in order. *)
Lemma ascending_drop (l1 : list A) (x : A) (l2 : list A) :
  ascending key (l1 ++ x :: l2) -> ascending key (l1 ++ l2).
Proof.
  unfold ascending.
  induction l1 as [| y l1 IH]; simpl; intros Hs.
  - now inversion Hs.
  - inversion Hs as [| ? ? Hl Hall]; subst.
    constructor; [apply IH, Hl |].
    rewrite Forall_app in Hall |- *.
    destruct Hall as [H1 H2]. split; [assumption | now inversion H2].
Qed.

(** In an ordered list, what is strictly smaller than an element
    stands before it. *)
Lemma ascending_smaller_before (pre : list A) (u : A) (post : list A) (v : A) :
  ascending key (pre ++ u :: post) ->
  In v (pre ++ u :: post) -> key v < key u -> In v pre.
Proof.
  unfold ascending.
  induction pre as [| y pre IH]; simpl; intros Hs Hin Hlt.
  - inversion Hs as [| ? ? _ Hall]; subst.
    destruct Hin as [-> | Hin]; [lia |].
    rewrite Forall_forall in Hall. specialize (Hall _ Hin). simpl in Hall. lia.
  - inversion Hs as [| ? ? Hl _]; subst.
    destruct Hin as [-> | Hin]; [now left | right; now apply IH].
Qed.

End SortFacts.

(* ================================================================== *)
(** ** The Minimal-Coverage Selector of ast_utils.js *)
(* ================================================================== *)

Section SelectorFacts.
Context {A : Type} (added_lines : A -> list Z).

Local Abbreviation loop := (AstUtils.select_loop added_lines).
Local Abbreviation lines := (lines_of added_lines).

Lemma lines_of_app (l1 l2 : list A) (x : Z) :
  In x (lines (l1 ++ l2)) <-> In x (lines l1) \/ In x (lines l2).
Proof. unfold lines_of. rewrite flat_map_app, in_app_iff. tauto. Qed.

Lemma lines_of_one (u : A) (x : Z) : In x (lines [u]) <-> In x (added_lines u).
Proof. unfold lines_of. simpl. rewrite app_nil_r. tauto. Qed.

(** A unit is passed over exactly when all its lines are covered. *)
Lemma uncovered_none (cov : numset) (ls : list Z) :
  (Z.of_nat (List.length (filter (fun l => negb (set_has cov l)) ls)) >? 0) = false ->
  forall l, In l ls -> In l cov.
Proof.
  intros H l Hl.
  destruct (set_has cov l) eqn:E; [now apply set_has_In |].
  assert (Hin : In l (filter (fun l => negb (set_has cov l)) ls)).
  { apply filter_In. split; [assumption | now rewrite E]. }
  destruct (filter (fun l => negb (set_has cov l)) ls) as [| y rest];
    [contradiction |].
  rewrite Z.gtb_ltb in H. apply Z.ltb_ge in H. simpl List.length in H. lia.
Qed.

Lemma uncovered_some (cov : numset) (ls : list Z) :
  (Z.of_nat (List.length (filter (fun l => negb (set_has cov l)) ls)) >? 0) = true ->
  exists l, In l ls /\ ~ In l cov.
Proof.
  intros H.
  destruct (filter (fun l => negb (set_has cov l)) ls) as [| l rest] eqn:E;
    [discriminate H |].
  assert (Hin : In l (filter (fun l => negb (set_has cov l)) ls))
    by (rewrite E; now left).
  apply filter_In in Hin. destruct Hin as [Hl Hc].
  exists l. split; [assumption |].
  apply set_has_false. now destruct (set_has cov l).
Qed.

(** The loop keeps [coveredLines] equal to the lines of [selected],
    and ends with the lines of [selected] and of all it scanned. *)
Lemma select_loop_lines (sorted : list A) :
  forall (sel : list A) (cov : numset),
    (forall l, In l cov <-> In l (lines sel)) ->
    forall l, In l (lines (loop sorted sel cov))
              <-> In l (lines sel) \/ In l (lines sorted).
Proof.
  induction sorted as [| s rest IH]; intros sel cov Hcov l; simpl.
  - tauto.
  - destruct (Z.of_nat _ >? 0) eqn:E.
    + rewrite IH.
      * rewrite lines_of_app, lines_of_one.
        change (lines (s :: rest)) with (added_lines s ++ lines rest).
        rewrite in_app_iff. tauto.
      * intros x. rewrite set_add_all_In, lines_of_app, lines_of_one, Hcov.
        tauto.
    + rewrite (IH sel cov Hcov).
      change (lines (s :: rest)) with (added_lines s ++ lines rest).
      rewrite in_app_iff.
      pose proof (uncovered_none _ _ E l) as Hnone.
      rewrite Hcov in Hnone. tauto.
Qed.

Lemma select_loop_chain (sorted : list A) :
  forall (sel : list A) (cov : numset),
    (forall l, In l cov <-> In l (lines sel)) ->
    Chain added_lines sel ->
    Chain added_lines (loop sorted sel cov).
Proof.
  induction sorted as [| s rest IH]; intros sel cov Hcov Hch; simpl.
  - assumption.
  - destruct (Z.of_nat _ >? 0) eqn:E.
    + apply IH.
      * intros x. rewrite set_add_all_In, lines_of_app, lines_of_one, Hcov.
        tauto.
      * constructor; [assumption |].
        destruct (uncovered_some _ _ E) as [l [Hl Hn]].
        exists l. split; [assumption | now rewrite <- Hcov].
    + now apply IH.
Qed.

Lemma select_loop_In (sorted : list A) :
  forall (sel : list A) (cov : numset) (u : A),
    In u (loop sorted sel cov) -> In u sel \/ In u sorted.
Proof.
  induction sorted as [| s rest IH]; intros sel cov u Hin; simpl in *.
  - now left.
  - destruct (Z.of_nat _ >? 0).
    + apply IH in Hin. rewrite in_app_iff in Hin. simpl in Hin. tauto.
    + apply IH in Hin. tauto.
Qed.

(** In a chain, the unit at any position brings a line that the units
    before that position lack. *)
Lemma Chain_split (res : list A) :
  Chain added_lines res ->
  forall pre u post, res = pre ++ u :: post -> brings_new added_lines pre u.
Proof.
  induction 1 as [| sel u0 Hch IH Hnew]; intros pre u post Heq.
  - now destruct pre.
  - destruct post as [| p post0].
    + apply app_inj_tail in Heq. destruct Heq as [Hsel Hu]. now subst.
    + destruct (@exists_last _ (p :: post0)) as [post' [x Hx]]; [discriminate |].
      rewrite Hx in Heq.
      replace (pre ++ u :: post' ++ [x]) with ((pre ++ u :: post') ++ [x]) in Heq
        by (rewrite <- app_assoc; reflexivity).
      apply app_inj_tail in Heq. destruct Heq as [Hsel _].
      eapply IH. exact Hsel.
Qed.

(** The first unit of a list that holds a given line. *)
Lemma first_holder (units : list A) (l : Z) :
  In l (lines units) ->
  exists pre u post,
    units = pre ++ u :: post /\ In l (added_lines u) /\ ~ In l (lines pre).
Proof.
  induction units as [| u0 rest IH]; simpl; [tauto |].
  intros Hin.
  destruct (in_dec Z.eq_dec l (added_lines u0)) as [H0 | H0].
  - exists [], u0, rest. simpl. tauto.
  - apply in_app_or in Hin. destruct Hin as [Hin | Hin]; [contradiction |].
    destruct (IH Hin) as [pre [u [post [-> [Hu Hpre]]]]].
    exists (u0 :: pre), u, post. simpl. repeat split; try assumption.
    rewrite in_app_iff. tauto.
Qed.

Variable size : A -> Z.

Lemma select_loop_ascending (sorted : list A) :
  forall (sel : list A) (cov : numset),
    ascending size (sel ++ sorted) ->
    ascending size (loop sorted sel cov).
Proof.
  induction sorted as [| s rest IH]; intros sel cov Hs; simpl.
  - now rewrite app_nil_r in Hs.
  - destruct (Z.of_nat _ >? 0).
    + apply IH. now rewrite <- app_assoc.
    + apply IH. eapply ascending_drop, Hs.
Qed.

Lemma selected_chain (sections : list A) (addedLines : numset) :
  Forall (fun s => added_lines s <> []) sections ->
  Chain added_lines
        (AstUtils.selectSmallestSections size added_lines sections addedLines).
Proof.
  intros Hne. unfold AstUtils.selectSmallestSections.
  destruct sections as [| s [| s' rest]].
  - constructor.
  - change [s] with ([] ++ [s]). constructor; [constructor |].
    inversion Hne as [| ? ? Hs _]; subst.
    destruct (added_lines s) as [| l ls] eqn:E; [contradiction |].
    exists l. split; [rewrite E; now left | simpl; tauto].
  - apply select_loop_chain; [simpl; tauto | constructor].
Qed.

Lemma selected_ascending (sections : list A) (addedLines : numset) :
  ascending size
        (AstUtils.selectSmallestSections size added_lines sections addedLines).
Proof.
  unfold AstUtils.selectSmallestSections.
  destruct sections as [| s [| s' rest]].
  - constructor.
  - constructor; constructor.
  - apply select_loop_ascending.
    exact (sort_by_ascending size (s :: s' :: rest)).
Qed.

Lemma selected_In (sections : list A) (addedLines : numset) (u : A) :
  In u (AstUtils.selectSmallestSections size added_lines sections addedLines) ->
  In u sections.
Proof.
  unfold AstUtils.selectSmallestSections.
  destruct sections as [| s [| s' rest]]; try tauto.
  intros H. apply select_loop_In in H. destruct H as [[] | H].
  now apply sort_by_In in H.
Qed.

Lemma selected_lines (sections : list A) (addedLines : numset) (l : Z) :
  In l (lines (AstUtils.selectSmallestSections size added_lines sections addedLines))
  <-> In l (lines sections).
Proof.
  unfold AstUtils.selectSmallestSections.
  destruct sections as [| s [| s' rest]]; try tauto.
  rewrite select_loop_lines by (simpl; tauto).
  simpl (lines []). 
  assert (P : Permutation (lines (sort_by size (s :: s' :: rest)))
                          (lines (s :: s' :: rest))).
  { unfold lines_of. apply Permutation_flat_map, sort_by_perm. }
  split.
  - intros [[] | H]. eapply Permutation_in; eassumption.
  - intros H. right. eapply Permutation_in; [apply Permutation_sym|]; eassumption.
Qed.

End SelectorFacts.

(** C1. Coverage completeness of the Minimal-Coverage Selector: for
    every list of candidate units and every added-line set, a line
    belongs to the [added_lines] of some unit returned by
    [selectSmallestSections] exactly when it belongs to the
    [added_lines] of some candidate.  It holds for any units, whatever
    their [added_lines] are. *)
Theorem selectSmallestSections_coverage_complete
        {A : Type} (size : A -> Z) (added_lines : A -> list Z)
        (sections : list A) (addedLines : numset) (line : Z) :
  In line (lines_of added_lines
             (AstUtils.selectSmallestSections size added_lines sections addedLines))
  <-> In line (lines_of added_lines sections).
Proof. apply selected_lines. Qed.

(** C2 says that every added line present in at least one candidate is
    held by exactly one selected unit.  It fails on [nested_candidates]:
    the function and the class are both selected (the class for its
    line 20), and line 9 is held by the two of them. *)
Lemma unique_coverage_fails :
  ~ (forall (sections : list AstContext.Candidate) (addedLines : numset) (line : Z),
        Forall (from_added_lines addedLines) sections ->
        In line (lines_of AstContext.added_lines sections) ->
        holders AstContext.added_lines line (select_candidates sections addedLines)
        = 1%nat).
Proof.
  intros H.
  specialize (H nested_candidates [9; 20] 9).
  assert (Hwf : Forall (from_added_lines [9; 20]) nested_candidates).
  { repeat constructor; simpl; discriminate. }
  specialize (H Hwf).
  assert (Hin : In 9 (lines_of AstContext.added_lines nested_candidates))
    by (simpl; tauto).
  specialize (H Hin). vm_compute in H. discriminate H.
Qed.

Section SelectorClaims.
Context {A : Type} (size : A -> Z) (added_lines : A -> list Z).

Local Abbreviation select := (AstUtils.selectSmallestSections size added_lines).

(** A unit selected after others brings a line of its own. *)
Lemma selected_later_brings_new (sections : list A) (addedLines : numset)
      (pre : list A) (v : A) (post : list A) :
  select sections addedLines = pre ++ v :: post ->
  pre <> [] ->
  brings_new added_lines pre v.
Proof.
  intros Heq Hpre.
  destruct sections as [| s [| s' rest]].
  - now destruct pre.
  - destruct pre as [| p pre]; [contradiction |].
    simpl in Heq. injection Heq as _ Heq. now destruct pre.
  - unfold AstUtils.selectSmallestSections in Heq.
    refine (Chain_split added_lines _ _ _ _ _ Heq).
    apply select_loop_chain.
    + intros l. simpl. tauto.
    + constructor.
Qed.

(** C2, amended.  Every added line present in at least one candidate
    is held by at least one selected unit.  The selected units need
    not be disjoint: a unit selected later may hold the line again,
    and when it does it also holds another added line, which no unit
    selected before it holds. *)
Theorem selected_units_cover_each_line
        (sections : list A) (addedLines : numset) (line : Z) :
  In line (lines_of added_lines sections) ->
  exists pre u post,
    select sections addedLines = pre ++ u :: post
    /\ In line (added_lines u)
    /\ ~ In line (lines_of added_lines pre)
    /\ forall pre' v post',
        select sections addedLines = pre' ++ v :: post' ->
        In line (lines_of added_lines pre') ->
        In line (added_lines v) ->
        exists other,
          other <> line /\ In other (added_lines v)
          /\ ~ In other (lines_of added_lines pre').
Proof.
  intros Hin.
  apply (selected_lines added_lines size sections addedLines) in Hin.
  destruct (first_holder added_lines _ _ Hin) as [pre [u [post [Heq [Hu Hpre]]]]].
  exists pre, u, post. repeat split; try assumption.
  intros pre' v post' Heq' Hbefore Hv.
  assert (Hne : pre' <> []) by (intros ->; contradiction).
  destruct (selected_later_brings_new _ _ _ _ _ Heq' Hne) as [other [Ho Hn]].
  exists other. repeat split; try assumption.
  intros ->. contradiction.
Qed.

(** C9. Minimality of the Minimal-Coverage Selector: for every list
    of candidate units (each with at least one added line, as the
    collector builds them) and every added-line set, no unit returned
    by [selectSmallestSections] has all its [added_lines] among those
    of the returned units of strictly smaller size. *)
Theorem selectSmallestSections_minimal
        (sections : list A) (addedLines : numset) :
  Forall (fun s => added_lines s <> []) sections ->
  forall u,
    In u (select sections addedLines) ->
    ~ (forall l, In l (added_lines u) ->
                 exists v, In v (select sections addedLines)
                           /\ size v < size u /\ In l (added_lines v)).
Proof.
  intros Hne u Hu Hcovered.
  destruct (in_split _ _ Hu) as [pre [post Heq]].
  pose proof (selected_chain added_lines size sections addedLines Hne) as Hch.
  destruct (Chain_split added_lines _ Hch _ _ _ Heq) as [l [Hl Hfresh]].
  destruct (Hcovered l Hl) as [v [Hv [Hlt Hlv]]].
  apply Hfresh. unfold lines_of. apply in_flat_map. exists v. split; [| exact Hlv].
  apply (ascending_smaller_before size pre u post v); try assumption.
  - rewrite <- Heq. apply selected_ascending.
  - now rewrite <- Heq.
Qed.

End SelectorClaims.

(** The amended C2 at the class and the function: line 9 is first held
    by the function. *)
Lemma selected_units_cover_each_line_witness :
  exists pre u post,
    select_candidates nested_candidates [9; 20] = pre ++ u :: post
    /\ In 9 (AstContext.added_lines u)
    /\ ~ In 9 (lines_of AstContext.added_lines pre)
    /\ forall pre' v post',
        select_candidates nested_candidates [9; 20] = pre' ++ v :: post' ->
        In 9 (lines_of AstContext.added_lines pre') ->
        In 9 (AstContext.added_lines v) ->
        exists other,
          other <> 9 /\ In other (AstContext.added_lines v)
          /\ ~ In other (lines_of AstContext.added_lines pre').
Proof.
  apply (selected_units_cover_each_line
           AstContext.size AstContext.added_lines nested_candidates [9; 20] 9).
  simpl. tauto.
Defined.

(** C9 at the class and the function: the class is selected, and line
    20 is not held by the smaller function. *)
Lemma selectSmallestSections_minimal_witness :
  ~ (forall l, In l (AstContext.added_lines class_1_30) ->
               exists v, In v (select_candidates nested_candidates [9; 20])
                         /\ AstContext.size v < AstContext.size class_1_30
                         /\ In l (AstContext.added_lines v)).
Proof.
  apply (selectSmallestSections_minimal
           AstContext.size AstContext.added_lines nested_candidates [9; 20]).
  - repeat constructor; simpl; discriminate.
  - vm_compute. tauto.
Defined.

(* ================================================================== *)
(** ** The walk *)
(* ================================================================== *)

(** Induction on a tree whose children are a list of trees. *)
Lemma Node_induction (P : Node -> Prop) :
  (forall d cs, Forall P cs -> P (mkNode d cs)) -> forall n, P n.
Proof.
  intros step. fix IH 1. intros [d cs]. apply step.
  induction cs as [| c cs' IHcs]; constructor; [apply IH | exact IHcs].
Qed.

(** What the visitor's callbacks keep true, the walk keeps true, also
    when it is cut short by a throw. *)
Section WalkInvariant.
Context {S : Type}.
Variable arrive : Path -> option Error.
Variable enter : Path -> S -> S * option Error.
Variable exit : S -> S.
Variable I : S -> Prop.
Hypothesis enter_keeps : forall p st, I st -> I (fst (enter p st)).
Hypothesis exit_keeps : forall st, I st -> I (exit st).

Lemma visit_keeps (n : Node) :
  forall ancestors st, I st -> I (fst (visit arrive enter exit ancestors n st)).
Proof.
  induction n as [d cs IH] using Node_induction.
  intros ancestors st Hst. simpl.
  destruct (arrive (d, ancestors)) as [e |]; [exact Hst |].
  pose proof (enter_keeps (d, ancestors) st Hst) as H1.
  destruct (enter (d, ancestors) st) as [st1 [e |]]; simpl in H1; [exact H1 |].
  revert st1 H1.
  induction IH as [| c cs' Hc _ IHcs]; intros st1 H1.
  - simpl. now apply exit_keeps.
  - pose proof (Hc (d :: ancestors) st1 H1) as H2.
    destruct (visit arrive enter exit (d :: ancestors) c st1) as [st2 [e |]];
      simpl in H2; [exact H2 |].
    apply IHcs, H2.
Qed.

Lemma visit_list_keeps (cs : list Node) :
  forall ancestors st,
    I st -> I (fst (visit_list arrive enter exit ancestors cs st)).
Proof.
  induction cs as [| c cs IH]; intros ancestors st Hst; simpl.
  - exact Hst.
  - pose proof (visit_keeps c ancestors st Hst) as H1.
    destruct (visit arrive enter exit ancestors c st) as [st1 [e |]];
      simpl in H1; [exact H1 |].
    now apply IH.
Qed.

Lemma traverse_keeps (ast : Node) (st : S) :
  I st -> I (fst (traverse arrive enter exit ast st)).
Proof.
  destruct ast as [d cs]. simpl. apply visit_list_keeps.
Qed.
End WalkInvariant.

Lemma relevant_lines_in_range (addedLines : numset) (lo hi l : Z) :
  In l (filter (fun n => (n >=? lo) && (n <=? hi)) addedLines) ->
  In l addedLines /\ lo <= l <= hi.
Proof.
  intros H. apply filter_In in H. destruct H as [Hin Hb].
  apply andb_true_iff in Hb. destruct Hb as [H1 H2].
  rewrite Z.geb_leb in H1. apply Z.leb_le in H1. apply Z.leb_le in H2.
  split; [assumption | lia].
Qed.

Lemma length_zero_false {A : Type} (l : list A) :
  (Z.of_nat (List.length l) =? 0) = false -> l <> [].
Proof. intros H ->. discriminate H. Qed.

Lemma collectImpactedSections_ok
      (w : World) (addedLines : numset) (config : AstConfig) (ast : Node)
      (allSections : list AstContext.Candidate) :
  AstContext.collectImpactedSections w addedLines config ast = Ok allSections ->
  Forall (candidate_ok addedLines) allSections.
Proof.
  unfold AstContext.collectImpactedSections.
  pose proof (traverse_keeps
                (crawlScope w)
                (AstContext.enter addedLines config) AstContext.exit
                (fun st => Forall (candidate_ok addedLines) (fst st))) as K.
  intros H.
  assert (G : Forall (candidate_ok addedLines)
                (fst (fst (traverse (crawlScope w)
                                    (AstContext.enter addedLines config)
                                    AstContext.exit ast ([], 0))))).
  { apply K; [| | constructor].
    - intros p [sections depth] Hst. unfold AstContext.enter.
      destruct (AstUtils.depth_enter (maxDepth config) depth) as [depth' [e |]];
        [exact Hst |].
      destruct (negb (AstContext.isTargetNode p)); [exact Hst |].
      destruct (node_loc (fst p)) as [[lo hi] |]; [| exact Hst].
      destruct (Z.of_nat _ =? 0) eqn:E; [exact Hst |].
      simpl in Hst |- *. apply Forall_app. split; [exact Hst |].
      constructor; [| constructor].
      split; [| split]; simpl.
      + now apply length_zero_false.
      + apply relevant_lines_in_range.
      + reflexivity.
    - intros [sections depth] Hst. exact Hst. }
  revert H G.
  match goal with
  | |- context [traverse ?ar ?en ?ex ast ([], 0)] =>
      destruct (traverse ar en ex ast ([], 0)) as [st [error |]]
  end; intros H G.
  - destruct (includes _ _); [| discriminate H].
    injection H as <-. exact G.
  - injection H as <-. exact G.
Qed.

Lemma collectScriptSections_ok
      (w : World) (scriptContent : jsstring) (addedLines : numset)
      (config : AstConfig) (ast : Node)
      (allSections : list AstContextVue.Unit) :
  AstContextVue.collectScriptSections w scriptContent addedLines config ast
  = Ok allSections ->
  Forall (unit_ok addedLines) allSections.
Proof.
  unfold AstContextVue.collectScriptSections.
  pose proof (traverse_keeps
                (crawlScope w)
                (AstContextVue.enter scriptContent addedLines config)
                AstContextVue.exit
                (fun st => Forall (unit_ok addedLines) (fst st))) as K.
  intros H.
  assert (G : Forall (unit_ok addedLines)
                (fst (fst (traverse
                             (crawlScope w)
                             (AstContextVue.enter scriptContent addedLines config)
                             AstContextVue.exit ast ([], 0))))).
  { apply K; [| | constructor].
    - intros p [sections depth] Hst. unfold AstContextVue.enter.
      destruct (AstUtils.depth_enter (maxDepth config) depth) as [depth' [e |]];
        [exact Hst |].
      destruct (negb (AstContextVue.isScriptTargetNode p)); [exact Hst |].
      destruct (node_loc (fst p)) as [[lo hi] |]; [| exact Hst].
      destruct (Z.of_nat _ =? 0) eqn:E; [exact Hst |].
      destruct (AstContextVue.getScriptNodeInfo p) as [name context].
      simpl in Hst |- *. apply Forall_app. split; [exact Hst |].
      constructor; [| constructor].
      split; simpl.
      + now apply length_zero_false.
      + apply relevant_lines_in_range.
    - intros [sections depth] Hst. exact Hst. }
  revert H G.
  match goal with
  | |- context [traverse ?ar ?en ?ex ast ([], 0)] =>
      destruct (traverse ar en ex ast ([], 0)) as [st [error |]]
  end; intros H G.
  - destruct (includes _ _); [| discriminate H].
    injection H as <-. exact G.
  - injection H as <-. exact G.
Qed.

(* ================================================================== *)
(** ** The extractors *)
(* ================================================================== *)

Lemma limitSectionSize_lines (c : AstContext.Candidate) (code : jsstring)
      (config : AstConfig) :
  let s := AstContext.limitSectionSize c code config in
  Sec.start_line s = AstContext.start_line c
  /\ Sec.end_line s = AstContext.end_line c
  /\ Sec.added_lines s = AstContext.added_lines c.
Proof.
  unfold AstContext.limitSectionSize.
  destruct (_ >? maxSnippetLength config); [simpl; auto |].
  destruct (_ >? maxBlockSizeLines config); simpl; auto.
Qed.

Lemma applySectionSizeLimit_lines (u : AstContextVue.Unit) (config : AstConfig) :
  let v := AstContextVue.applySectionSizeLimit u config in
  AstContextVue.start_line v = AstContextVue.start_line u
  /\ AstContextVue.end_line v = AstContextVue.end_line u
  /\ AstContextVue.added_lines v = AstContextVue.added_lines u.
Proof.
  unfold AstContextVue.applySectionSizeLimit.
  destruct (_ >? maxSnippetLength config); [simpl; auto |].
  destruct (_ >? maxBlockSizeLines config); simpl; auto.
Qed.

(** Every unit that the selector of the Vue extractor returns is a
    candidate passed through [applySectionSizeLimit]. *)
Lemma vue_select_loop_from (config : AstConfig) (addedLines : numset)
      (sorted : list AstContextVue.Unit) :
  forall selected coveredLines v,
    In v (AstContextVue.select_loop config addedLines sorted selected coveredLines) ->
    In v selected
    \/ exists u, In u sorted /\ v = AstContextVue.applySectionSizeLimit u config.
Proof.
  induction sorted as [| s rest IH]; intros selected coveredLines v Hin; simpl in Hin.
  - now left.
  - destruct (existsb _ _).
    + apply IH in Hin. destruct Hin as [Hin | [u [Hu Hv]]].
      * apply in_app_or in Hin. destruct Hin as [Hin | [<- | []]].
        -- now left.
        -- right. exists s. split; [now left | reflexivity].
      * right. exists u. split; [now right | assumption].
    + apply IH in Hin. destruct Hin as [Hin | [u [Hu Hv]]].
      * now left.
      * right. exists u. split; [now right | assumption].
Qed.

Lemma vue_selected_from (config : AstConfig) (sections : list AstContextVue.Unit)
      (addedLines : numset) (v : AstContextVue.Unit) :
  In v (AstContextVue.selectSmallestSections config sections addedLines) ->
  exists u, In u sections /\ v = AstContextVue.applySectionSizeLimit u config.
Proof.
  unfold AstContextVue.selectSmallestSections.
  destruct sections as [| s [| s' rest]].
  - intros [].
  - intros [<- | []]. exists s. split; [now left | reflexivity].
  - intros H. apply vue_select_loop_from in H.
    destruct H as [[] | [u [Hu Hv]]].
    exists u. split; [now apply sort_by_In in Hu | assumption].
Qed.

Lemma adjustAddedLines_In (addedLines : numset) (o l : Z) :
  In l (AstContextVue.adjustAddedLines addedLines o)
  <-> exists g, In g addedLines /\ o <= g /\ l = g - o + 1.
Proof.
  unfold AstContextVue.adjustAddedLines.
  rewrite set_of_list_In, in_map_iff. split.
  - intros [g [Hl Hg]]. apply filter_In in Hg. destruct Hg as [Hg Hb].
    rewrite Z.geb_leb in Hb. apply Z.leb_le in Hb.
    exists g. repeat split; [assumption | assumption | now symmetry].
  - intros [g [Hg [Ho Hl]]]. exists g. split; [now symmetry |].
    apply filter_In. split; [assumption |].
    rewrite Z.geb_leb. now apply Z.leb_le.
Qed.

(** What [extractScriptContext] returns for a block that starts on line
    [o]: each Section is a selected unit of the block carried to the
    lines of the file. *)
Lemma extractScriptContext_sections
      (w : World) (scriptContent : jsstring) (addedLines : numset) (o : Z)
      (r : AstContextVue.ScriptResult) :
  AstContextVue.extractScriptContext w scriptContent addedLines o = Ok r ->
  forall s, In s (AstContextVue.sections r) ->
    exists u,
      s = AstContextVue.toFileLines o u
      /\ unit_ok (AstContextVue.adjustAddedLines addedLines o) u.
Proof.
  unfold AstContextVue.extractScriptContext, getAstConfig.
  destruct (loadAstConfig w) as [config | e]; simpl; [| discriminate].
  destruct (parseScript w scriptContent) as [ast | e].
  2: { intros H. injection H as <-. intros s []. }
  destruct (Z.of_nat _ =? 0).
  { intros H. injection H as <-. intros s []. }
  destruct (AstContextVue.collectScriptSections _ _ _ _ ast) as [all | e] eqn:E.
  2: { intros H. injection H as <-. intros s []. }
  intros H. injection H as <-. simpl. intros s Hs.
  apply in_map_iff in Hs. destruct Hs as [v [<- Hv]].
  exists v. split; [reflexivity |].
  apply vue_selected_from in Hv. destruct Hv as [u [Hu ->]].
  apply collectScriptSections_ok in E. rewrite Forall_forall in E.
  specialize (E u Hu). unfold unit_ok in *.
  destruct (applySectionSizeLimit_lines u config) as [-> [-> ->]]. exact E.
Qed.

Lemma toFileLines_ok (addedLines : numset) (o : Z) (u : AstContextVue.Unit) :
  unit_ok (AstContextVue.adjustAddedLines addedLines o) u ->
  section_ok (AstContextVue.toFileLines o u)
  /\ forall g, In g (Sec.added_lines (AstContextVue.toFileLines o u)) ->
               In g addedLines /\ o <= g.
Proof.
  intros [Hne Hin]. unfold section_ok. simpl. repeat split.
  - intros H. apply Hne. now apply map_eq_nil in H.
  - apply in_map_iff in H. destruct H as [x [<- Hx]].
    destruct (Hin x Hx) as [_ Hr]. lia.
  - apply in_map_iff in H. destruct H as [x [<- Hx]].
    destruct (Hin x Hx) as [_ Hr]. lia.
  - apply in_map_iff in H. destruct H as [x [<- Hx]].
    destruct (Hin x Hx) as [Ha _].
    apply adjustAddedLines_In in Ha. destruct Ha as [g' [Hg' [_ ->]]].
    now replace (g' - o + 1 + o - 1) with g' by lia.
  - apply in_map_iff in H. destruct H as [x [<- Hx]].
    destruct (Hin x Hx) as [Ha _].
    apply adjustAddedLines_In in Ha. destruct Ha as [g' [_ [Ho ->]]]. lia.
Qed.

Lemma analyseBlock_ok (w : World) (block : option SfcBlock)
      (addedLines : numset) (tag : jsstring) :
  Forall section_ok (fst (AstContextVue.analyseBlock w block addedLines tag)).
Proof.
  unfold AstContextVue.analyseBlock.
  destruct block as [b |]; [| constructor].
  destruct (truthy _); [| constructor].
  destruct (AstContextVue.extractScriptContext _ _ _ _) as [r | e] eqn:E;
    [| constructor].
  simpl. apply Forall_forall. intros s Hs.
  destruct (extractScriptContext_sections _ _ _ _ _ E s Hs) as [u [-> Hu]].
  now apply toFileLines_ok in Hu.
Qed.

Lemma extractJsAstContext_ok (w : World) (filePath : jsstring)
      (addedLines : numset) (projectRoot : jsstring) (r : ExtractorResult) :
  AstContext.extractJsAstContext w filePath addedLines projectRoot = Ok r ->
  Forall section_ok (impacted_sections r)
  /\ ascending (fun s => Sec.end_line s - Sec.start_line s) (impacted_sections r).
Proof.
  unfold AstContext.extractJsAstContext, getAstConfig, ascending.
  destruct (loadAstConfig w) as [config | e]; simpl; [| discriminate].
  destruct (readFileSafe w filePath projectRoot) as [code |].
  2: { intros H. injection H as <-. split; constructor. }
  destruct (unreadable _).
  { intros H. injection H as <-. split; constructor. }
  destruct (parseCode w code) as [ast | e].
  2: { intros H. injection H as <-. split; constructor. }
  destruct (AstContext.collectImpactedSections _ _ _ ast) as [all | e] eqn:E.
  2: { intros H. injection H as <-. split; constructor. }
  intros H. injection H as <-. simpl.
  apply collectImpactedSections_ok in E. rewrite Forall_forall in E.
  assert (Hsel : forall c,
             In c (AstUtils.selectSmallestSections
                     AstContext.size AstContext.added_lines all addedLines) ->
             candidate_ok addedLines c).
  { intros c Hc. apply E. eapply selected_In, Hc. }
  pose proof (selected_ascending AstContext.added_lines AstContext.size
                                 all addedLines) as Hasc.
  unfold ascending in Hasc.
  induction Hasc as [| c cs Hcs IH Hall].
  - split; constructor.
  - destruct IH as [IH1 IH2]; [intros c' Hc'; apply Hsel; now right |].
    destruct (Hsel c (or_introl eq_refl)) as [Hne [Hin Hsize]].
    destruct (limitSectionSize_lines c code config) as [H1 [H2 H3]].
    simpl map. split; constructor; try assumption.
    + unfold section_ok. rewrite H1, H2, H3. split; [assumption |].
      intros l Hl. now apply Hin.
    + rewrite Forall_map. rewrite Forall_forall in Hall |- *.
      intros c' Hc'. specialize (Hall c' Hc').
      destruct (Hsel c' (or_intror Hc')) as [_ [_ Hsize']].
      destruct (limitSectionSize_lines c' code config) as [H1' [H2' _]].
      rewrite H1, H2, H1', H2'. lia.
Qed.

Lemma extractVueAstContext_ok (w : World) (filePath : jsstring)
      (addedLines : numset) (projectRoot : jsstring) (r : ExtractorResult) :
  AstContextVue.extractVueAstContext w filePath addedLines projectRoot = Ok r ->
  Forall section_ok (impacted_sections r)
  /\ ascending Sec.start_line (impacted_sections r).
Proof.
  unfold AstContextVue.extractVueAstContext, getAstConfig.
  destruct (loadAstConfig w) as [config | e]; simpl; [| discriminate].
  destruct (vueSfcCompiler w) as [parseSFC |].
  2: { intros H. injection H as <-. split; constructor. }
  destruct (readFileSafe w filePath projectRoot) as [code |].
  2: { intros H. injection H as <-. split; constructor. }
  destruct (unreadable _).
  { intros H. injection H as <-. split; constructor. }
  destruct (parseSFC code filePath) as [parsed | e].
  2: { intros H. injection H as <-. split; constructor. }
  pose proof (analyseBlock_ok w (script (descriptor parsed)) addedLines
                              (lit "script_analysis_error: ")) as B1.
  pose proof (analyseBlock_ok w (scriptSetup (descriptor parsed)) addedLines
                              (lit "script_setup_analysis_error: ")) as B2.
  destruct (AstContextVue.analyseBlock w (script _) _ _) as [s1 e1].
  destruct (AstContextVue.analyseBlock w (scriptSetup _) _ _) as [s2 e2].
  intros H. injection H as <-. simpl in *. split.
  - eapply Permutation_Forall; [apply Permutation_sym, sort_by_perm |].
    apply Forall_app. now split.
  - apply sort_by_ascending.
Qed.

(* ================================================================== *)
(** ** The dispatch layer *)
(* ================================================================== *)

Lemma extractAstContext_cases (w : World) (filePath : jsstring)
      (addedLines : numset) (projectRoot : jsstring) :
  exists r,
    extractAstContext w filePath addedLines projectRoot
    = Ok {| result := r; parse_time_ms := now_end w - now_start w |}
    /\ ((is_js_path filePath = true
         /\ AstContext.extractJsAstContext w filePath addedLines projectRoot = Ok r)
        \/ (is_js_path filePath = false /\ is_vue_path filePath = true
            /\ AstContextVue.extractVueAstContext w filePath addedLines projectRoot
               = Ok r)
        \/ (is_js_path filePath = false /\ is_vue_path filePath = false
            /\ r = AstContext.empty_result [lit "unsupported_file_type"])
        \/ exists e,
            r = AstContext.empty_result [lit "unexpected_error: " ++ message e]
            /\ ((is_js_path filePath = true
                 /\ AstContext.extractJsAstContext w filePath addedLines projectRoot
                    = Throw e)
                \/ (is_js_path filePath = false /\ is_vue_path filePath = true
                    /\ AstContextVue.extractVueAstContext
                         w filePath addedLines projectRoot = Throw e))).
Proof.
  unfold extractAstContext.
  destruct (is_js_path filePath) eqn:Ejs.
  - destruct (AstContext.extractJsAstContext _ _ _ _) as [r | e]; simpl.
    + exists r. split; [reflexivity | left; auto].
    + eexists. split; [reflexivity |].
      right; right; right. exists e. split; [reflexivity | left; auto].
  - destruct (is_vue_path filePath) eqn:Evue.
    + destruct (AstContextVue.extractVueAstContext _ _ _ _) as [r | e]; simpl.
      * exists r. split; [reflexivity | right; left; auto].
      * eexists. split; [reflexivity |].
        right; right; right. exists e. split; [reflexivity | right; auto].
    + simpl. eexists. split; [reflexivity | right; right; left; auto].
Qed.

(** C5 says that the [impacted_sections] of every Extraction Result
    are sorted in ascending order of [start_line].  It fails on the
    plain-script path: for [shape_js] with added lines 2 and 4 the
    method (lines 3 to 5) is emitted before the class (lines 1 to 6)
    that holds it. *)
Lemma script_sections_not_sorted :
  ~ (forall (w : World) (filePath : jsstring) (addedLines : numset)
            (projectRoot : jsstring) (r : ExtractionResult),
        extractAstContext w filePath addedLines projectRoot = Ok r ->
        ascending Sec.start_line (impacted_sections (result r))).
Proof.
  intros H.
  destruct (extractAstContext world_js (lit "src/shape.js") [2; 4] (lit "/repo"))
    as [r | e] eqn:E; [| vm_compute in E; discriminate E].
  specialize (H _ _ _ _ r E).
  vm_compute in E. injection E as <-.
  unfold ascending in H. simpl in H.
  inversion H as [| ? ? _ Hall]; subst.
  inversion Hall as [| ? ? Hle _]; subst.
  simpl in Hle. lia.
Qed.

(** C5, amended.  For every file that [extractAstContext] does not send
    to the plain-script extractor (the component path, and the files it
    rejects), the [impacted_sections] of the returned Extraction Result
    are sorted in ascending order of [start_line].  On the plain-script
    path they are in the order of the selector, which is the ascending
    order of the line count [end_line - start_line + 1]. *)
Theorem impacted_sections_order
        (w : World) (filePath : jsstring) (addedLines : numset)
        (projectRoot : jsstring) :
  exists r,
    extractAstContext w filePath addedLines projectRoot = Ok r
    /\ (is_js_path filePath = false ->
        ascending Sec.start_line (impacted_sections (result r)))
    /\ (is_js_path filePath = true ->
        ascending (fun s => Sec.end_line s - Sec.start_line s)
                  (impacted_sections (result r))).
Proof.
  destruct (extractAstContext_cases w filePath addedLines projectRoot)
    as [r [Heq Hcase]].
  eexists. split; [exact Heq |]. simpl.
  destruct Hcase as [[Hjs Hr] | [[Hjs [Hvue Hr]] | [[Hjs [Hvue ->]] | [e [-> _]]]]].
  - split; [congruence |]. intros _. now apply extractJsAstContext_ok in Hr.
  - split; [| congruence]. intros _. now apply extractVueAstContext_ok in Hr.
  - split; intros _; constructor.
  - split; intros _; constructor.
Qed.

(** The amended C5 on the component file: [a] (lines 7 to 11) comes
    before [b] (lines 12 to 14), though the selector took [b] first. *)
Lemma impacted_sections_order_witness :
  exists r,
    extractAstContext world_vue (lit "src/Panel.vue") [2; 8; 13] (lit "/repo") = Ok r
    /\ (is_js_path (lit "src/Panel.vue") = false ->
        ascending Sec.start_line (impacted_sections (result r)))
    /\ (is_js_path (lit "src/Panel.vue") = true ->
        ascending (fun s => Sec.end_line s - Sec.start_line s)
                  (impacted_sections (result r))).
Proof.
  apply (impacted_sections_order
           world_vue (lit "src/Panel.vue") [2; 8; 13] (lit "/repo")).
Defined.

(** C10. For every file processed by either extractor, every Section of
    the returned [impacted_sections] has a non-empty [added_lines] list,
    and every element of that list lies between the Section's
    [start_line] and [end_line] inclusive. *)
Theorem emitted_sections_hold_their_lines
        (w : World) (filePath : jsstring) (addedLines : numset)
        (projectRoot : jsstring) :
  exists r,
    extractAstContext w filePath addedLines projectRoot = Ok r
    /\ Forall section_ok (impacted_sections (result r)).
Proof.
  destruct (extractAstContext_cases w filePath addedLines projectRoot)
    as [r [Heq Hcase]].
  eexists. split; [exact Heq |]. simpl.
  destruct Hcase as [[Hjs Hr] | [[Hjs [Hvue Hr]] | [[Hjs [Hvue ->]] | [e [-> _]]]]].
  - now apply extractJsAstContext_ok in Hr.
  - now apply extractVueAstContext_ok in Hr.
  - constructor.
  - constructor.
Qed.

(** C8. [extractAstContext] never throws: it returns an Extraction
    Result for every run, file path and added-line set; for a path with
    none of the recognised extensions the result has no Section and the
    one error tag ['unsupported_file_type']; and when the extractor it
    calls throws, the result has no Section and one error tag, which
    starts with ['unexpected_error: '] and ends with the message. *)
Theorem extractAstContext_never_throws
        (w : World) (filePath : jsstring) (addedLines : numset)
        (projectRoot : jsstring) :
  (exists r, extractAstContext w filePath addedLines projectRoot = Ok r)
  /\ (is_js_path filePath = false -> is_vue_path filePath = false ->
      extractAstContext w filePath addedLines projectRoot
      = Ok {| result := {| impacted_sections := [];
                           component_info := None;
                           errors := [lit "unsupported_file_type"] |};
              parse_time_ms := now_end w - now_start w |})
  /\ (forall e,
         (is_js_path filePath = true
          /\ AstContext.extractJsAstContext w filePath addedLines projectRoot
             = Throw e)
         \/ (is_js_path filePath = false /\ is_vue_path filePath = true
             /\ AstContextVue.extractVueAstContext w filePath addedLines projectRoot
                = Throw e) ->
         exists tag,
           extractAstContext w filePath addedLines projectRoot
           = Ok {| result := {| impacted_sections := [];
                                component_info := None;
                                errors := [tag] |};
                   parse_time_ms := now_end w - now_start w |}
           /\ tag = lit "unexpected_error: " ++ message e
           /\ startsWith (lit "unexpected_error: ") tag = true).
Proof.
  split; [| split].
  - destruct (extractAstContext_cases w filePath addedLines projectRoot)
      as [r [Heq _]]. eexists. exact Heq.
  - intros Hjs Hvue. unfold extractAstContext. now rewrite Hjs, Hvue.
  - intros e He. eexists. split; [| split; reflexivity].
    unfold extractAstContext.
    destruct He as [[Hjs He] | [Hjs [Hvue He]]].
    + now rewrite Hjs, He.
    + now rewrite Hjs, Hvue, He.
Qed.

(** C8 on two runs: an image, and a script when the configuration
    cannot be loaded. *)
Lemma extractAstContext_never_throws_witness :
  (extractAstContext world_js (lit "logo.png") [3] (lit "/repo")
   = Ok {| result := {| impacted_sections := [];
                        component_info := None;
                        errors := [lit "unsupported_file_type"] |};
           parse_time_ms := 4 |})
  /\ (exists tag,
         extractAstContext world_unconfigured (lit "src/shape.js") [2; 4] (lit "/repo")
         = Ok {| result := {| impacted_sections := [];
                              component_info := None;
                              errors := [tag] |};
                 parse_time_ms := 1 |}
         /\ tag = lit "unexpected_error: " ++ missing_variable ++ lit "GITLAB_TOKEN"
         /\ startsWith (lit "unexpected_error: ") tag = true).
Proof.
  split.
  - apply (proj1 (proj2 (extractAstContext_never_throws
                           world_js (lit "logo.png") [3] (lit "/repo"))));
      reflexivity.
  - apply (proj2 (proj2 (extractAstContext_never_throws
                           world_unconfigured (lit "src/shape.js") [2; 4]
                           (lit "/repo")))
                 (mkError (missing_variable ++ lit "GITLAB_TOKEN"))).
    left. split; reflexivity.
Defined.

(* ================================================================== *)
(** ** The character limit *)
(* ================================================================== *)

Lemma str_length_app (a b : jsstring) :
  str_length (a ++ b) = str_length a + str_length b.
Proof. unfold str_length. rewrite length_app. lia. Qed.

(** Cutting a string that is longer than [n] at [n] leaves [n] units. *)
Lemma substring_prefix_length (s : jsstring) (n : Z) :
  0 <= n -> n < str_length s -> str_length (substring s 0 n) = n.
Proof.
  intros H0 Hn. unfold substring, clamp, str_length in *.
  rewrite (Z.max_l 0 0) by lia. rewrite (Z.min_l 0) by lia.
  rewrite (Z.max_l n 0) by lia. rewrite (Z.min_l n) by lia.
  rewrite (Z.min_l 0 n) by lia. rewrite (Z.max_r 0 n) by lia.
  simpl skipn. rewrite length_firstn. lia.
Qed.

(** C6. For every selected unit whose raw snippet is longer than the
    configured [maxSnippetLength] (a number of characters, so not
    negative), the emitted Section has [is_truncated] true and
    [truncation_reason] ['char_limit'], and its snippet has length
    exactly [maxSnippetLength] plus the length of the appended marker.
    The unit's line count plays no part: the character limit is tested
    first, and the line window is not built.  This holds for
    [limitSectionSize] of the script path and for
    [applySectionSizeLimit] of the component path, whose result is then
    carried to the lines of the file. *)
Theorem char_limit_comes_first (config : AstConfig) :
  0 <= maxSnippetLength config ->
  (forall (section : AstContext.Candidate) (code : jsstring),
      let raw :=
        substring code (AstContext.start_offset section)
                  (AstContext.end_offset section) in
      str_length raw > maxSnippetLength config ->
      cut_at_limit (maxSnippetLength config) (str_length raw)
                   (AstContext.limitSectionSize section code config))
  /\ (forall (section : AstContextVue.Unit) (scriptStartLine : Z),
         let raw := AstContextVue.snippet section in
         str_length raw > maxSnippetLength config ->
         cut_at_limit (maxSnippetLength config) (str_length raw)
                      (AstContextVue.toFileLines
                         scriptStartLine
                         (AstContextVue.applySectionSizeLimit section config))).
Proof.
  intros Hlimit. split.
  - intros section code raw Hlong.
    unfold cut_at_limit, AstContext.limitSectionSize. fold raw.
    assert (E : (str_length raw >? maxSnippetLength config) = true)
      by (apply Z.gtb_lt; lia).
    rewrite E. simpl. repeat split.
    rewrite str_length_app, substring_prefix_length by lia. reflexivity.
  - intros section scriptStartLine raw Hlong.
    unfold cut_at_limit, AstContextVue.applySectionSizeLimit. fold raw.
    assert (E : (str_length raw >? maxSnippetLength config) = true)
      by (apply Z.gtb_lt; lia).
    rewrite E. simpl. repeat split.
    rewrite str_length_app, substring_prefix_length by lia. reflexivity.
Qed.

(** C6 on that unit, on both paths. *)
Lemma char_limit_comes_first_witness :
  cut_at_limit 10 23 (AstContext.limitSectionSize long_method shape_js config_tight)
  /\ cut_at_limit 10 23
       (AstContextVue.toFileLines
          4 (AstContextVue.applySectionSizeLimit long_unit config_tight)).
Proof.
  assert (H0 : 0 <= maxSnippetLength config_tight) by (simpl; lia).
  split.
  - apply (proj1 (char_limit_comes_first config_tight H0) long_method shape_js).
    vm_compute. reflexivity.
  - apply (proj2 (char_limit_comes_first config_tight H0) long_unit 4).
    vm_compute. reflexivity.
Defined.

(* ================================================================== *)
(** ** The line mapper *)
(* ================================================================== *)

(** The loop only appends to [mapping]. *)
Lemma parse_loop_app (diffLines : list jsstring) :
  forall i mapping cur,
    DiffUtils.parse_loop diffLines i mapping cur
    = mapping ++ DiffUtils.parse_loop diffLines i [] cur.
Proof.
  induction diffLines as [| line rest IH]; intros i mapping cur;
    cbn [DiffUtils.parse_loop].
  - now rewrite app_nil_r.
  - destruct (startsWith (lit "@@") line).
    { destruct (DiffUtils.new_start_exec line); apply IH. }
    destruct (startsWith (lit "+") line && negb (startsWith (lit "+++") line)).
    { destruct (negb (cur =? -1)); [| apply IH].
      rewrite IH. rewrite (IH _ ([] ++ _)). now rewrite <- app_assoc. }
    destruct (negb (startsWith (lit "-") line) || startsWith (lit "---") line).
    { destruct (negb (cur =? -1)); apply IH. }
    apply IH.
Qed.

(** The positions in the pairs are positions of lines still to read. *)
Lemma parse_loop_positions (diffLines : list jsstring) :
  forall i cur p n,
    In (p, n) (DiffUtils.parse_loop diffLines i [] cur) -> i < p.
Proof.
  induction diffLines as [| line rest IH]; intros i cur p n;
    cbn [DiffUtils.parse_loop].
  - intros [].
  - destruct (startsWith (lit "@@") line).
    { destruct (DiffUtils.new_start_exec line); intros H; apply IH in H; lia. }
    destruct (startsWith (lit "+") line && negb (startsWith (lit "+++") line)).
    { destruct (negb (cur =? -1)).
      - rewrite parse_loop_app. intros H. apply in_app_or in H.
        destruct H as [[H | []] | H].
        + injection H as <- _. lia.
        + apply IH in H. lia.
      - intros H. apply IH in H. lia. }
    destruct (negb (startsWith (lit "-") line) || startsWith (lit "---") line).
    { destruct (negb (cur =? -1)); intros H; apply IH in H; lia. }
    intros H. apply IH in H. lia.
Qed.

(** Until a header has matched, the counter stays at [-1] and nothing is
    mapped. *)
Lemma parse_loop_skips (pre : list jsstring) :
  forall rest i,
    (forall line, In line pre ->
                  startsWith (lit "@@") line = true ->
                  DiffUtils.new_start_exec line = None) ->
    DiffUtils.parse_loop (pre ++ rest) i [] (-1)
    = DiffUtils.parse_loop rest (i + Z.of_nat (List.length pre)) [] (-1).
Proof.
  induction pre as [| line pre IH]; intros rest i Hpre.
  - simpl. now rewrite Z.add_0_r.
  - assert (Hrest : forall l, In l pre ->
                              startsWith (lit "@@") l = true ->
                              DiffUtils.new_start_exec l = None)
      by (intros l Hl; apply Hpre; now right).
    replace (i + Z.of_nat (List.length (line :: pre)))
      with ((i + 1) + Z.of_nat (List.length pre))
      by (simpl List.length; lia).
    rewrite <- (IH rest (i + 1) Hrest).
    change ((line :: pre) ++ rest) with (line :: (pre ++ rest)).
    cbn [DiffUtils.parse_loop].
    destruct (startsWith (lit "@@") line) eqn:E.
    { now rewrite (Hpre line (or_introl eq_refl) E). }
    change (-1 =? -1) with true. cbn [negb].
    destruct (startsWith (lit "+") line && negb (startsWith (lit "+++") line));
      [reflexivity |].
    destruct (negb (startsWith (lit "-") line) || startsWith (lit "---") line);
      reflexivity.
Qed.

(** C4 says that no mapping pair is emitted for a line of a hunk whose
    header does not match the pattern.  It fails on
    [broken_header_diff]: the line [+c] belongs to such a hunk, and it
    is mapped all the same, to line 3, the line after the last line of
    the hunk before. *)
Lemma unparsed_hunk_is_mapped :
  ~ (forall (diffText : jsstring) (p n : Z),
        In (p, n) (DiffUtils.parseDiffNewlineMap diffText) ->
        ~ In p (DiffSpec.lines_of_unparsed_hunks (split_lines diffText) 0 false)).
Proof.
  intros H.
  apply (H broken_header_diff 5 3); vm_compute; tauto.
Qed.

(** C4, amended.  For every diff text, [parseDiffNewlineMap] emits no
    mapping pair for a line that comes before the first [@@] header
    matching the pattern, so for no line of hunks whose header does not
    match when no valid header precedes them; and a [@@] header that
    does not match changes nothing: the lines after it are read with the
    counter that the lines before it left. *)
Theorem no_mapping_before_first_valid_header
        (diffText : jsstring) (pre rest : list jsstring) :
  split_lines diffText = pre ++ rest ->
  (forall line, In line pre ->
                startsWith (lit "@@") line = true ->
                DiffUtils.new_start_exec line = None) ->
  (forall p n, In (p, n) (DiffUtils.parseDiffNewlineMap diffText) ->
               Z.of_nat (List.length pre) < p)
  /\ (forall header following i mapping currentNewLine,
         startsWith (lit "@@") header = true ->
         DiffUtils.new_start_exec header = None ->
         DiffUtils.parse_loop (header :: following) i mapping currentNewLine
         = DiffUtils.parse_loop following (i + 1) mapping currentNewLine).
Proof.
  intros Hsplit Hpre. split.
  - intros p n. unfold DiffUtils.parseDiffNewlineMap.
    rewrite Hsplit, (parse_loop_skips pre rest 0 Hpre).
    intros H. apply parse_loop_positions in H. lia.
  - intros header following i mapping cur Hat Hno.
    cbn [DiffUtils.parse_loop]. now rewrite Hat, Hno.
Qed.

(** The amended C4 on [headless_diff]: the only pair is for [+y], the
    fourth line. *)
Lemma no_mapping_before_first_valid_header_witness :
  DiffUtils.parseDiffNewlineMap headless_diff = [(4, 7)]
  /\ forall p n, In (p, n) (DiffUtils.parseDiffNewlineMap headless_diff) -> 2 < p.
Proof.
  split; [reflexivity |].
  apply (proj1 (no_mapping_before_first_valid_header
                  headless_diff
                  [lit "@@ malformed @@"; lit "+x"]
                  [lit "@@ -1,1 +7,2 @@"; lit "+y"]
                  eq_refl
                  ltac:(intros line [<- | [<- | []]]; [reflexivity | discriminate]))).
Defined.

(** C3 says that for every diff text whose hunk headers all parse, the
    Added-Line Set is the set of new-file line numbers of the lines
    beginning with [+] across all hunks.  It fails on [decrement_diff],
    whose only header parses.  The added line is line 3 of the new
    file: the counters of the specification say so, and so does
    [addLineNumbersToDiff] on the same text, which prints it as
    [( , 3) +count -= 1;].  [parseDiffNewlineMap] takes the removed line
    [---count;] for a line that advances the new-file counter, and the
    Added-Line Set that [reviewSingleFile] builds holds 4 instead.  The
    same test on prefixes loses the added line [+++i;] of
    [increment_diff]. *)
Theorem added_line_set_of_decrement_diff :
  DiffSpec.headers_parse decrement_diff = true
  /\ DiffUtils.parseDiffNewlineMap decrement_diff = [(3, 4)]
  /\ ReviewEngine.addedLines decrement_diff = [4]
  /\ DiffSpec.added_line_set decrement_diff = [3]
  /\ DiffUtils.extendedDiff (DiffUtils.addLineNumbersToDiff decrement_diff)
     = text [ lit "@@ -3,2 +3,2 @@";
              lit "(3, )  ---count;";
              lit "( , 3) +count -= 1;";
              lit "(4, 4)  done();" ]
  /\ DiffSpec.headers_parse increment_diff = true
  /\ ReviewEngine.addedLines increment_diff = []
  /\ DiffSpec.added_line_set increment_diff = [2].
Proof. repeat split; vm_compute; reflexivity. Qed.

(** *** Where the mapper and the specification agree *)

Lemma span_digits_digits (s : jsstring) :
  Forall (fun c => is_digit c = true) (fst (DiffUtils.span_digits s)).
Proof.
  induction s as [| c r IH]; simpl; [constructor |].
  destruct (is_digit c) eqn:E; [| constructor].
  destruct (DiffUtils.span_digits r) as [d r']. simpl in *.
  now constructor.
Qed.

Lemma digits1_digits (s d r : jsstring) :
  DiffUtils.digits1 s = Some (d, r) -> Forall (fun c => is_digit c = true) d.
Proof.
  unfold DiffUtils.digits1.
  pose proof (span_digits_digits s) as H.
  destruct (DiffUtils.span_digits s) as [[| c d'] r']; [discriminate |].
  intros E. injection E as <- _. exact H.
Qed.

Lemma new_start_at_digits (s g : jsstring) :
  DiffUtils.new_start_at s = Some g -> Forall (fun c => is_digit c = true) g.
Proof.
  unfold DiffUtils.new_start_at, DiffUtils.opt_bind.
  destruct (DiffUtils.strip (lit "@@ -") s) as [s1 |]; [| discriminate].
  destruct (DiffUtils.digits1 s1) as [[d1 s2] |]; [| discriminate].
  destruct (DiffUtils.strip (lit " +") _) as [s3 |]; [| discriminate].
  destruct (DiffUtils.digits1 s3) as [[g2 s4] |] eqn:E; [| discriminate].
  destruct (DiffUtils.strip (lit " @@") _); [| discriminate].
  intros H. injection H as <-. eapply digits1_digits, E.
Qed.

Lemma new_start_exec_digits (line g : jsstring) :
  DiffUtils.new_start_exec line = Some g -> Forall (fun c => is_digit c = true) g.
Proof.
  induction line as [| c r IH]; cbn [DiffUtils.new_start_exec].
  - destruct (DiffUtils.new_start_at []) eqn:E; [| discriminate].
    intros H. injection H as <-. eapply new_start_at_digits, E.
  - destruct (DiffUtils.new_start_at (c :: r)) eqn:E; [| exact IH].
    intros H. injection H as <-. eapply new_start_at_digits, E.
Qed.

Lemma parseInt_nonneg (ds : jsstring) :
  Forall (fun c => is_digit c = true) ds -> 0 <= parseInt ds.
Proof.
  unfold parseInt.
  assert (G : forall acc, 0 <= acc ->
                Forall (fun c => is_digit c = true) ds ->
                0 <= fold_left (fun acc c => 10 * acc + (Z.of_N c - 48)) ds acc).
  { induction ds as [| c r IH]; intros acc Hacc Hd; cbn [fold_left];
      [assumption |].
    inversion Hd as [| ? ? Hc Hr]; subst.
    apply IH; [| assumption].
    unfold is_digit in Hc. apply andb_true_iff in Hc. destruct Hc as [Hc _].
    apply N.leb_le in Hc. lia. }
  apply G. lia.
Qed.

Lemma plus_is_not_minus (line : jsstring) :
  startsWith (lit "+") line = true -> startsWith (lit "-") line = false.
Proof.
  destruct line as [| c r]; [discriminate |].
  change (startsWith (lit "+") (c :: r)) with (N.eqb 43 c && true).
  change (startsWith (lit "-") (c :: r)) with (N.eqb 45 c && true).
  rewrite !andb_true_r. intros H. apply N.eqb_eq in H. now subst c.
Qed.

Lemma parse_loop_agrees (diffLines : list jsstring) :
  forall i cur c inHunk,
    same_counter cur c inHunk ->
    forallb (fun line =>
               negb (startsWith (lit "@@") line)
               || isSome (DiffUtils.new_start_exec line))
            diffLines = true ->
    DiffSpec.plain_hunks diffLines inHunk = true ->
    map snd (DiffUtils.parse_loop diffLines i [] cur)
    = DiffSpec.new_line_numbers diffLines c.
Proof.
  induction diffLines as [| line rest IH]; intros i cur c inHunk Hc Hh Hp;
    cbn [DiffUtils.parse_loop DiffSpec.new_line_numbers
         DiffSpec.plain_hunks forallb] in *; [reflexivity |].
  apply andb_true_iff in Hh. destruct Hh as [Hline Hh].
  destruct (startsWith (lit "@@") line) eqn:Eat.
  - destruct (DiffUtils.new_start_exec line) as [g |] eqn:Eg; [| discriminate].
    apply (IH _ _ _ true); try assumption.
    right. repeat split.
    apply parseInt_nonneg. eapply new_start_exec_digits, Eg.
  - apply andb_true_iff in Hp. destruct Hp as [Hplain Hp].
    destruct Hc as [[-> [-> ->]] | [Hcur [-> ->]]].
    + change (-1 =? -1) with true. cbn [negb].
      assert (Hc : same_counter (-1) DiffSpec.NoHunk false) by (left; auto).
      destruct (startsWith (lit "+") line && negb (startsWith (lit "+++") line));
        [now apply (IH _ _ _ false) |].
      destruct (negb (startsWith (lit "-") line) || startsWith (lit "---") line);
        now apply (IH _ _ _ false).
    + cbn [negb orb] in Hplain. apply negb_true_iff, orb_false_iff in Hplain.
      destruct Hplain as [Hminus Hplus]. rewrite Hminus, Hplus.
      cbn [negb]. rewrite andb_true_r, orb_false_r.
      assert (Hne : negb (cur =? -1) = true)
        by (apply negb_true_iff, Z.eqb_neq; lia).
      rewrite Hne.
      assert (Hnext : same_counter (cur + 1) (DiffSpec.NewLine (cur + 1)) true)
        by (right; repeat split; lia).
      assert (Hsame : same_counter cur (DiffSpec.NewLine cur) true)
        by (right; repeat split; lia).
      destruct (startsWith (lit "+") line) eqn:Eplus.
      * rewrite (plus_is_not_minus line Eplus).
        rewrite parse_loop_app, map_app. cbn [map snd app].
        f_equal. now apply (IH _ _ _ true).
      * destruct (startsWith (lit "-") line); cbn [negb];
          now apply (IH _ _ _ true).
Qed.

(** On a diff whose headers all parse and whose hunks hold no line that
    begins with [---] or [+++], the Added-Line Set of the review engine
    is the one of the specification. *)
Lemma added_lines_agree_on_plain_hunks (diffText : jsstring) :
  DiffSpec.headers_parse diffText = true ->
  DiffSpec.plain_hunks (split_lines diffText) false = true ->
  ReviewEngine.addedLines diffText = DiffSpec.added_line_set diffText.
Proof.
  intros Hh Hp.
  unfold ReviewEngine.addedLines, DiffSpec.added_line_set,
    DiffUtils.parseDiffNewlineMap.
  f_equal. apply (parse_loop_agrees _ 0 (-1) DiffSpec.NoHunk false);
    [left; auto | exact Hh | exact Hp].
Qed.

(* ================================================================== *)
(** ** The scenarios of the specification *)
(* ================================================================== *)

(** A hunk [@@ -10,3 +10,5 @@] with two inserted lines, at lines 11 and
    12 of the new file. *)
Example scenario_two_inserted_lines :
  ReviewEngine.addedLines
    (text [ lit "@@ -10,3 +10,5 @@";
            lit " before";
            lit "+first";
            lit "+second";
            lit " after";
            lit " last" ])
  = [11; 12].
Proof. reflexivity. Qed.

(** With those lines inside a function of lines 8 to 20 and a class of
    lines 1 to 30, the selector returns the function alone. *)
Example scenario_function_not_class :
  map AstContext.name
      (select_candidates
         [ {| AstContext.type := lit "ClassDeclaration";
              AstContext.name := lit "Outer";
              AstContext.start_line := 1; AstContext.end_line := 30;
              AstContext.start_offset := 0; AstContext.end_offset := 600;
              AstContext.added_lines := [11; 12]; AstContext.size := 30 |};
           {| AstContext.type := lit "ClassMethod";
              AstContext.name := lit "inner";
              AstContext.start_line := 8; AstContext.end_line := 20;
              AstContext.start_offset := 150; AstContext.end_offset := 400;
              AstContext.added_lines := [11; 12]; AstContext.size := 13 |} ]
         [11; 12])
  = [lit "inner"].
Proof. reflexivity. Qed.

(** A script block that starts on line 5: added line 20 of the file is
    line 16 of the block. *)
Example scenario_block_at_line_5 :
  AstContextVue.adjustAddedLines [20] 5 = [16].
Proof. reflexivity. Qed.

(** The walk stops at the depth limit and keeps what it has collected:
    with a limit of 4 the class of [shape_js] is found, its method,
    deeper, is not. *)
Example scenario_depth_limit :
  match AstContext.collectImpactedSections
          world_js [2; 4]
          {| maxSnippetLength := 10000; maxBlockSizeLines := 150;
             maxDepth := 4; timeoutMs := 8000 |}
          shape_ast with
  | Ok found => map AstContext.name found = [lit "A"]
  | Throw _ => False
  end.
Proof. vm_compute. reflexivity. Qed.

(* ================================================================== *)
(** ** Further properties of the line mapper *)
(* ================================================================== *)

(** The seven ways through one turn of the loop of
    [parseDiffNewlineMap]. *)
Ltac parse_cases line cur :=
  cbn [DiffUtils.parse_loop counter_after];
  destruct (startsWith (lit "@@") line) eqn:Eat;
  [ destruct (DiffUtils.new_start_exec line) eqn:Eexec
  | destruct (startsWith (lit "+") line && negb (startsWith (lit "+++") line))
      eqn:Eadd;
    [ destruct (negb (cur =? -1)) eqn:Ecur
    | destruct (negb (startsWith (lit "-") line) || startsWith (lit "---") line)
        eqn:Ectx;
      [ destruct (negb (cur =? -1)) eqn:Ecur | ] ] ].

Lemma filter_none {A : Type} (f : A -> bool) (l : list A) :
  Forall (fun x => f x = false) l -> filter f l = [].
Proof.
  induction 1 as [| x l Hx _ IH]; simpl; [reflexivity |]. now rewrite Hx.
Qed.

Lemma filter_all {A : Type} (f : A -> bool) (l : list A) :
  Forall (fun x => f x = true) l -> filter f l = l.
Proof.
  induction 1 as [| x l Hx _ IH]; simpl; [reflexivity |].
  rewrite Hx. now f_equal.
Qed.

(** Reading [A] then [B] is reading [A], then [B] with the counter that
    [A] left. *)
Lemma parse_loop_split (A : list jsstring) :
  forall B i cur,
    DiffUtils.parse_loop (A ++ B) i [] cur
    = DiffUtils.parse_loop A i [] cur
        ++ DiffUtils.parse_loop B (i + Z.of_nat (List.length A)) []
             (counter_after A cur).
Proof.
  induction A as [| line A IH]; intros B i cur.
  - cbn [app DiffUtils.parse_loop counter_after List.length].
    now rewrite Z.add_0_r.
  - replace (i + Z.of_nat (List.length (line :: A)))
      with ((i + 1) + Z.of_nat (List.length A))
      by (cbn [List.length]; lia).
    change ((line :: A) ++ B) with (line :: (A ++ B)).
    parse_cases line cur; try apply IH.
    rewrite parse_loop_app, (parse_loop_app A), IH.
    now rewrite <- app_assoc.
Qed.

Lemma parse_loop_shift (diffLines : list jsstring) :
  forall i k cur,
    DiffUtils.parse_loop diffLines (i + k) [] cur
    = shift_positions k (DiffUtils.parse_loop diffLines i [] cur).
Proof.
  induction diffLines as [| line rest IH]; intros i k cur.
  - reflexivity.
  - replace (i + k + 1) with ((i + 1) + k) in * by lia.
    parse_cases line cur;
      try (replace (i + k + 1) with ((i + 1) + k) by lia; apply IH).
    replace (i + k + 1) with ((i + 1) + k) by lia.
    rewrite parse_loop_app, (parse_loop_app rest (i + 1)), IH.
    unfold shift_positions. rewrite map_app. reflexivity.
Qed.

Lemma counter_after_valid (diffLines : list jsstring) :
  forall cur,
    cur = -1 \/ 0 <= cur ->
    counter_after diffLines cur = -1 \/ 0 <= counter_after diffLines cur.
Proof.
  induction diffLines as [| line rest IH]; intros cur Hcur.
  - exact Hcur.
  - parse_cases line cur; apply IH; try assumption.
    + right. apply parseInt_nonneg. eapply new_start_exec_digits, Eexec.
    + right. apply negb_true_iff, Z.eqb_neq in Ecur. lia.
    + right. apply negb_true_iff, Z.eqb_neq in Ecur. lia.
Qed.

Lemma points_at_later (line0 : jsstring) (rest : list jsstring) (i : Z)
      (pn : Z * Z) :
  points_at_added_line rest (i + 1) pn ->
  points_at_added_line (line0 :: rest) i pn.
Proof.
  intros [line [Hnth [Hpos Hrest]]]. exists line. split; [| split].
  - replace (Z.to_nat (fst pn - 1 - i))
      with (S (Z.to_nat (fst pn - 1 - (i + 1)))) by lia.
    exact Hnth.
  - cbn [List.length]. lia.
  - exact Hrest.
Qed.

Lemma parse_loop_points (diffLines : list jsstring) :
  forall i cur,
    cur = -1 \/ 0 <= cur ->
    Forall (points_at_added_line diffLines i)
           (DiffUtils.parse_loop diffLines i [] cur).
Proof.
  induction diffLines as [| line rest IH]; intros i cur Hcur.
  - constructor.
  - assert (Hlater : forall c, c = -1 \/ 0 <= c ->
              Forall (points_at_added_line (line :: rest) i)
                     (DiffUtils.parse_loop rest (i + 1) [] c)).
    { intros c Hc. eapply Forall_impl; [| apply (IH (i + 1) c Hc)].
      intros pn. apply points_at_later. }
    parse_cases line cur; try (apply Hlater; assumption).
    + apply Hlater. right. apply parseInt_nonneg.
      eapply new_start_exec_digits, Eexec.
    + apply negb_true_iff, Z.eqb_neq in Ecur.
      rewrite parse_loop_app. cbn [app]. constructor.
      * exists line. apply andb_true_iff in Eadd. destruct Eadd as [E1 E2].
        apply negb_true_iff in E2.
        cbn [fst snd List.length].
        replace (i + 1 - 1 - i) with 0 by lia.
        repeat split; try assumption; try lia. 
      * apply Hlater. right. lia.
    + apply Hlater. right. apply negb_true_iff, Z.eqb_neq in Ecur. lia.
Qed.

Lemma parse_loop_positions_increase (diffLines : list jsstring) :
  forall i cur,
    increasing (map fst (DiffUtils.parse_loop diffLines i [] cur)).
Proof.
  induction diffLines as [| line rest IH]; intros i cur.
  - constructor.
  - parse_cases line cur; try apply IH.
    rewrite parse_loop_app. cbn [app map fst]. constructor; [apply IH |].
    apply Forall_forall. intros p Hp. apply in_map_iff in Hp.
    destruct Hp as [[p' n] [<- Hin]]. apply parse_loop_positions in Hin.
    exact Hin.
Qed.

(** X1. Every pair [[p, n]] that [parseDiffNewlineMap] returns points at
    a line of the diff that begins with [+] and not with [+++]: [p] is
    the position of that line, counted from 1; [n] is not negative; and
    the pairs come in the order of the diff, each line at most once. *)
Theorem mapping_points_at_added_lines (diffText : jsstring) :
  Forall (fun pn =>
            exists line,
              nth_error (split_lines diffText) (Z.to_nat (fst pn - 1)) = Some line
              /\ 1 <= fst pn <= Z.of_nat (List.length (split_lines diffText))
              /\ startsWith (lit "+") line = true
              /\ startsWith (lit "+++") line = false
              /\ 0 <= snd pn)
         (DiffUtils.parseDiffNewlineMap diffText)
  /\ increasing (map fst (DiffUtils.parseDiffNewlineMap diffText)).
Proof.
  unfold DiffUtils.parseDiffNewlineMap. split.
  - eapply Forall_impl;
      [| apply (parse_loop_points (split_lines diffText) 0 (-1)); now left].
    intros pn [line [Hnth [Hpos Hrest]]]. exists line.
    rewrite Z.sub_0_r in Hnth. repeat split; try apply Hrest; try assumption; lia.
  - apply parse_loop_positions_increase.
Qed.

(** In lines without a hunk header the counter only grows, one line
    number per mapped line. *)
Lemma parse_loop_hunk_increases (diffLines : list jsstring) :
  forall i cur,
    Forall (fun line => startsWith (lit "@@") line = false) diffLines ->
    increasing (map snd (DiffUtils.parse_loop diffLines i [] cur))
    /\ Forall (fun n => cur <= n)
              (map snd (DiffUtils.parse_loop diffLines i [] cur)).
Proof.
  induction diffLines as [| line rest IH]; intros i cur Hno.
  - split; constructor.
  - inversion Hno as [| ? ? Hline Hrest]; subst.
    assert (Hnext : increasing
                      (map snd (DiffUtils.parse_loop rest (i + 1) [] (cur + 1)))
                    /\ Forall (fun n => cur <= n)
                         (map snd (DiffUtils.parse_loop rest (i + 1) [] (cur + 1)))).
    { destruct (IH (i + 1) (cur + 1) Hrest) as [H1 H2]. split; [exact H1 |].
      eapply Forall_impl; [| exact H2]. intros n Hn; cbv beta in *; lia. }
    parse_cases line cur; try discriminate; try (now apply IH); try exact Hnext.
    rewrite parse_loop_app. cbn [app map snd].
    destruct (IH (i + 1) (cur + 1) Hrest) as [H1 H2].
    split; constructor; try assumption; try lia.
    + eapply Forall_impl; [| exact H2]. intros n Hn; cbv beta in *; lia.
    + eapply Forall_impl; [| exact H2]. intros n Hn; cbv beta in *; lia.
Qed.

Lemma parse_loop_positions_bound (diffLines : list jsstring) (i cur : Z) :
  Forall (fun pn => i < fst pn <= i + Z.of_nat (List.length diffLines))
         (DiffUtils.parse_loop diffLines i [] cur).
Proof.
  assert (G : forall L i cur,
             Forall (fun pn => i < fst pn <= i + Z.of_nat (List.length L))
                    (DiffUtils.parse_loop L i [] cur)).
  { clear. induction L as [| line rest IH]; intros i cur; [constructor |].
    assert (Hlater : forall c,
               Forall (fun pn => i < fst pn
                                 <= i + Z.of_nat (List.length (line :: rest)))
                      (DiffUtils.parse_loop rest (i + 1) [] c)).
    { intros c. eapply Forall_impl; [| apply (IH (i + 1) c)].
      intros pn. cbn [List.length]. lia. }
    parse_cases line cur; try apply Hlater.
    rewrite parse_loop_app. cbn [app]. constructor; [| apply Hlater].
    cbn [fst List.length]. lia. }
  apply G.
Qed.

Lemma new_starts_cons (line : jsstring) (rest : list jsstring) :
  new_starts (line :: rest)
  = (if startsWith (lit "@@") line then
       match DiffUtils.new_start_exec line with
       | Some g2 => [parseInt g2]
       | None => []
       end
     else []) ++ new_starts rest.
Proof. reflexivity. Qed.

Lemma counts_exactly_spec (start : Z) (steps : nat) :
  counts_exactly start steps = true
  <-> - exact_limit <= start /\ start + Z.of_nat steps <= exact_limit.
Proof.
  unfold counts_exactly. rewrite andb_true_iff, !Z.leb_le. tauto.
Qed.

(** A counter that stays in the range hands out numbers of the range. *)
Lemma parse_loop_in_range (n : nat) (diffLines : list jsstring) :
  forall i cur,
    (List.length diffLines <= n)%nat ->
    cur = -1
    \/ (- exact_limit <= cur
        /\ cur + Z.of_nat (List.length diffLines) <= exact_limit) ->
    forallb (fun start => counts_exactly start n) (new_starts diffLines)
    = true ->
    Forall (fun pn => in_counting_range (snd pn))
           (DiffUtils.parse_loop diffLines i [] cur).
Proof.
  induction diffLines as [| line rest IH]; intros i cur Hn Hcur Hs.
  - constructor.
  - rewrite new_starts_cons, forallb_app in Hs.
    apply andb_true_iff in Hs. destruct Hs as [Hhead Hrest].
    cbn [List.length] in Hn, Hcur.
    assert (Hn' : (List.length rest <= n)%nat) by lia.
    assert (Hsame : cur = -1
                    \/ (- exact_limit <= cur
                        /\ cur + Z.of_nat (List.length rest) <= exact_limit))
      by lia.
    parse_cases line cur; try (now apply IH).
    + apply IH; [exact Hn' | | exact Hrest].
      right. cbn [forallb] in Hhead. rewrite andb_true_r in Hhead.
      apply counts_exactly_spec in Hhead. lia.
    + apply negb_true_iff, Z.eqb_neq in Ecur.
      rewrite parse_loop_app. cbn [app]. constructor.
      * cbn [snd]. unfold in_counting_range. lia.
      * apply IH; [exact Hn' | right; lia | exact Hrest].
    + apply negb_true_iff, Z.eqb_neq in Ecur.
      apply IH; [exact Hn' | right; lia | exact Hrest].
Qed.

Lemma parseDiffNewlineMap_in_range (diffText : jsstring) :
  new_lines_counted_exactly diffText = true ->
  Forall (fun pn => in_counting_range (snd pn))
         (DiffUtils.parseDiffNewlineMap diffText).
Proof.
  intros H. unfold DiffUtils.parseDiffNewlineMap.
  apply parse_loop_in_range with (n := List.length (split_lines diffText));
    [lia | now left | exact H].
Qed.

(** X2. Inside a hunk the new-file line numbers grow strictly, as long
    as the counter stays in the range in which the engine counts as the
    integers do (every start that a header names, advanced once per
    line of the diff, is at most 2^53; from 2^53 on the counter of the
    engine stops and this fails).  For any stretch of such a diff that
    holds no [@@] line, the pairs that [parseDiffNewlineMap] returns
    for the lines of that stretch have strictly ascending line numbers,
    so no two added lines of a hunk get the same number; and each of
    these numbers is below 2^53. *)
Theorem new_lines_increase_within_hunk
        (diffText : jsstring) (before hunk after : list jsstring) :
  new_lines_counted_exactly diffText = true ->
  split_lines diffText = before ++ hunk ++ after ->
  Forall (fun line => startsWith (lit "@@") line = false) hunk ->
  increasing
    (map snd
         (pairs_between
            (Z.of_nat (List.length before))
            (Z.of_nat (List.length before) + Z.of_nat (List.length hunk))
            (DiffUtils.parseDiffNewlineMap diffText)))
  /\ Forall in_counting_range
            (map snd
                 (pairs_between
                    (Z.of_nat (List.length before))
                    (Z.of_nat (List.length before)
                     + Z.of_nat (List.length hunk))
                    (DiffUtils.parseDiffNewlineMap diffText))).
Proof.
  intros Hex Hsplit Hno. split.
  2: { apply Forall_map. unfold pairs_between.
       eapply incl_Forall; [apply incl_filter |].
       now apply parseDiffNewlineMap_in_range. }
  unfold DiffUtils.parseDiffNewlineMap, pairs_between.
  rewrite Hsplit, parse_loop_split, parse_loop_split.
  rewrite !filter_app.
  rewrite (filter_none _ (DiffUtils.parse_loop before 0 [] (-1))).
  2: { eapply Forall_impl; [| apply parse_loop_positions_bound].
       intros pn Hp. cbv beta in Hp. apply andb_false_iff. left. apply Z.ltb_ge. lia. }
  rewrite (filter_none _ (DiffUtils.parse_loop after _ [] _)).
  2: { eapply Forall_impl; [| apply parse_loop_positions_bound].
       intros pn Hp. cbv beta in Hp. apply andb_false_iff. right. apply Z.leb_gt. lia. }
  rewrite filter_all.
  2: { eapply Forall_impl; [| apply parse_loop_positions_bound].
       intros pn Hp. cbv beta in Hp. apply andb_true_iff. split;
         [apply Z.ltb_lt | apply Z.leb_le]; lia. }
  rewrite app_nil_r. cbn [app].
  now apply parse_loop_hunk_increases.
Qed.

(** X2 on [two_hunks_diff]: the second hunk is lines 6 to 9, and its
    added lines are lines 21 and 22 of the new file. *)
Lemma new_lines_increase_within_hunk_witness :
  map snd (pairs_between 5 9 (DiffUtils.parseDiffNewlineMap two_hunks_diff))
  = [21; 22]
  /\ increasing
       (map snd (pairs_between 5 (5 + 4)
                               (DiffUtils.parseDiffNewlineMap two_hunks_diff)))
  /\ Forall in_counting_range
            (map snd (pairs_between
                        5 (5 + 4)
                        (DiffUtils.parseDiffNewlineMap two_hunks_diff))).
Proof.
  split; [reflexivity |].
  apply (new_lines_increase_within_hunk
           two_hunks_diff
           [lit "@@ -1,2 +1,3 @@"; lit " a"; lit "+b"; lit " c";
            lit "@@ -20,2 +21,3 @@"]
           [lit "-d"; lit "+e"; lit "+f"; lit " g"]
           []).
  - reflexivity.
  - reflexivity.
  - repeat constructor.
Defined.

Lemma header_is_not_added (line : jsstring) :
  startsWith (lit "@@") line = true ->
  startsWith (lit "+") line && negb (startsWith (lit "+++") line) = false.
Proof.
  destruct line as [| c r]; [discriminate |].
  change (startsWith (lit "@@") (c :: r))
    with (N.eqb 64 c && startsWith (lit "@") r).
  change (startsWith (lit "+") (c :: r)) with (N.eqb 43 c && true).
  intros H. apply andb_true_iff in H. destruct H as [H _].
  apply N.eqb_eq in H. now subst c.
Qed.

Lemma parse_loop_length_le (diffLines : list jsstring) :
  forall i cur,
    (List.length (DiffUtils.parse_loop diffLines i [] cur)
     <= List.length
          (filter (fun l => startsWith (lit "+") l
                            && negb (startsWith (lit "+++") l)) diffLines))%nat.
Proof.
  induction diffLines as [| line rest IH]; intros i cur; [apply Nat.le_refl |].
  cbn [filter].
  parse_cases line cur; try rewrite (header_is_not_added line Eat);
    try rewrite Eadd; try rewrite parse_loop_app, length_app;
    cbn [List.length];
    match goal with
    | |- context [DiffUtils.parse_loop rest ?a [] ?c] =>
        pose proof (IH a c)
    end; cbn [app List.length]; lia.
Qed.

Lemma parse_loop_length_eq (diffLines : list jsstring) :
  forall i cur,
    0 <= cur ->
    List.length (DiffUtils.parse_loop diffLines i [] cur)
    = List.length
        (filter (fun l => startsWith (lit "+") l
                          && negb (startsWith (lit "+++") l)) diffLines).
Proof.
  induction diffLines as [| line rest IH]; intros i cur Hcur; [reflexivity |].
  cbn [filter].
  assert (Hne : negb (cur =? -1) = true)
    by (apply negb_true_iff, Z.eqb_neq; lia).
  parse_cases line cur; try rewrite (header_is_not_added line Eat);
    try rewrite Eadd; try congruence;
    try rewrite parse_loop_app, length_app; cbn [app List.length];
    try (rewrite IH by lia; lia).
  rewrite IH; [reflexivity |].
  apply parseInt_nonneg. eapply new_start_exec_digits, Eexec.
Qed.

(** X3. The mapping never has more pairs than the [added_lines] count
    of [reviewSingleFile] (the lines beginning with [+] and not with
    [+++]); and when the diff has a [@@] header that matches the pattern
    with no such line before it, the two numbers are equal: every
    counted line is mapped. *)
Theorem mapping_size_and_added_count (diffText : jsstring) :
  Z.of_nat (List.length (DiffUtils.parseDiffNewlineMap diffText))
  <= ReviewSingleFile.added diffText
  /\ forall pre header rest,
      split_lines diffText = pre ++ header :: rest ->
      startsWith (lit "@@") header = true ->
      DiffUtils.new_start_exec header <> None ->
      Forall (fun l => startsWith (lit "+") l
                       && negb (startsWith (lit "+++") l) = false) pre ->
      Z.of_nat (List.length (DiffUtils.parseDiffNewlineMap diffText))
      = ReviewSingleFile.added diffText.
Proof.
  unfold DiffUtils.parseDiffNewlineMap, ReviewSingleFile.added. split.
  - apply Nat2Z.inj_le, parse_loop_length_le.
  - intros pre header rest Hsplit Hat Hexec Hpre. f_equal.
    rewrite Hsplit, parse_loop_split, length_app, filter_app, length_app.
    f_equal.
    + pose proof (parse_loop_length_le pre 0 (-1)) as Hle.
      rewrite (filter_none _ pre Hpre) in Hle |- *.
      cbn [List.length] in *. lia.
    + cbn [DiffUtils.parse_loop filter]. rewrite Hat.
      rewrite (header_is_not_added header Hat).
      destruct (counter_after_valid pre (-1) (or_introl eq_refl)) as [Hc | Hc].
      * cbn [counter_after].
        destruct (DiffUtils.new_start_exec header) as [g |] eqn:Eg;
          [| contradiction].
        apply parse_loop_length_eq, parseInt_nonneg.
        eapply new_start_exec_digits, Eg.
      * destruct (DiffUtils.new_start_exec header) as [g |] eqn:Eg;
          [| contradiction].
        apply parse_loop_length_eq, parseInt_nonneg.
        eapply new_start_exec_digits, Eg.
Qed.

(** X3 on [two_hunks_diff]: three added lines, three pairs. *)
Lemma mapping_size_and_added_count_witness :
  ReviewSingleFile.added two_hunks_diff = 3
  /\ Z.of_nat (List.length (DiffUtils.parseDiffNewlineMap two_hunks_diff))
     = ReviewSingleFile.added two_hunks_diff.
Proof.
  split; [reflexivity |].
  apply (proj2 (mapping_size_and_added_count two_hunks_diff)
               [] (lit "@@ -1,2 +1,3 @@")
               [lit " a"; lit "+b"; lit " c"; lit "@@ -20,2 +21,3 @@";
                lit "-d"; lit "+e"; lit "+f"; lit " g"]).
  - reflexivity.
  - reflexivity.
  - discriminate.
  - constructor.
Defined.

(* ================================================================== *)
(** ** The file header that main.js puts before a diff *)
(* ================================================================== *)

Lemma split_lines_aux_line (l : jsstring) :
  forall cur r,
    one_line l ->
    split_lines_aux cur (l ++ 10%N :: r) = (rev cur ++ l) :: split_lines_aux [] r.
Proof.
  unfold one_line.
  induction l as [| c l IH]; intros cur r Hl; cbn [app split_lines_aux].
  - change (N.eqb 10 10) with true. cbn iota. now rewrite app_nil_r.
  - destruct (N.eqb_spec c 10) as [-> | Hc]; [exfalso; apply Hl; now left |].
    rewrite IH by (intros H; apply Hl; now right).
    cbn [rev]. now rewrite <- app_assoc.
Qed.

Lemma split_lines_line (l r : jsstring) :
  one_line l -> split_lines (l ++ 10%N :: r) = l :: split_lines r.
Proof.
  intros Hl. unfold split_lines. now rewrite split_lines_aux_line.
Qed.

Lemma one_line_app (a b : jsstring) : one_line a -> one_line b -> one_line (a ++ b).
Proof.
  unfold one_line. intros Ha Hb H. apply in_app_or in H. tauto.
Qed.

(** The lines of a diff with its file header: three header lines, then
    the lines of the diff. *)
Lemma split_lines_file_header (old_path new_path text : jsstring) :
  one_line old_path -> one_line new_path ->
  split_lines (Main.file_header old_path new_path ++ text)
  = [ lit "diff --git a/" ++ old_path ++ lit " b/" ++ new_path;
      lit "--- a/" ++ old_path;
      lit "+++ b/" ++ new_path ]
      ++ split_lines text.
Proof.
  intros Ho Hn.
  assert (Hlit : forall s, forallb (fun c => negb (N.eqb c 10)) s = true ->
                           one_line s).
  { intros s Hs H. rewrite forallb_forall in Hs. specialize (Hs _ H).
    discriminate Hs. }
  replace (Main.file_header old_path new_path ++ text)
    with ((lit "diff --git a/" ++ old_path ++ lit " b/" ++ new_path)
            ++ 10%N :: ((lit "--- a/" ++ old_path)
                          ++ 10%N :: ((lit "+++ b/" ++ new_path)
                                        ++ 10%N :: text)))
    by (unfold Main.file_header; repeat rewrite <- app_assoc; reflexivity).
  rewrite !split_lines_line; [reflexivity | | |];
    repeat apply one_line_app; try assumption; apply Hlit; reflexivity.
Qed.

Lemma shift_positions_snd (k : Z) (mapping : list (Z * Z)) :
  map snd (shift_positions k mapping) = map snd mapping.
Proof.
  unfold shift_positions. rewrite map_map. reflexivity.
Qed.

Lemma file_header_same_review_input (old_path new_path text : jsstring) :
  one_line old_path -> one_line new_path ->
  same_review_input (Main.file_header old_path new_path ++ text) text.
Proof.
  intros Ho Hn.
  pose proof (split_lines_file_header old_path new_path text Ho Hn) as Hsplit.
  assert (Hmap : DiffUtils.parseDiffNewlineMap
                   (Main.file_header old_path new_path ++ text)
                 = shift_positions 3 (DiffUtils.parseDiffNewlineMap text)).
  { unfold DiffUtils.parseDiffNewlineMap. rewrite Hsplit.
    rewrite parse_loop_skips.
    - cbn [List.length Z.of_nat]. apply (parse_loop_shift _ 0 3).
    - intros line [<- | [<- | [<- | []]]] H; discriminate H. }
  unfold same_review_input. split; [exact Hmap |]. split; [| split; [| split]].
  - unfold ReviewEngine.addedLines. now rewrite Hmap, shift_positions_snd.
  - unfold DiffUtils.addLineNumbersToDiff, DiffUtils.splitHunks.
    rewrite Hsplit. reflexivity.
  - unfold ReviewSingleFile.added. rewrite Hsplit. reflexivity.
  - unfold ReviewSingleFile.deleted. rewrite Hsplit. reflexivity.
Qed.

(** X4. The file header that [prepareFilesForReview] puts before each
    GitLab diff is invisible to the review: when the paths hold no line
    break, every prepared file comes from a diff with a text that is
    not empty and not binary, and for that text the numbered diff of
    [addLineNumbersToDiff], its two line maps, the Added-Line Set and
    the added and deleted counts are those of the bare diff; the pairs
    of [parseDiffNewlineMap] are the same with every diff position
    moved by the three header lines. *)
Theorem file_header_is_invisible (diffs : list GitLab.Diff) :
  Forall (fun d => one_line (GitLab.old_path d) /\ one_line (GitLab.new_path d))
         diffs ->
  Forall (prepared_from diffs) (Main.prepareFilesForReview diffs).
Proof.
  intros Hpaths. unfold Main.prepareFilesForReview, prepared_from.
  apply Forall_forall. intros f Hf. apply in_map_iff in Hf.
  destruct Hf as [d [<- Hd]]. apply filter_In in Hd. destruct Hd as [Hin Hrev].
  rewrite Forall_forall in Hpaths. destruct (Hpaths d Hin) as [Ho Hn].
  unfold Main.reviewable in Hrev.
  destruct (GitLab.diff d) as [text |] eqn:Etext; [| discriminate].
  apply andb_true_iff in Hrev. destruct Hrev as [Htruthy Hbin].
  apply negb_true_iff in Hbin.
  exists d, text. cbn [Main.path Main.diff]. rewrite Etext.
  repeat split; try assumption.
  - intros ->. discriminate Htruthy.
  - unfold AstContext.string_or. rewrite Htruthy.
    apply (file_header_same_review_input _ _ _ Ho Hn).
  - unfold AstContext.string_or. rewrite Htruthy.
    apply (file_header_same_review_input _ _ _ Ho Hn).
  - unfold AstContext.string_or. rewrite Htruthy.
    apply (file_header_same_review_input _ _ _ Ho Hn).
  - unfold AstContext.string_or. rewrite Htruthy.
    apply (file_header_same_review_input _ _ _ Ho Hn).
  - unfold AstContext.string_or. rewrite Htruthy.
    apply (file_header_same_review_input _ _ _ Ho Hn).
Qed.

(** X4 on [moved_file]. *)
Lemma file_header_is_invisible_witness :
  Forall (prepared_from [moved_file]) (Main.prepareFilesForReview [moved_file]).
Proof.
  apply file_header_is_invisible.
  repeat constructor; intros H; cbn in H;
    repeat (destruct H as [H | H]; [discriminate H |]); exact H.
Defined.

(* ================================================================== *)
(** ** The hunks of [splitHunks] *)
(* ================================================================== *)

Lemma header_is_not_file_header (line : jsstring) :
  startsWith (lit "@@") line = true -> DiffUtils.is_file_header line = false.
Proof.
  destruct line as [| c r]; [discriminate |].
  change (startsWith (lit "@@") (c :: r))
    with (N.eqb 64 c && startsWith (lit "@") r).
  intros H. apply andb_true_iff in H. destruct H as [H _].
  apply N.eqb_eq in H. subst c. reflexivity.
Qed.

Lemma opened_by_ok (header : jsstring) :
  startsWith (lit "@@") header = true -> hunk_ok (opened_by header).
Proof.
  intros Hat. exists header, []. unfold opened_by.
  destruct (DiffUtils.starts_match header) as [[g1 g3] |] eqn:E;
    cbn [DiffUtils.hunkLines DiffUtils.oldStart DiffUtils.newStart];
    repeat split; try assumption; try constructor.
Qed.

(** On a [@@] line inside a hunk, the current hunk is closed and the
    line opens the next one. *)
Lemma split_step_header (hunks : list DiffUtils.Hunk) (current : DiffUtils.Hunk)
      (line : jsstring) :
  startsWith (lit "@@") line = true ->
  DiffUtils.hunkLines current <> [] ->
  DiffUtils.split_step (hunks, current, true) line
  = (hunks ++ [current], opened_by line, true).
Proof.
  intros Hat Hne. unfold DiffUtils.split_step, opened_by. cbn [negb andb].
  rewrite Hat.
  destruct (DiffUtils.hunkLines current) as [| h b] eqn:E; [contradiction |].
  cbn [DiffUtils.nonempty].
  destruct (DiffUtils.starts_match line) as [[g1 g3] |]; reflexivity.
Qed.

Lemma split_step_first_header (line : jsstring) :
  startsWith (lit "@@") line = true ->
  DiffUtils.split_step ([], DiffUtils.fresh_hunk, false) line
  = ([], opened_by line, true).
Proof.
  intros Hat. unfold DiffUtils.split_step, opened_by. cbn [negb andb].
  rewrite (header_is_not_file_header line Hat), Hat.
  cbn [DiffUtils.fresh_hunk DiffUtils.hunkLines DiffUtils.nonempty].
  destruct (DiffUtils.starts_match line) as [[g1 g3] |]; reflexivity.
Qed.

Lemma split_step_before (line : jsstring) :
  startsWith (lit "@@") line = false ->
  DiffUtils.split_step ([], DiffUtils.fresh_hunk, false) line
  = ([], DiffUtils.fresh_hunk, false).
Proof.
  intros Hat. unfold DiffUtils.split_step. cbn [negb andb].
  destruct (DiffUtils.is_file_header line); [reflexivity |].
  now rewrite Hat.
Qed.

Lemma split_step_body (hunks : list DiffUtils.Hunk) (current : DiffUtils.Hunk)
      (line : jsstring) :
  startsWith (lit "@@") line = false ->
  DiffUtils.split_step (hunks, current, true) line
  = (hunks,
     {| DiffUtils.oldStart := DiffUtils.oldStart current;
        DiffUtils.newStart := DiffUtils.newStart current;
        DiffUtils.hunkLines := DiffUtils.hunkLines current ++ [line] |},
     true).
Proof.
  intros Hat. unfold DiffUtils.split_step. cbn [negb andb]. now rewrite Hat.
Qed.

Lemma split_fold_in_hunk (lines : list jsstring) :
  forall hunks current,
    Forall hunk_ok hunks -> hunk_ok current ->
    exists hunks' current',
      fold_left DiffUtils.split_step lines (hunks, current, true)
      = (hunks', current', true)
      /\ Forall hunk_ok hunks'
      /\ hunk_ok current'
      /\ List.concat (map DiffUtils.hunkLines hunks') ++ DiffUtils.hunkLines current'
         = List.concat (map DiffUtils.hunkLines hunks)
             ++ DiffUtils.hunkLines current ++ lines.
Proof.
  induction lines as [| line rest IH]; intros hunks current Hhs Hc.
  - exists hunks, current. cbn [fold_left]. rewrite app_nil_r. auto.
  - cbn [fold_left].
    destruct (startsWith (lit "@@") line) eqn:Hat.
    + assert (Hne : DiffUtils.hunkLines current <> []).
      { destruct Hc as [h [b [E _]]]. rewrite E. discriminate. }
      rewrite (split_step_header hunks current line Hat Hne).
      destruct (IH (hunks ++ [current]) (opened_by line)) as [hs [c [E [H1 [H2 H3]]]]].
      * apply Forall_app. split; [assumption | now constructor].
      * now apply opened_by_ok.
      * exists hs, c. repeat split; try assumption.
        rewrite H3, map_app, concat_app. cbn [map List.concat].
        rewrite app_nil_r, <- app_assoc.
        unfold opened_by.
        destruct (DiffUtils.starts_match line) as [[g1 g3] |]; reflexivity.
    + rewrite (split_step_body hunks current line Hat).
      destruct (IH hunks
                   {| DiffUtils.oldStart := DiffUtils.oldStart current;
                      DiffUtils.newStart := DiffUtils.newStart current;
                      DiffUtils.hunkLines := DiffUtils.hunkLines current ++ [line] |})
        as [hs [c [E [H1 [H2 H3]]]]].
      * assumption.
      * destruct Hc as [h [b [E [Hh [Hb Hs]]]]].
        exists h, (b ++ [line]). cbn [DiffUtils.hunkLines DiffUtils.oldStart
                                      DiffUtils.newStart].
        rewrite E. repeat split; try assumption.
        apply Forall_app. split; [assumption | now constructor].
      * exists hs, c. repeat split; try assumption.
        rewrite H3. cbn [DiffUtils.hunkLines]. now rewrite <- !app_assoc.
Qed.

Lemma split_fold_before (lines : list jsstring) :
  fold_left DiffUtils.split_step lines ([], DiffUtils.fresh_hunk, false)
  = match from_first_header lines with
    | [] => ([], DiffUtils.fresh_hunk, false)
    | header :: rest =>
        fold_left DiffUtils.split_step rest ([], opened_by header, true)
    end.
Proof.
  induction lines as [| line rest IH]; [reflexivity |].
  cbn [fold_left from_first_header].
  destruct (startsWith (lit "@@") line) eqn:Hat.
  - now rewrite split_step_first_header.
  - now rewrite split_step_before.
Qed.

Lemma from_first_header_head (lines : list jsstring) (header : jsstring)
      (rest : list jsstring) :
  from_first_header lines = header :: rest ->
  startsWith (lit "@@") header = true.
Proof.
  induction lines as [| line more IH]; [discriminate |].
  cbn [from_first_header].
  destruct (startsWith (lit "@@") line) eqn:Hat; [| exact IH].
  intros H. injection H as <- _. exact Hat.
Qed.

Lemma header_count_from_first (lines : list jsstring) :
  header_count (from_first_header lines) = header_count lines.
Proof.
  unfold header_count.
  induction lines as [| line rest IH]; [reflexivity |].
  cbn [from_first_header].
  destruct (startsWith (lit "@@") line) eqn:Hat; [reflexivity |].
  cbn [filter]. now rewrite Hat.
Qed.

Lemma header_count_hunks (hunks : list DiffUtils.Hunk) :
  Forall hunk_ok hunks ->
  header_count (List.concat (map DiffUtils.hunkLines hunks)) = List.length hunks.
Proof.
  unfold header_count.
  induction 1 as [| h hs [header [body [E [Hat [Hbody _]]]]] _ IH];
    [reflexivity |].
  cbn [map List.concat List.length]. rewrite filter_app, length_app, IH, E.
  cbn [filter]. rewrite Hat. cbn [List.length].
  now rewrite (filter_none _ body Hbody).
Qed.

(** X5. [splitHunks] cuts the diff at its [@@] lines and loses nothing
    after the first of them: every hunk starts with a [@@] line and
    holds no other; its [oldStart] and [newStart] are read from that
    line alone (both are 0 when the pattern does not match it, never
    the numbers of the hunk before); the lines of the hunks, put end
    to end, are the lines of the diff from the first [@@] line on; and
    there are as many hunks as [@@] lines.  What comes before the
    first [@@] line is dropped, whatever it is. *)
Theorem splitHunks_cuts_at_headers (diffText : jsstring) :
  Forall hunk_ok (DiffUtils.splitHunks diffText)
  /\ List.concat (map DiffUtils.hunkLines (DiffUtils.splitHunks diffText))
     = from_first_header (split_lines diffText)
  /\ List.length (DiffUtils.splitHunks diffText)
     = header_count (split_lines diffText).
Proof.
  assert (G : Forall hunk_ok (DiffUtils.splitHunks diffText)
              /\ List.concat (map DiffUtils.hunkLines (DiffUtils.splitHunks diffText))
                 = from_first_header (split_lines diffText)).
  { unfold DiffUtils.splitHunks. rewrite split_fold_before.
    destruct (from_first_header (split_lines diffText)) as [| header rest] eqn:E.
    - cbn. split; [constructor | reflexivity].
    - pose proof (from_first_header_head _ _ _ E) as Hat.
      destruct (split_fold_in_hunk rest [] (opened_by header))
        as [hs [c [Efold [H1 [H2 H3]]]]];
        [constructor | now apply opened_by_ok |].
      rewrite Efold.
      assert (Hne : DiffUtils.nonempty (DiffUtils.hunkLines c) = true).
      { destruct H2 as [h [b [Ec _]]]. now rewrite Ec. }
      rewrite Hne. split.
      + apply Forall_app. split; [assumption | now constructor].
      + rewrite map_app, concat_app. cbn [map List.concat]. rewrite app_nil_r, H3.
        cbn [map List.concat app]. unfold opened_by.
        destruct (DiffUtils.starts_match header) as [[g1 g3] |]; reflexivity. }
  destruct G as [G1 G2]. repeat split; try assumption.
  now rewrite <- header_count_from_first, <- G2, header_count_hunks.
Qed.

(* ================================================================== *)
(** ** The numbers of [computeHunkLineNumbers] *)
(* ================================================================== *)

Lemma consecutive_length (n : nat) : forall a, List.length (consecutive a n) = n.
Proof. induction n as [| n IH]; intros a; cbn; [reflexivity | now rewrite IH]. Qed.

Lemma consecutive_snoc (n : nat) :
  forall a, consecutive a (S n) = consecutive a n ++ [a + Z.of_nat n].
Proof.
  induction n as [| n IH]; intros a.
  - cbn. now rewrite Z.add_0_r.
  - change (consecutive a (S (S n))) with (a :: consecutive (a + 1) (S n)).
    rewrite IH. cbn [consecutive app]. do 3 f_equal. lia.
Qed.

Lemma consecutive_In (n : nat) :
  forall a k, In k (consecutive a n) -> a <= k < a + Z.of_nat n.
Proof.
  induction n as [| n IH]; intros a k; cbn [consecutive In]; [tauto |].
  intros [<- | H]; [lia |]. apply IH in H. lia.
Qed.

Lemma map_set_fresh (m : DiffUtils.LinesMap) (k : Z) (v : jsstring) :
  ~ In k (map fst m) -> DiffUtils.map_set m k v = m ++ [(k, v)].
Proof.
  induction m as [| [k' v'] m IH]; cbn [DiffUtils.map_set map fst In app];
    intros Hk; [reflexivity |].
  destruct (Z.eqb_spec k' k) as [-> | Hne]; [tauto |].
  rewrite IH by tauto. reflexivity.
Qed.

Lemma combine_snoc {A B : Type} (l1 : list A) (l2 : list B) (a : A) (b : B) :
  List.length l1 = List.length l2 ->
  combine (l1 ++ [a]) (l2 ++ [b]) = combine l1 l2 ++ [(a, b)].
Proof.
  revert l2. induction l1 as [| x l1 IH]; intros [| y l2] H; try discriminate.
  - reflexivity.
  - cbn. f_equal. apply IH. now injection H.
Qed.

(** Giving the next number to one more line. *)
Lemma numbered_snoc (start : Z) (ls : list jsstring) (line : jsstring) :
  DiffUtils.map_set
    (combine (consecutive start (List.length ls)) ls)
    (start + Z.of_nat (List.length ls)) line
  = combine (consecutive start (List.length (ls ++ [line]))) (ls ++ [line]).
Proof.
  rewrite map_set_fresh.
  - rewrite length_app. cbn [List.length]. rewrite Nat.add_1_r, consecutive_snoc.
    symmetry. apply combine_snoc. apply consecutive_length.
  - intros H. apply in_map_iff in H. destruct H as [[k v] [Hk Hin]].
    apply in_combine_l in Hin. apply consecutive_In in Hin.
    cbn [fst] in Hk. lia.
Qed.

Lemma number_fold (newStart oldStart : Z) (body : list jsstring) :
  forall st ns os,
    numbered_so_far newStart oldStart ns os st ->
    numbered_so_far newStart oldStart
                    (ns ++ filter new_side body) (os ++ filter old_side body)
                    (fold_left DiffUtils.number_step body st).
Proof.
  induction body as [| line rest IH]; intros st ns os Hst.
  - cbn [filter fold_left]. now rewrite !app_nil_r.
  - cbn [filter fold_left]. unfold new_side at 1, old_side at 1.
    destruct Hst as [Hn [Hnn [Ho Hon]]].
    unfold DiffUtils.number_step.
    destruct (startsWith (lit "-") line) eqn:Eminus; cbn [negb orb].
    + replace (os ++ line :: filter old_side rest)
        with ((os ++ [line]) ++ filter old_side rest)
        by (now rewrite <- app_assoc).
      apply IH. unfold numbered_so_far.
      cbn [DiffUtils.newLinesMap DiffUtils.newLineNumber
           DiffUtils.oldLinesMap DiffUtils.oldLineNumber].
      rewrite Ho, Hon, numbered_snoc, length_app. cbn [List.length].
      repeat split; try assumption. lia.
    + destruct (startsWith (lit "+") line) eqn:Eplus; cbn [negb].
      * replace (ns ++ line :: filter new_side rest)
          with ((ns ++ [line]) ++ filter new_side rest)
          by (now rewrite <- app_assoc).
        apply IH. unfold numbered_so_far.
        cbn [DiffUtils.newLinesMap DiffUtils.newLineNumber
             DiffUtils.oldLinesMap DiffUtils.oldLineNumber].
        rewrite Hn, Hnn, numbered_snoc, length_app. cbn [List.length].
        repeat split; try assumption. lia.
      * replace (ns ++ line :: filter new_side rest)
          with ((ns ++ [line]) ++ filter new_side rest)
          by (now rewrite <- app_assoc).
        replace (os ++ line :: filter old_side rest)
          with ((os ++ [line]) ++ filter old_side rest)
          by (now rewrite <- app_assoc).
        apply IH. unfold numbered_so_far.
        cbn [DiffUtils.newLinesMap DiffUtils.newLineNumber
             DiffUtils.oldLinesMap DiffUtils.oldLineNumber].
        rewrite Hn, Hnn, Ho, Hon, !numbered_snoc, !length_app.
        cbn [List.length]. repeat split; lia.
Qed.

(** X6. [computeHunkLineNumbers] numbers the lines of a hunk without a
    gap, as long as its two counters stay in the range in which the
    engine counts as the integers do ([newStart] plus the number of
    lines that advance the new counter, and [oldStart] plus the number
    of lines that advance the old one, are at most 2^53; from 2^53 on a
    counter of the engine stops, and [Map.set] then replaces the entry
    of the line before).  Its new-lines map pairs the lines after the
    header that do not begin with [-], in their order, with the
    consecutive numbers from [newStart]; its old-lines map pairs the
    lines that begin with [-] or do not begin with [+] with the
    consecutive numbers from [oldStart].  No line is numbered twice and
    no number is skipped, and every number given is below 2^53. *)
Theorem hunk_lines_numbered_consecutively (hunk : DiffUtils.Hunk) :
  let body := tl (DiffUtils.hunkLines hunk) in
  let numbered := DiffUtils.computeHunkLineNumbers hunk in
  counts_exactly (DiffUtils.newStart hunk)
                 (List.length (filter new_side body)) = true ->
  counts_exactly (DiffUtils.oldStart hunk)
                 (List.length (filter old_side body)) = true ->
  DiffUtils.numbered_new numbered
  = combine (consecutive (DiffUtils.newStart hunk)
                         (List.length (filter new_side body)))
            (filter new_side body)
  /\ DiffUtils.numbered_old numbered
     = combine (consecutive (DiffUtils.oldStart hunk)
                            (List.length (filter old_side body)))
               (filter old_side body)
  /\ Forall (fun kv => in_counting_range (fst kv))
            (DiffUtils.numbered_new numbered)
  /\ Forall (fun kv => in_counting_range (fst kv))
            (DiffUtils.numbered_old numbered).
Proof.
  intros body numbered Hnew Hold.
  apply counts_exactly_spec in Hnew. apply counts_exactly_spec in Hold.
  assert (Hrange : forall start (ls : list jsstring),
             - exact_limit <= start
             /\ start + Z.of_nat (List.length ls) <= exact_limit ->
             Forall (fun kv : Z * jsstring => in_counting_range (fst kv))
                    (combine (consecutive start (List.length ls)) ls)).
  { intros start ls Hb. apply Forall_forall. intros [k v] Hin.
    apply in_combine_l, consecutive_In in Hin.
    cbn [fst]. unfold in_counting_range. lia. }
  subst numbered.
  unfold DiffUtils.computeHunkLineNumbers.
  cbn [DiffUtils.numbered_new DiffUtils.numbered_old].
  pose proof (number_fold (DiffUtils.newStart hunk) (DiffUtils.oldStart hunk)
                          body
                          {| DiffUtils.temp := [];
                             DiffUtils.maxHeaderLength := 0;
                             DiffUtils.oldLinesMap := [];
                             DiffUtils.newLinesMap := [];
                             DiffUtils.oldLineNumber := DiffUtils.oldStart hunk;
                             DiffUtils.newLineNumber := DiffUtils.newStart hunk |}
                          [] []) as H.
  destruct H as [Hn [_ [Ho _]]].
  - unfold numbered_so_far. cbn. repeat split; lia.
  - split; [exact Hn |]. split; [exact Ho |]. split.
    + exact (eq_ind_r
               (Forall (fun kv : Z * jsstring => in_counting_range (fst kv)))
               (Hrange _ _ Hnew) Hn).
    + exact (eq_ind_r
               (Forall (fun kv : Z * jsstring => in_counting_range (fst kv)))
               (Hrange _ _ Hold) Ho).
Qed.

(** X6 on the second hunk of [two_hunks_diff]. *)
Lemma hunk_lines_numbered_consecutively_witness :
  let hunk := {| DiffUtils.oldStart := 20;
                 DiffUtils.newStart := 21;
                 DiffUtils.hunkLines :=
                   [lit "@@ -20,2 +21,3 @@"; lit "-d"; lit "+e"; lit "+f";
                    lit " g"] |} in
  DiffUtils.numbered_new (DiffUtils.computeHunkLineNumbers hunk)
  = [(21, lit "+e"); (22, lit "+f"); (23, lit " g")]
  /\ DiffUtils.numbered_old (DiffUtils.computeHunkLineNumbers hunk)
     = [(20, lit "-d"); (21, lit " g")]
  /\ Forall (fun kv => in_counting_range (fst kv))
            (DiffUtils.numbered_new (DiffUtils.computeHunkLineNumbers hunk))
  /\ Forall (fun kv => in_counting_range (fst kv))
            (DiffUtils.numbered_old (DiffUtils.computeHunkLineNumbers hunk)).
Proof.
  intros hunk.
  apply (hunk_lines_numbered_consecutively hunk); reflexivity.
Defined.

Lemma padEnd_length (s : jsstring) (n : Z) :
  str_length s <= n -> str_length (DiffUtils.padEnd s n) = n.
Proof.
  unfold DiffUtils.padEnd, str_length. intros H.
  rewrite length_app, repeat_length. lia.
Qed.

Lemma number_step_temp (st : DiffUtils.NumberingState) (line : jsstring) :
  exists header,
    DiffUtils.temp (DiffUtils.number_step st line)
    = DiffUtils.temp st ++ [(header, line)]
    /\ DiffUtils.maxHeaderLength (DiffUtils.number_step st line)
       = Z.max (DiffUtils.maxHeaderLength st) (str_length header).
Proof.
  unfold DiffUtils.number_step.
  destruct (startsWith (lit "-") line);
    [| destruct (startsWith (lit "+") line)];
    eexists; cbn [DiffUtils.temp DiffUtils.maxHeaderLength];
    split; reflexivity.
Qed.

Lemma temp_fold (body : list jsstring) :
  forall st,
    Forall (fun hl => str_length (fst hl) <= DiffUtils.maxHeaderLength st)
           (DiffUtils.temp st) ->
    map snd (DiffUtils.temp (fold_left DiffUtils.number_step body st))
    = map snd (DiffUtils.temp st) ++ body
    /\ Forall (fun hl =>
                 str_length (fst hl)
                 <= DiffUtils.maxHeaderLength
                      (fold_left DiffUtils.number_step body st))
              (DiffUtils.temp (fold_left DiffUtils.number_step body st)).
Proof.
  induction body as [| line rest IH]; intros st Hst; cbn [fold_left].
  - rewrite app_nil_r. auto.
  - destruct (number_step_temp st line) as [header [Et Em]].
    destruct (IH (DiffUtils.number_step st line)) as [H1 H2].
    + rewrite Et, Em. apply Forall_app. split.
      * eapply Forall_impl; [| exact Hst]. intros hl Hhl. cbv beta in *. lia.
      * constructor; [cbn [fst]; lia | constructor].
    + split; [| exact H2].
      rewrite H1, Et, map_app. cbn [map snd]. now rewrite <- app_assoc.
Qed.

(** X7. In the numbered hunk of [computeHunkLineNumbers] the header
    line is the first line, unchanged, and every other line is its
    original line after a prefix; the prefixes of one hunk all have the
    same length, so that dropping that many characters from each
    numbered line gives the hunk back. *)
Theorem numbered_hunk_keeps_the_lines (hunk : DiffUtils.Hunk) :
  exists width,
    firstn 1 (DiffUtils.newHunkLines (DiffUtils.computeHunkLineNumbers hunk))
    = firstn 1 (DiffUtils.hunkLines hunk)
    /\ Forall2 (fun numbered original =>
                  exists prefix,
                    str_length prefix = width /\ numbered = prefix ++ original)
               (skipn (List.length (firstn 1 (DiffUtils.hunkLines hunk)))
                      (DiffUtils.newHunkLines
                         (DiffUtils.computeHunkLineNumbers hunk)))
               (tl (DiffUtils.hunkLines hunk)).
Proof.
  unfold DiffUtils.computeHunkLineNumbers. cbn [DiffUtils.newHunkLines].
  set (st0 := {| DiffUtils.temp := [];
                 DiffUtils.maxHeaderLength := 0;
                 DiffUtils.oldLinesMap := [];
                 DiffUtils.newLinesMap := [];
                 DiffUtils.oldLineNumber := DiffUtils.oldStart hunk;
                 DiffUtils.newLineNumber := DiffUtils.newStart hunk |}).
  destruct (temp_fold (tl (DiffUtils.hunkLines hunk)) st0) as [H1 H2];
    [constructor |].
  set (st := fold_left DiffUtils.number_step (tl (DiffUtils.hunkLines hunk)) st0)
    in *.
  exists (DiffUtils.maxHeaderLength st + 1). split.
  - destruct (DiffUtils.hunkLines hunk) as [| h b]; reflexivity.
  - rewrite skipn_app, skipn_all, Nat.sub_diag. cbn [app skipn].
    assert (Hb : tl (DiffUtils.hunkLines hunk) = map snd (DiffUtils.temp st))
      by (symmetry; exact H1).
    rewrite Hb. clear H1 Hb.
    induction H2 as [| [header line] t Hh _ IH]; cbn [map snd fst].
    + constructor.
    + constructor; [| exact IH].
      exists (DiffUtils.padEnd header (DiffUtils.maxHeaderLength st) ++ lit " ").
      split.
      * rewrite str_length_app, padEnd_length by exact Hh. reflexivity.
      * now rewrite <- app_assoc.
Qed.

(* ================================================================== *)
(** ** How far the walk goes *)
(* ================================================================== *)

Lemma take_while_app {A : Type} (f : A -> bool) (a b : list A) :
  take_while f (a ++ b)
  = if forallb f a then a ++ take_while f b else take_while f a.
Proof.
  induction a as [| x a IH]; cbn [app take_while forallb]; [reflexivity |].
  destruct (f x); cbn [andb]; [| reflexivity].
  rewrite IH. now destruct (forallb f a).
Qed.

Lemma take_while_all {A : Type} (f : A -> bool) (l : list A) :
  forallb f l = true -> take_while f l = l.
Proof.
  induction l as [| x l IH]; cbn [forallb take_while]; [reflexivity |].
  intros H. apply andb_true_iff in H. destruct H as [Hx Hl].
  rewrite Hx. f_equal. now apply IH.
Qed.

Lemma walk_app (arrive : Path -> option Error) (maxD : Z) (a b : list Path) :
  walk arrive maxD (a ++ b)
  = match walk arrive maxD a with
    | (examined, None) =>
        (examined ++ fst (walk arrive maxD b), snd (walk arrive maxD b))
    | (examined, Some e) => (examined, Some e)
    end.
Proof.
  induction a as [| p a IH]; cbn [app walk].
  - now destruct (walk arrive maxD b).
  - destruct (arrive p); [reflexivity |].
    destruct (depth_of p <=? maxD); [| reflexivity].
    rewrite IH. destruct (walk arrive maxD a) as [examined [e |]]; reflexivity.
Qed.

(** When the library passes everywhere, only the depth ends a walk. *)
Lemma walk_quiet (arrive : Path -> option Error) (maxD : Z) (paths : list Path) :
  Forall (fun p => arrive p = None) paths ->
  walk arrive maxD paths
  = (take_while (fun p => depth_of p <=? maxD) paths,
     if forallb (fun p => depth_of p <=? maxD) paths then None
     else Some (mkError (AstUtils.depth_message maxD))).
Proof.
  induction 1 as [| p rest Hp _ IH]; cbn [walk take_while forallb];
    [reflexivity |].
  rewrite Hp. destruct (depth_of p <=? maxD); [| reflexivity].
  rewrite IH. reflexivity.
Qed.

(** The nodes that a walk looks at are among those within the depth. *)
Lemma walk_examined (arrive : Path -> option Error) (maxD : Z)
      (paths : list Path) (p : Path) :
  In p (fst (walk arrive maxD paths)) ->
  In p (take_while (fun p => depth_of p <=? maxD) paths).
Proof.
  induction paths as [| q rest IH]; cbn [walk take_while]; [tauto |].
  destruct (arrive q); [intros [] |].
  destruct (depth_of q <=? maxD); [| intros []].
  destruct (walk arrive maxD rest) as [examined stop]. cbn [fst In] in *.
  tauto.
Qed.

(** [visit] with its inner loop written as [visit_list]. *)
Lemma visit_unfold {S : Type} (arrive : Path -> option Error)
      (enter : Path -> S -> S * option Error)
      (exit : S -> S) (ancestors : list NodeData) (d : NodeData)
      (children : list Node) (st : S) :
  visit arrive enter exit ancestors (mkNode d children) st
  = match arrive (d, ancestors) with
    | Some e => (st, Some e)
    | None =>
        match enter (d, ancestors) st with
        | (st1, Some e) => (st1, Some e)
        | (st1, None) =>
            match visit_list arrive enter exit (d :: ancestors) children st1 with
            | (st2, Some e) => (st2, Some e)
            | (st2, None) => (exit st2, None)
            end
        end
    end.
Proof.
  cbn [visit]. destruct (arrive (d, ancestors)); [reflexivity |].
  destruct (enter (d, ancestors) st) as [st1 [e |]]; [reflexivity |].
  match goal with
  | |- match ?a with _ => _ end = match ?b with _ => _ end =>
      replace a with b; [reflexivity |]
  end.
  revert st1. induction children as [| c cs IH]; intros st1; [reflexivity |].
  cbn [visit_list].
  destruct (visit arrive enter exit (d :: ancestors) c st1) as [st' [e |]];
    [reflexivity | apply IH].
Qed.

(** A visitor that counts the depth as [createDepthLimiter] does, and
    otherwise only adds to what it has collected. *)
Section DepthLimitedWalk.
Context {L : Type}.
Variable step : Path -> L -> L.
Variable maxD : Z.
Variable arrive : Path -> option Error.
Variable enter : Path -> (L * Z) -> (L * Z) * option Error.
Variable exit : (L * Z) -> (L * Z).
Hypothesis enter_within :
  forall p s d, d + 1 <= maxD -> enter p (s, d) = ((step p s, d + 1), None).
Hypothesis enter_beyond :
  forall p s d,
    maxD < d + 1 ->
    enter p (s, d)
    = ((s, d + 1), Some (mkError (AstUtils.depth_message maxD))).
Hypothesis exit_counts : forall s d, exit (s, d) = (s, d - 1).

(** The outcome of walking [paths] from the state [(s, d)]. *)
Let walk_result (paths : list Path) (s : L) (d : Z)
    (out : (L * Z) * option Error) : Prop :=
  fst (fst out)
  = fold_left (fun acc p => step p acc) (fst (walk arrive maxD paths)) s
  /\ snd out = snd (walk arrive maxD paths)
  /\ (snd (walk arrive maxD paths) = None -> snd (fst out) = d).

Lemma visit_list_walked (children : list Node) :
  Forall (fun c =>
            forall ancestors s d,
              d = Z.of_nat (List.length ancestors) ->
              walk_result (preorder ancestors c) s d
                          (visit arrive enter exit ancestors c (s, d)))
         children ->
  forall ancestors s d,
    d = Z.of_nat (List.length ancestors) ->
    walk_result (flat_map (preorder ancestors) children) s d
                (visit_list arrive enter exit ancestors children (s, d)).
Proof.
  induction 1 as [| c cs Hc _ IH]; intros ancestors s d Hd.
  - cbn. repeat split; auto.
  - cbn [flat_map visit_list].
    destruct (Hc ancestors s d Hd) as [H1 [H2 H3]].
    destruct (visit arrive enter exit ancestors c (s, d)) as [[s1 d1] err] eqn:E.
    cbn [fst snd] in *. unfold walk_result. rewrite walk_app.
    destruct (walk arrive maxD (preorder ancestors c)) as [examined stop].
    cbn [fst snd] in *. subst err.
    destruct stop as [e |].
    + cbn [fst snd]. split; [exact H1 | split; [reflexivity | discriminate]].
    + rewrite (H3 eq_refl).
      destruct (IH ancestors s1 d Hd) as [G1 [G2 G3]].
      cbn [fst snd]. rewrite fold_left_app, <- H1.
      split; [exact G1 | split; [exact G2 | exact G3]].
Qed.

Lemma visit_walked (n : Node) :
  forall ancestors s d,
    d = Z.of_nat (List.length ancestors) ->
    walk_result (preorder ancestors n) s d
                (visit arrive enter exit ancestors n (s, d)).
Proof.
  induction n as [dt cs IH] using Node_induction.
  intros ancestors s d Hd. rewrite visit_unfold. cbn [preorder].
  unfold walk_result. cbn [walk].
  destruct (arrive (dt, ancestors)) as [e |].
  { cbn. split; [reflexivity | split; [reflexivity | discriminate]]. }
  assert (Hsh : depth_of (dt, ancestors) = d + 1).
  { unfold depth_of. cbn [snd]. now rewrite Hd. }
  rewrite Hsh.
  destruct (Z.leb_spec (d + 1) maxD) as [Hle | Hgt].
  - rewrite (enter_within _ _ _ Hle).
    destruct (visit_list_walked cs IH (dt :: ancestors) (step (dt, ancestors) s)
                                (d + 1)) as [G1 [G2 G3]].
    { cbn [List.length]. lia. }
    destruct (visit_list arrive enter exit (dt :: ancestors) cs
                         (step (dt, ancestors) s, d + 1))
      as [[s2 d2] err] eqn:E.
    destruct (walk arrive maxD (flat_map (preorder (dt :: ancestors)) cs))
      as [examined stop].
    cbn [fst snd] in *. subst err. cbn [fold_left].
    destruct stop as [e |].
    + cbn [fst snd]. split; [exact G1 | split; [reflexivity | discriminate]].
    + rewrite exit_counts. cbn [fst snd]. rewrite (G3 eq_refl).
      split; [exact G1 | split; [reflexivity | intros _; lia]].
  - rewrite (enter_beyond _ _ _ Hgt). cbn [fst snd fold_left].
    split; [reflexivity | split; [reflexivity | discriminate]].
Qed.

(** The walk collects from the nodes in pre-order, and ends for good
    at the first node where the library throws or that lies deeper than
    the limit. *)
Lemma traverse_walked (ast : Node) (s : L) :
  let out := traverse arrive enter exit ast (s, 0) in
  fst (fst out)
  = fold_left (fun acc p => step p acc)
              (fst (walk arrive maxD (paths_below ast))) s
  /\ snd out = snd (walk arrive maxD (paths_below ast)).
Proof.
  destruct ast as [d cs]. cbn [traverse paths_below].
  destruct (visit_list_walked cs) with (ancestors := @nil NodeData) (s := s) (d := 0)
    as [H1 [H2 _]].
  - apply Forall_forall. intros c _. apply visit_walked.
  - reflexivity.
  - split; [exact H1 | exact H2].
Qed.

End DepthLimitedWalk.

Lemma fold_left_push {A B : Type} (f : A -> list B) (l : list A) :
  forall s, fold_left (fun acc p => acc ++ f p) l s = s ++ flat_map f l.
Proof.
  induction l as [| x l IH]; intros s; cbn [fold_left flat_map].
  - now rewrite app_nil_r.
  - now rewrite IH, <- app_assoc.
Qed.

Lemma depth_message_has_the_words (maxDepth : Z) :
  includes AstContext.depth_words (AstUtils.depth_message maxDepth) = true.
Proof. reflexivity. Qed.

Lemma js_enter_within (addedLines : numset) (config : AstConfig)
      (p : Path) (s : list AstContext.Candidate) (d : Z) :
  d + 1 <= maxDepth config ->
  AstContext.enter addedLines config p (s, d)
  = ((s ++ candidate_at addedLines p, d + 1), None).
Proof.
  intros Hd. unfold AstContext.enter, AstUtils.depth_enter, candidate_at.
  assert (E : (d + 1 >? maxDepth config) = false)
    by (rewrite Z.gtb_ltb; apply Z.ltb_ge; lia).
  rewrite E.
  destruct (AstContext.isTargetNode p); cbn [negb]; [| now rewrite app_nil_r].
  destruct (node_loc (fst p)) as [[lo hi] |]; [| now rewrite app_nil_r].
  destruct (filter _ addedLines) as [| l ls]; [now rewrite app_nil_r |].
  reflexivity.
Qed.

Lemma js_enter_beyond (addedLines : numset) (config : AstConfig)
      (p : Path) (s : list AstContext.Candidate) (d : Z) :
  maxDepth config < d + 1 ->
  AstContext.enter addedLines config p (s, d)
  = ((s, d + 1),
     Some (mkError (AstUtils.depth_message (maxDepth config)))).
Proof.
  intros Hd. unfold AstContext.enter, AstUtils.depth_enter.
  assert (E : (d + 1 >? maxDepth config) = true)
    by (rewrite Z.gtb_ltb; apply Z.ltb_lt; lia).
  now rewrite E.
Qed.

Lemma collectImpactedSections_walk
      (w : World) (addedLines : numset) (config : AstConfig) (ast : Node) :
  AstContext.collectImpactedSections w addedLines config ast
  = collected
      (flat_map (candidate_at addedLines)
                (fst (walk (crawlScope w) (maxDepth config) (paths_below ast))))
      (snd (walk (crawlScope w) (maxDepth config) (paths_below ast))).
Proof.
  unfold AstContext.collectImpactedSections.
  pose proof (traverse_walked
                (fun p s => s ++ candidate_at addedLines p)
                (maxDepth config) (crawlScope w)
                (AstContext.enter addedLines config) AstContext.exit
                (js_enter_within addedLines config)
                (js_enter_beyond addedLines config)
                (fun s d => eq_refl) ast []) as H.
  cbv beta zeta in H. rewrite fold_left_push in H. revert H.
  unfold AstContext.VisitorState.
  match goal with
  | |- context [snd ?t = _] => generalize t
  end.
  intros [st err] [H1 H2]. cbn [fst snd app] in *. subst err.
  rewrite <- H1. unfold collected.
  now destruct (snd (walk (crawlScope w) (maxDepth config) (paths_below ast))).
Qed.

Lemma collectImpactedSections_quiet
      (w : World) (addedLines : numset) (config : AstConfig) (ast : Node) :
  scopes_pass w ast ->
  AstContext.collectImpactedSections w addedLines config ast
  = Ok (flat_map (candidate_at addedLines) (walked config ast)).
Proof.
  intros Hq. rewrite collectImpactedSections_walk.
  rewrite (walk_quiet _ _ _ Hq). cbn [fst snd]. unfold collected, walked.
  destruct (forallb _ (paths_below ast)); [reflexivity |].
  cbn [message]. now rewrite depth_message_has_the_words.
Qed.

(** X8. How [collectImpactedSections] walks the tree.  It looks at the
    nodes below the root in pre-order.  The walk ends at the first node
    where the library throws, or that lies deeper than [maxDepth]; from
    there on nothing is examined, also not the shallow nodes that come
    later.  The result is the candidates of the nodes examined so far:
    a function, method or class with a location whose lines hold an
    added line gives one.  Only an error of the library whose message
    lacks the words of the depth limiter is thrown again.  When the
    library passes at every node, the function returns the candidates
    of all the nodes before the first that is too deep. *)
Theorem collectImpactedSections_walks_in_preorder
        (w : World) (addedLines : numset) (config : AstConfig) (ast : Node) :
  AstContext.collectImpactedSections w addedLines config ast
  = collected
      (flat_map (candidate_at addedLines)
                (fst (walk (crawlScope w) (maxDepth config) (paths_below ast))))
      (snd (walk (crawlScope w) (maxDepth config) (paths_below ast)))
  /\ (scopes_pass w ast ->
      AstContext.collectImpactedSections w addedLines config ast
      = Ok (flat_map (candidate_at addedLines)
                     (take_while (fun p => depth_of p <=? maxDepth config)
                                 (paths_below ast)))).
Proof.
  split; [apply collectImpactedSections_walk |].
  apply collectImpactedSections_quiet.
Qed.

(** X8 at the tree of the script file, with a depth limit of 4. *)
Lemma collectImpactedSections_walks_in_preorder_witness :
  AstContext.collectImpactedSections world_js [2; 4] config_shallow shape_ast
  = Ok (flat_map (candidate_at [2; 4])
                 (take_while (fun p => depth_of p <=? maxDepth config_shallow)
                             (paths_below shape_ast))).
Proof.
  apply (proj2 (collectImpactedSections_walks_in_preorder
                  world_js [2; 4] config_shallow shape_ast)).
  unfold scopes_pass. vm_compute. repeat constructor.
Defined.

Lemma vue_enter_within (scriptContent : jsstring) (addedLines : numset)
      (config : AstConfig) (p : Path) (s : list AstContextVue.Unit) (d : Z) :
  d + 1 <= maxDepth config ->
  AstContextVue.enter scriptContent addedLines config p (s, d)
  = ((s ++ unit_at scriptContent addedLines p, d + 1), None).
Proof.
  intros Hd. unfold AstContextVue.enter, AstUtils.depth_enter, unit_at.
  assert (E : (d + 1 >? maxDepth config) = false)
    by (rewrite Z.gtb_ltb; apply Z.ltb_ge; lia).
  rewrite E.
  destruct (AstContextVue.isScriptTargetNode p); cbn [negb];
    [| now rewrite app_nil_r].
  destruct (node_loc (fst p)) as [[lo hi] |]; [| now rewrite app_nil_r].
  destruct (filter _ addedLines) as [| l ls]; [now rewrite app_nil_r |].
  destruct (AstContextVue.getScriptNodeInfo p) as [name context].
  assert (N : (Z.of_nat (List.length (l :: ls)) =? 0) = false)
    by (apply Z.eqb_neq; cbn [List.length]; lia).
  rewrite N. now destruct context.
Qed.

Lemma vue_enter_beyond (scriptContent : jsstring) (addedLines : numset)
      (config : AstConfig) (p : Path) (s : list AstContextVue.Unit) (d : Z) :
  maxDepth config < d + 1 ->
  AstContextVue.enter scriptContent addedLines config p (s, d)
  = ((s, d + 1),
     Some (mkError (AstUtils.depth_message (maxDepth config)))).
Proof.
  intros Hd. unfold AstContextVue.enter, AstUtils.depth_enter.
  assert (E : (d + 1 >? maxDepth config) = true)
    by (rewrite Z.gtb_ltb; apply Z.ltb_lt; lia).
  now rewrite E.
Qed.

Lemma collectScriptSections_walk
      (w : World) (scriptContent : jsstring) (addedLines : numset)
      (config : AstConfig) (ast : Node) :
  AstContextVue.collectScriptSections w scriptContent addedLines config ast
  = collected
      (flat_map (unit_at scriptContent addedLines)
                (fst (walk (crawlScope w) (maxDepth config) (paths_below ast))))
      (snd (walk (crawlScope w) (maxDepth config) (paths_below ast))).
Proof.
  unfold AstContextVue.collectScriptSections.
  pose proof (traverse_walked
                (fun p s => s ++ unit_at scriptContent addedLines p)
                (maxDepth config) (crawlScope w)
                (AstContextVue.enter scriptContent addedLines config)
                AstContextVue.exit
                (vue_enter_within scriptContent addedLines config)
                (vue_enter_beyond scriptContent addedLines config)
                (fun s d => eq_refl) ast []) as H.
  cbv beta zeta in H. rewrite fold_left_push in H. revert H.
  unfold AstContextVue.VisitorState.
  match goal with
  | |- context [snd ?t = _] => generalize t
  end.
  intros [st err] [H1 H2]. cbn [fst snd app] in *. subst err.
  rewrite <- H1. unfold collected.
  now destruct (snd (walk (crawlScope w) (maxDepth config) (paths_below ast))).
Qed.

Lemma collectScriptSections_quiet
      (w : World) (scriptContent : jsstring) (addedLines : numset)
      (config : AstConfig) (ast : Node) :
  scopes_pass w ast ->
  AstContextVue.collectScriptSections w scriptContent addedLines config ast
  = Ok (flat_map (unit_at scriptContent addedLines) (walked config ast)).
Proof.
  intros Hq. rewrite collectScriptSections_walk.
  rewrite (walk_quiet _ _ _ Hq). cbn [fst snd]. unfold collected, walked.
  destruct (forallb _ (paths_below ast)); [reflexivity |].
  cbn [message]. now rewrite depth_message_has_the_words.
Qed.

(** X9. [collectScriptSections] of the Vue extractor walks a script
    block the same way: it looks at the nodes below the root in
    pre-order up to the first node where the library throws or that
    lies deeper than [maxDepth], returns the units of the nodes
    examined so far, and throws again only an error of the library
    without the words of the depth limiter.  The snippet of a unit is
    cut out of the script block by the offsets of its node. *)
Theorem collectScriptSections_walks_in_preorder
        (w : World) (scriptContent : jsstring) (addedLines : numset)
        (config : AstConfig) (ast : Node) :
  AstContextVue.collectScriptSections w scriptContent addedLines config ast
  = collected
      (flat_map (unit_at scriptContent addedLines)
                (fst (walk (crawlScope w) (maxDepth config) (paths_below ast))))
      (snd (walk (crawlScope w) (maxDepth config) (paths_below ast)))
  /\ (scopes_pass w ast ->
      AstContextVue.collectScriptSections w scriptContent addedLines config ast
      = Ok (flat_map (unit_at scriptContent addedLines)
                     (take_while (fun p => depth_of p <=? maxDepth config)
                                 (paths_below ast)))).
Proof.
  split; [apply collectScriptSections_walk |].
  apply collectScriptSections_quiet.
Qed.

(** X9 at the tree of the script block of the component file. *)
Lemma collectScriptSections_walks_in_preorder_witness :
  AstContextVue.collectScriptSections
    world_vue panel_script [5; 10] config_default panel_ast
  = Ok (flat_map (unit_at panel_script [5; 10])
                 (take_while (fun p => depth_of p <=? maxDepth config_default)
                             (paths_below panel_ast))).
Proof.
  apply (proj2 (collectScriptSections_walks_in_preorder
                  world_vue panel_script [5; 10] config_default panel_ast)).
  unfold scopes_pass. vm_compute. repeat constructor.
Defined.

(* ================================================================== *)
(** ** More on the selector of src/ast_utils.js *)
(* ================================================================== *)

Section SelectorOrder.
Context {A : Type} (added_lines : A -> list Z).

Local Abbreviation loop' := (AstUtils.select_loop added_lines).
Local Abbreviation lines' := (lines_of added_lines).

(** The loop only appends to [selected]. *)
Lemma select_loop_extends (sorted : list A) :
  forall (sel : list A) (cov : numset),
    exists tail, loop' sorted sel cov = sel ++ tail.
Proof.
  induction sorted as [| s rest IH]; intros sel cov; cbn [AstUtils.select_loop].
  - exists []. now rewrite app_nil_r.
  - destruct (Z.of_nat _ >? 0).
    + destruct (IH (sel ++ [s]) (set_add_all cov (added_lines s))) as [tail ->].
      exists (s :: tail). now rewrite <- app_assoc.
    + apply IH.
Qed.

Lemma uncovered_test (cov : numset) (ls : list Z) (l : Z) :
  In l ls -> ~ In l cov ->
  (Z.of_nat (List.length (filter (fun l => negb (set_has cov l)) ls)) >? 0) = true.
Proof.
  intros Hl Hc.
  destruct (Z.of_nat _ >? 0) eqn:E; [reflexivity |].
  exfalso. apply Hc. eapply uncovered_none; eassumption.
Qed.

(** A chain is selected whole. *)
Lemma select_loop_chain_id (res : list A) :
  forall (sel : list A) (cov : numset),
    (forall l, In l cov <-> In l (lines' sel)) ->
    Chain added_lines (sel ++ res) ->
    loop' res sel cov = sel ++ res.
Proof.
  induction res as [| u rest IH]; intros sel cov Hcov Hch;
    cbn [AstUtils.select_loop].
  - now rewrite app_nil_r.
  - destruct (Chain_split added_lines _ Hch sel u rest eq_refl) as [l [Hl Hn]].
    rewrite (uncovered_test cov (added_lines u) l Hl)
      by (now rewrite Hcov).
    rewrite IH.
    + now rewrite <- app_assoc.
    + intros x. rewrite set_add_all_In, lines_of_app, lines_of_one, Hcov. tauto.
    + now rewrite <- app_assoc.
Qed.

Variable size : A -> Z.

Lemma sort_by_sorted (l : list A) : ascending size l -> sort_by size l = l.
Proof.
  induction l as [| x l' IH]; intros Hs; cbn [sort_by]; [reflexivity |].
  inversion Hs as [| ? ? Hl' Hx]; subst.
  rewrite (IH Hl').
  destruct l' as [| y l'']; cbn [insert_by]; [reflexivity |].
  inversion Hx as [| ? ? Hxy _]; subst.
  apply Z.leb_le in Hxy. now rewrite Hxy.
Qed.

(** In a list in ascending order, the first unit that holds a line that
    is not covered yet is selected, before any other holder of the
    line, and no holder in the list is smaller. *)
Lemma select_loop_smallest (sorted : list A) (l : Z) :
  forall (sel : list A) (cov : numset),
    (forall x, In x cov <-> In x (lines' sel)) ->
    ascending size (sel ++ sorted) ->
    In l (lines' sorted) ->
    ~ In l (lines' sel) ->
    exists pre u post,
      loop' sorted sel cov = pre ++ u :: post
      /\ In l (added_lines u)
      /\ ~ In l (lines' pre)
      /\ forall c, In c sorted -> In l (added_lines c) -> size u <= size c.
Proof.
  induction sorted as [| s rest IH]; intros sel cov Hcov Hs Hin Hsel;
    [contradiction |].
  cbn [AstUtils.select_loop].
  destruct (in_dec Z.eq_dec l (added_lines s)) as [Hl | Hl].
  - rewrite (uncovered_test cov (added_lines s) l Hl) by (now rewrite Hcov).
    destruct (select_loop_extends rest (sel ++ [s])
                (set_add_all cov (added_lines s))) as [tail ->].
    exists sel, s, tail. rewrite <- app_assoc.
    split; [reflexivity |]. split; [assumption |]. split; [assumption |].
    intros c [<- | Hc] _; [lia |].
    assert (Hs' : ascending size (s :: rest)).
    { clear - Hs. induction sel as [| x sel IH]; [exact Hs |].
      inversion Hs; subst. now apply IH. }
    inversion Hs' as [| ? ? _ Hall]; subst.
    rewrite Forall_forall in Hall. now apply Hall.
  - assert (Hrest : In l (lines' rest)).
    { change (lines' (s :: rest)) with (added_lines s ++ lines' rest) in Hin.
      apply in_app_or in Hin. tauto. }
    destruct (Z.of_nat _ >? 0).
    + destruct (IH (sel ++ [s]) (set_add_all cov (added_lines s)))
        as (pre & u & post & E & Hu & Hpre & Hmin).
      * intros x. rewrite set_add_all_In, lines_of_app, lines_of_one, Hcov. tauto.
      * now rewrite <- app_assoc.
      * assumption.
      * rewrite lines_of_app, lines_of_one. tauto.
      * exists pre, u, post. repeat split; try assumption.
        intros c [<- | Hc] Hlc; [contradiction | now apply Hmin].
    + destruct (IH sel cov Hcov) as (pre & u & post & E & Hu & Hpre & Hmin).
      * eapply ascending_drop, Hs.
      * assumption.
      * assumption.
      * exists pre, u, post. repeat split; try assumption.
        intros c [<- | Hc] Hlc; [contradiction | now apply Hmin].
Qed.

Local Abbreviation select' := (AstUtils.selectSmallestSections size added_lines).

Lemma selected_smallest_holder (sections : list A) (addedLines : numset) (l : Z) :
  In l (lines' sections) ->
  exists pre u post,
    select' sections addedLines = pre ++ u :: post
    /\ In l (added_lines u)
    /\ ~ In l (lines' pre)
    /\ forall c, In c sections -> In l (added_lines c) -> size u <= size c.
Proof.
  intros Hin. unfold AstUtils.selectSmallestSections.
  destruct sections as [| s [| s' rest]].
  - contradiction.
  - exists [], s, []. apply (proj1 (lines_of_one added_lines s l)) in Hin.
    split; [reflexivity |]. split; [assumption |].
    split; [intros [] |].
    intros c [<- | []] _. lia.
  - destruct (select_loop_smallest (sort_by size (s :: s' :: rest)) l [] [])
      as (pre & u & post & E & Hu & Hpre & Hmin).
    + cbn. tauto.
    + exact (sort_by_ascending size (s :: s' :: rest)).
    + eapply Permutation_in; [| exact Hin].
      unfold lines_of. apply Permutation_flat_map, Permutation_sym, sort_by_perm.
    + cbn. tauto.
    + exists pre, u, post. repeat split; try assumption.
      intros c Hc. apply Hmin. now apply sort_by_In.
Qed.

(** X10. The smallest unit around a line wins.  For each line that some
    candidate holds, the first of the selected units that holds it is
    no larger than any candidate that holds the line. *)
Theorem first_selected_holder_is_smallest
        (sections : list A) (addedLines : numset) (line : Z) :
  In line (lines_of added_lines sections) ->
  exists pre u post,
    AstUtils.selectSmallestSections size added_lines sections addedLines
    = pre ++ u :: post
    /\ In line (added_lines u)
    /\ ~ In line (lines_of added_lines pre)
    /\ forall c, In c sections -> In line (added_lines c) -> size u <= size c.
Proof. apply selected_smallest_holder. Qed.

(** X11. Selecting twice changes nothing: the selected units are in
    ascending order of size and each brings a line of its own, so a
    second pass keeps them all, in the same order. *)
Theorem selectSmallestSections_idempotent
        (sections : list A) (addedLines addedLines' : numset) :
  AstUtils.selectSmallestSections size added_lines
    (AstUtils.selectSmallestSections size added_lines sections addedLines)
    addedLines'
  = AstUtils.selectSmallestSections size added_lines sections addedLines.
Proof.
  destruct sections as [| s [| s' rest]]; [reflexivity | reflexivity |].
  assert (Hch : Chain added_lines (select' (s :: s' :: rest) addedLines)).
  { unfold AstUtils.selectSmallestSections.
    apply select_loop_chain; [cbn; tauto | constructor]. }
  pose proof (selected_ascending added_lines size (s :: s' :: rest) addedLines)
    as Hasc.
  destruct (select' (s :: s' :: rest) addedLines) as [| a [| b r]];
    [reflexivity | reflexivity |].
  unfold AstUtils.selectSmallestSections at 1.
  rewrite (sort_by_sorted _ Hasc).
  apply (select_loop_chain_id (a :: b :: r) [] []); [cbn; tauto | exact Hch].
Qed.

End SelectorOrder.

(** X10 at the class and the function of [nested_candidates]: line 9 is
    first held by the function, of 3 lines. *)
Lemma first_selected_holder_is_smallest_witness :
  exists pre u post,
    AstUtils.selectSmallestSections AstContext.size AstContext.added_lines
      nested_candidates [9; 20]
    = pre ++ u :: post
    /\ In 9 (AstContext.added_lines u)
    /\ ~ In 9 (lines_of AstContext.added_lines pre)
    /\ forall c, In c nested_candidates -> In 9 (AstContext.added_lines c) ->
                 AstContext.size u <= AstContext.size c.
Proof.
  apply (first_selected_holder_is_smallest
           AstContext.added_lines AstContext.size nested_candidates [9; 20] 9).
  vm_compute. tauto.
Defined.

(* ================================================================== *)
(** ** The extractor of src/ast_context.js, from the file to the Sections *)
(* ================================================================== *)

Lemma collected_found {A : Type} (found all : list A) (stop : option Error) :
  collected found stop = Ok all -> all = found.
Proof.
  unfold collected. destruct stop as [e |].
  - destruct (includes _ _); [| discriminate]. intros H. now injection H.
  - intros H. now injection H.
Qed.

(** Every candidate comes from a node that the walk looked at. *)
Lemma collectImpactedSections_from
      (w : World) (addedLines : numset) (config : AstConfig) (ast : Node)
      (all : list AstContext.Candidate) (c : AstContext.Candidate) :
  AstContext.collectImpactedSections w addedLines config ast = Ok all ->
  In c all ->
  exists p, In p (walked config ast) /\ In c (candidate_at addedLines p).
Proof.
  rewrite collectImpactedSections_walk. intros H Hc.
  apply collected_found in H. subst all.
  apply in_flat_map in Hc. destruct Hc as [p [Hp Hc]].
  exists p. split; [now apply walk_examined in Hp | exact Hc].
Qed.

Lemma walk_candidates_eq
      (w : World) (addedLines : numset) (config : AstConfig) (ast : Node) :
  AstContext.collectImpactedSections w addedLines config ast
  = walk_candidates w config ast addedLines.
Proof.
  rewrite collectImpactedSections_walk. unfold walk_candidates.
  now destruct (walk (crawlScope w) (maxDepth config) (paths_below ast)).
Qed.

Lemma extractJsAstContext_parsed
      (w : World) (filePath : jsstring) (addedLines : numset)
      (projectRoot : jsstring) (config : AstConfig) (code : jsstring)
      (ast : Node) :
  getAstConfig w = Ok config ->
  readFileSafe w filePath projectRoot = Some code ->
  code <> [] ->
  parseCode w code = Ok ast ->
  scopes_pass w ast ->
  AstContext.extractJsAstContext w filePath addedLines projectRoot
  = Ok {| impacted_sections := js_sections config code ast addedLines;
          component_info := None;
          errors := [] |}.
Proof.
  intros Hc Hr Hne Hp Hq. unfold AstContext.extractJsAstContext.
  rewrite Hc. cbn [bind]. rewrite Hr.
  destruct code as [| c code']; [contradiction |].
  cbn [unreadable truthy negb]. rewrite Hp.
  now rewrite (collectImpactedSections_quiet w addedLines config ast Hq).
Qed.

(** X12. The four outcomes of [extractJsAstContext] once the
    configuration is loaded.  A file that cannot be read, and also a
    file that is empty, is reported as [file_not_readable]; a file that
    does not parse as [parse_error: ...]; a tree on which the library
    throws during the walk, with an error that is not taken for the
    depth limit, as [traverse_error: ...]; in the three cases there is
    no Section.  Otherwise there is no error at all, and the Sections
    are the smallest units among the candidates of the walk, each
    passed through [limitSectionSize]. *)
Theorem extractJsAstContext_outcomes
        (w : World) (filePath : jsstring) (addedLines : numset)
        (projectRoot : jsstring) (config : AstConfig) :
  getAstConfig w = Ok config ->
  exists r,
    AstContext.extractJsAstContext w filePath addedLines projectRoot = Ok r
    /\ component_info r = None
    /\ match readFileSafe w filePath projectRoot with
       | None | Some [] => r = AstContext.empty_result [lit "file_not_readable"]
       | Some code =>
           match parseCode w code with
           | Throw e =>
               r = AstContext.empty_result [lit "parse_error: " ++ message e]
           | Ok ast =>
               match walk_candidates w config ast addedLines with
               | Throw e =>
                   r = AstContext.empty_result
                         [lit "traverse_error: " ++ message e]
               | Ok allSections =>
                   errors r = []
                   /\ impacted_sections r
                      = map (fun section =>
                               AstContext.limitSectionSize section code config)
                            (AstUtils.selectSmallestSections
                               AstContext.size AstContext.added_lines
                               allSections addedLines)
               end
           end
       end.
Proof.
  intros Hc.
  destruct (readFileSafe w filePath projectRoot) as [[| c code'] |] eqn:Hr.
  - eexists. split.
    { unfold AstContext.extractJsAstContext. rewrite Hc. cbn [bind].
      rewrite Hr. reflexivity. }
    split; reflexivity.
  - destruct (parseCode w (c :: code')) as [ast | e] eqn:Hp.
    + destruct (walk_candidates w config ast addedLines) as [all | e] eqn:Hw.
      * eexists. split.
        { unfold AstContext.extractJsAstContext. rewrite Hc. cbn [bind].
          rewrite Hr. cbn [unreadable truthy negb]. rewrite Hp.
          rewrite walk_candidates_eq, Hw. reflexivity. }
        split; [reflexivity | split; reflexivity].
      * eexists. split.
        { unfold AstContext.extractJsAstContext. rewrite Hc. cbn [bind].
          rewrite Hr. cbn [unreadable truthy negb]. rewrite Hp.
          rewrite walk_candidates_eq, Hw. reflexivity. }
        split; reflexivity.
    + eexists. split.
      { unfold AstContext.extractJsAstContext. rewrite Hc. cbn [bind].
        rewrite Hr. cbn [unreadable truthy negb]. rewrite Hp. reflexivity. }
      split; reflexivity.
  - eexists. split.
    { unfold AstContext.extractJsAstContext. rewrite Hc. cbn [bind].
      rewrite Hr. reflexivity. }
    split; reflexivity.
Qed.

(** X12 at the script file, with line 4 added, when the library throws
    at the first node of the tree. *)
Lemma extractJsAstContext_outcomes_witness :
  exists r,
    AstContext.extractJsAstContext
      world_duplicate (lit "src/shape.js") [4] (lit "/repo")
    = Ok r
    /\ component_info r = None
    /\ r = AstContext.empty_result
             [lit "traverse_error: Duplicate declaration"].
Proof.
  destruct (extractJsAstContext_outcomes
              world_duplicate (lit "src/shape.js") [4] (lit "/repo")
              config_default eq_refl) as [r [H1 [H2 H3]]].
  exists r. split; [exact H1 |]. split; [exact H2 |]. exact H3.
Defined.

(** The units of a chain bring as many different lines as there are
    units. *)
Lemma chain_distinct_lines {A : Type} (added_lines : A -> list Z)
      (res : list A) :
  Chain added_lines res ->
  exists ls,
    NoDup ls /\ List.length ls = List.length res
    /\ incl ls (lines_of added_lines res).
Proof.
  induction 1 as [| sel u Hch [ls [Hnd [Hlen Hin]]] [l [Hl Hn]]].
  - exists []. split; [constructor |]. split; [reflexivity |]. intros x [].
  - exists (l :: ls). split; [| split].
    + constructor; [| assumption]. intros Hls. apply Hn. now apply Hin.
    + rewrite length_app. cbn [List.length]. lia.
    + intros x [<- | Hx].
      * apply lines_of_app. right. now apply lines_of_one.
      * apply lines_of_app. left. now apply Hin.
Qed.

(** X13. There is at most one Section for each added line: every
    selected unit brings a line that the units selected before it do
    not hold, and all these lines are lines of the added-line set. *)
Theorem js_sections_at_most_one_per_added_line
        (w : World) (filePath : jsstring) (addedLines : numset)
        (projectRoot : jsstring) (r : ExtractorResult) :
  AstContext.extractJsAstContext w filePath addedLines projectRoot = Ok r ->
  (List.length (impacted_sections r) <= List.length addedLines)%nat.
Proof.
  unfold AstContext.extractJsAstContext, getAstConfig.
  destruct (loadAstConfig w) as [config | e]; cbn [bind]; [| discriminate].
  destruct (readFileSafe w filePath projectRoot) as [code |].
  2: { intros H. injection H as <-. cbn. lia. }
  destruct (unreadable _).
  { intros H. injection H as <-. cbn. lia. }
  destruct (parseCode w code) as [ast | e].
  2: { intros H. injection H as <-. cbn. lia. }
  destruct (AstContext.collectImpactedSections _ _ _ ast) as [all | e] eqn:E.
  2: { intros H. injection H as <-. cbn. lia. }
  intros H. injection H as <-. cbn [impacted_sections].
  rewrite length_map.
  apply collectImpactedSections_ok in E.
  assert (Hne : Forall (fun s => AstContext.added_lines s <> []) all).
  { eapply Forall_impl; [| exact E]. intros c Hc. exact (proj1 Hc). }
  destruct (chain_distinct_lines _ _
              (selected_chain AstContext.added_lines AstContext.size
                              all addedLines Hne))
    as [ls [Hnd [<- Hin]]].
  apply NoDup_incl_length; [assumption |].
  intros x Hx. apply Hin in Hx. apply selected_lines in Hx.
  unfold lines_of in Hx. apply in_flat_map in Hx. destruct Hx as [c [Hc Hx]].
  rewrite Forall_forall in E. destruct (E c Hc) as [_ [Hall _]].
  now apply Hall.
Qed.

(** X13 at the script file: lines 2 and 4 are added, and there are at
    most two Sections. *)
Lemma js_sections_at_most_one_per_added_line_witness :
  (List.length
     (js_sections config_default shape_js shape_ast [2; 4]%Z) <= 2)%nat.
Proof.
  apply (js_sections_at_most_one_per_added_line
           world_js (lit "src/shape.js") [2; 4] (lit "/repo")
           {| impacted_sections :=
                js_sections config_default shape_js shape_ast [2; 4];
              component_info := None;
              errors := [] |}).
  vm_compute. reflexivity.
Defined.

Lemma candidate_at_holds (addedLines : numset) (p : Path) (lo hi line : Z) :
  AstContext.isTargetNode p = true ->
  node_loc (fst p) = Some (lo, hi) ->
  In line addedLines ->
  lo <= line <= hi ->
  exists c,
    candidate_at addedLines p = [c]
    /\ In line (AstContext.added_lines c)
    /\ AstContext.size c = hi - lo + 1.
Proof.
  intros Ht Hloc Hin Hr. unfold candidate_at. rewrite Ht, Hloc.
  assert (Hf : In line (filter (fun lineNumber =>
                                  (lineNumber >=? lo) && (lineNumber <=? hi))
                               addedLines)).
  { apply filter_In. split; [assumption |].
    apply andb_true_iff. split;
      [rewrite Z.geb_leb; apply Z.leb_le | apply Z.leb_le]; lia. }
  destruct (filter _ addedLines) as [| l ls]; [contradiction |].
  eexists. split; [reflexivity |]. split; [exact Hf | reflexivity].
Qed.

(** X14. The Section around an added line is the smallest unit around
    it.  When the file is read and parsed, the library sets up the
    scopes of the tree without a throw, and a function, method or class
    that the walk reaches spans the lines [lo] to [hi] around an added
    line, then some returned Section holds that line, spans it, and is
    not longer than [lo] to [hi]. *)
Theorem js_section_is_smallest_unit_around_line
        (w : World) (filePath : jsstring) (addedLines : numset)
        (projectRoot : jsstring) (config : AstConfig) (code : jsstring)
        (ast : Node) (p : Path) (lo hi line : Z) :
  getAstConfig w = Ok config ->
  readFileSafe w filePath projectRoot = Some code ->
  code <> [] ->
  parseCode w code = Ok ast ->
  scopes_pass w ast ->
  In p (walked config ast) ->
  AstContext.isTargetNode p = true ->
  node_loc (fst p) = Some (lo, hi) ->
  In line addedLines ->
  lo <= line <= hi ->
  exists r s,
    AstContext.extractJsAstContext w filePath addedLines projectRoot = Ok r
    /\ In s (impacted_sections r)
    /\ In line (Sec.added_lines s)
    /\ Sec.start_line s <= line <= Sec.end_line s
    /\ Sec.end_line s - Sec.start_line s <= hi - lo.
Proof.
  intros Hc Hr Hne Hp Hq Hw Ht Hloc Hin Hrange.
  destruct (candidate_at_holds addedLines p lo hi line Ht Hloc Hin Hrange)
    as [c [Hcand [Hline Hsize]]].
  set (all := flat_map (candidate_at addedLines) (walked config ast)).
  assert (Hc_all : In c all).
  { apply in_flat_map. exists p. split; [assumption |]. rewrite Hcand. now left. }
  assert (Hlines : In line (lines_of AstContext.added_lines all)).
  { unfold lines_of. apply in_flat_map. now exists c. }
  destruct (selected_smallest_holder AstContext.added_lines AstContext.size
              all addedLines line Hlines)
    as (pre & u & post & E & Hu & _ & Hmin).
  assert (Hsel : In u (AstUtils.selectSmallestSections
                         AstContext.size AstContext.added_lines all addedLines)).
  { rewrite E. apply in_elt. }
  assert (Hok : candidate_ok addedLines u).
  { pose proof (collectImpactedSections_ok w addedLines config ast all
                  (collectImpactedSections_quiet w addedLines config ast Hq))
      as Hall.
    rewrite Forall_forall in Hall. apply Hall.
    exact (selected_In AstContext.added_lines AstContext.size
                       all addedLines u Hsel). }
  destruct Hok as [_ [Hin_u Hsize_u]].
  pose proof (Hmin c Hc_all Hline) as Hle.
  pose proof (limitSectionSize_lines u code config) as Hlim.
  cbv zeta in Hlim. destruct Hlim as [Hs [He Ha]].
  eexists. exists (AstContext.limitSectionSize u code config).
  split.
  { apply (extractJsAstContext_parsed w filePath addedLines projectRoot
             config code ast); assumption. }
  cbn [impacted_sections]. split; [| split; [| split]].
  - unfold js_sections.
    exact (in_map (fun section =>
                     AstContext.limitSectionSize section code config)
                  _ u Hsel).
  - now rewrite Ha.
  - rewrite Hs, He. now apply Hin_u.
  - rewrite Hs, He. lia.
Qed.

(** X14 at the script file: line 4 lies in the method [m], of lines 3
    to 5. *)
Lemma js_section_is_smallest_unit_around_line_witness :
  exists r s,
    AstContext.extractJsAstContext world_js (lit "src/shape.js") [4] (lit "/repo")
    = Ok r
    /\ In s (impacted_sections r)
    /\ In 4 (Sec.added_lines s)
    /\ Sec.start_line s <= 4 <= Sec.end_line s
    /\ Sec.end_line s - Sec.start_line s <= 5 - 3.
Proof.
  apply (js_section_is_smallest_unit_around_line
           world_js (lit "src/shape.js") [4] (lit "/repo")
           config_default shape_js shape_ast shape_method_path 3 5 4).
  - reflexivity.
  - reflexivity.
  - discriminate.
  - reflexivity.
  - unfold scopes_pass. vm_compute. repeat constructor.
  - vm_compute. tauto.
  - reflexivity.
  - reflexivity.
  - now left.
  - lia.
Defined.

(* ================================================================== *)
(** ** The Vue extractor: its selector and its script blocks *)
(* ================================================================== *)

Lemma existsb_filter_length {A : Type} (f : A -> bool) (l : list A) :
  existsb f l = (Z.of_nat (List.length (filter f l)) >? 0).
Proof.
  induction l as [| x l IH]; cbn [existsb filter]; [reflexivity |].
  destruct (f x); cbn [orb List.length]; [| exact IH].
  symmetry. rewrite Z.gtb_ltb. apply Z.ltb_lt. lia.
Qed.

Lemma vue_select_loop_generic (config : AstConfig) (addedLines : numset)
      (sorted : list AstContextVue.Unit) :
  Forall (read_from addedLines) sorted ->
  forall (selected : list AstContextVue.Unit) (coveredLines : numset),
    AstContextVue.select_loop config addedLines sorted
      (map (fun u => AstContextVue.applySectionSizeLimit u config) selected)
      coveredLines
    = map (fun u => AstContextVue.applySectionSizeLimit u config)
          (AstUtils.select_loop AstContextVue.added_lines sorted selected
                                coveredLines).
Proof.
  induction 1 as [| s rest Hs _ IH]; intros selected coveredLines;
    cbn [AstContextVue.select_loop AstUtils.select_loop]; [reflexivity |].
  unfold read_from in Hs. rewrite <- Hs.
  rewrite existsb_filter_length.
  destruct (Z.of_nat _ >? 0).
  - rewrite <- IH. now rewrite map_app.
  - apply IH.
Qed.

Lemma vue_selector_generic (config : AstConfig)
      (sections : list AstContextVue.Unit) (addedLines : numset) :
  Forall (read_from addedLines) sections ->
  AstContextVue.selectSmallestSections config sections addedLines
  = map (fun u => AstContextVue.applySectionSizeLimit u config)
        (AstUtils.selectSmallestSections
           AstContextVue.size AstContextVue.added_lines sections addedLines).
Proof.
  intros H.
  unfold AstContextVue.selectSmallestSections, AstUtils.selectSmallestSections.
  destruct sections as [| s [| s' rest]]; [reflexivity | reflexivity |].
  apply (vue_select_loop_generic config addedLines _ ) with (selected := []).
  apply Forall_forall. intros u Hu. apply sort_by_In in Hu.
  rewrite Forall_forall in H. now apply H.
Qed.

(** X15. The selector of the Vue extractor is the selector of
    src/ast_utils.js followed by [applySectionSizeLimit].  It reads the
    lines of a unit again from the added-line set by the unit's range;
    for units that list exactly those lines, as the collector builds
    them, this selects the same units in the same order. *)
Theorem vue_selector_is_the_generic_one
        (config : AstConfig) (sections : list AstContextVue.Unit)
        (addedLines : numset) :
  Forall (read_from addedLines) sections ->
  AstContextVue.selectSmallestSections config sections addedLines
  = map (fun u => AstContextVue.applySectionSizeLimit u config)
        (AstUtils.selectSmallestSections
           AstContextVue.size AstContextVue.added_lines sections addedLines).
Proof. apply vue_selector_generic. Qed.

(** What the collector pushes for a node: at most one unit, which
    lists the lines of the set in its range, has one at least, and
    whose size is the number of lines of the range. *)
Lemma unit_at_shape (scriptContent : jsstring) (addedLines : numset)
      (p : Path) (u : AstContextVue.Unit) :
  In u (unit_at scriptContent addedLines p) ->
  read_from addedLines u
  /\ AstContextVue.added_lines u <> []
  /\ AstContextVue.size u
     = AstContextVue.end_line u - AstContextVue.start_line u + 1.
Proof.
  unfold unit_at, read_from.
  destruct (AstContextVue.isScriptTargetNode p); [| intros []].
  destruct (node_loc (fst p)) as [[lo hi] |]; [| intros []].
  destruct (filter _ addedLines) as [| l ls] eqn:E; [intros [] |].
  intros [<- | []]. cbn. rewrite E.
  split; [reflexivity |]. split; [discriminate | reflexivity].
Qed.

Lemma script_units_shape (config : AstConfig) (scriptContent : jsstring)
      (ast : Node) (addedLines : numset) (u : AstContextVue.Unit) :
  In u (script_units config scriptContent ast addedLines) ->
  read_from addedLines u
  /\ AstContextVue.added_lines u <> []
  /\ AstContextVue.size u
     = AstContextVue.end_line u - AstContextVue.start_line u + 1.
Proof.
  unfold script_units. intros H. apply in_flat_map in H.
  destruct H as [p [_ H]]. eapply unit_at_shape, H.
Qed.

(** X15 at the units of the script block of the component file, with
    lines 5 and 10 of the block added. *)
Lemma vue_selector_is_the_generic_one_witness :
  AstContextVue.selectSmallestSections config_default
    (script_units config_default panel_script panel_ast [5; 10]) [5; 10]
  = map (fun u => AstContextVue.applySectionSizeLimit u config_default)
        (AstUtils.selectSmallestSections
           AstContextVue.size AstContextVue.added_lines
           (script_units config_default panel_script panel_ast [5; 10])
           [5; 10]).
Proof.
  apply (vue_selector_is_the_generic_one
           config_default
           (script_units config_default panel_script panel_ast [5; 10])
           [5; 10]).
  vm_compute. repeat constructor.
Defined.

Lemma adjustAddedLines_moved (addedLines : numset) (o k : Z) :
  AstContextVue.adjustAddedLines (map (fun l => l + k) addedLines) (o + k)
  = AstContextVue.adjustAddedLines addedLines o.
Proof.
  unfold AstContextVue.adjustAddedLines. f_equal.
  induction addedLines as [| l ls IH]; cbn [map filter]; [reflexivity |].
  replace (l + k >=? o + k) with (l >=? o)
    by (rewrite !Z.geb_leb; apply Bool.eq_true_iff_eq;
        rewrite !Z.leb_le; lia).
  destruct (l >=? o); cbn [map]; rewrite IH; [f_equal; lia | reflexivity].
Qed.

Lemma toFileLines_moved (o k : Z) (u : AstContextVue.Unit) :
  AstContextVue.toFileLines (o + k) u
  = moved_down k (AstContextVue.toFileLines o u).
Proof.
  unfold AstContextVue.toFileLines, moved_down. cbn.
  f_equal; try lia.
  rewrite map_map. apply map_ext. intros l. lia.
Qed.

(** X16. A script block that moves down the file takes its Sections
    with it and nothing else changes: when the block and the added
    lines are [k] lines further down, [extractScriptContext] returns the
    same Sections [k] lines further down, with the same snippets and
    the same errors.  The snippets, and the line numbers written into a
    snippet cut at the line limit, are those of the block and not of
    the file. *)
Theorem script_context_moves_with_the_block
        (w : World) (scriptContent : jsstring) (addedLines : numset)
        (scriptStartLine k : Z) :
  AstContextVue.extractScriptContext
    w scriptContent (map (fun l => l + k) addedLines) (scriptStartLine + k)
  = match AstContextVue.extractScriptContext
            w scriptContent addedLines scriptStartLine with
    | Ok r =>
        Ok {| AstContextVue.sections :=
                map (moved_down k) (AstContextVue.sections r);
              AstContextVue.script_errors := AstContextVue.script_errors r |}
    | Throw e => Throw e
    end.
Proof.
  unfold AstContextVue.extractScriptContext.
  destruct (getAstConfig w) as [config | e]; cbn [bind]; [| reflexivity].
  destruct (parseScript w scriptContent) as [ast | e]; [| reflexivity].
  rewrite adjustAddedLines_moved.
  destruct (Z.of_nat _ =? 0); [reflexivity |].
  destruct (AstContextVue.collectScriptSections _ _ _ _ ast) as [all | e];
    [| reflexivity].
  cbn [AstContextVue.sections AstContextVue.script_errors].
  rewrite map_map. do 2 f_equal.
  apply map_ext. intros u. apply toFileLines_moved.
Qed.

Lemma unit_at_holds (scriptContent : jsstring) (addedLines : numset)
      (p : Path) (lo hi line : Z) :
  AstContextVue.isScriptTargetNode p = true ->
  node_loc (fst p) = Some (lo, hi) ->
  In line addedLines ->
  lo <= line <= hi ->
  exists u,
    unit_at scriptContent addedLines p = [u]
    /\ In line (AstContextVue.added_lines u)
    /\ AstContextVue.size u = hi - lo + 1.
Proof.
  intros Ht Hloc Hin Hr. unfold unit_at. rewrite Ht, Hloc.
  assert (Hf : In line (filter (fun lineNumber =>
                                  (lineNumber >=? lo) && (lineNumber <=? hi))
                               addedLines)).
  { apply filter_In. split; [assumption |].
    apply andb_true_iff. split;
      [rewrite Z.geb_leb; apply Z.leb_le | apply Z.leb_le]; lia. }
  destruct (filter _ addedLines) as [| l ls]; [contradiction |].
  eexists. split; [reflexivity |]. split; [exact Hf | reflexivity].
Qed.

(** Every unit comes from a node that the walk looked at. *)
Lemma collectScriptSections_from
      (w : World) (scriptContent : jsstring) (addedLines : numset)
      (config : AstConfig) (ast : Node)
      (all : list AstContextVue.Unit) (u : AstContextVue.Unit) :
  AstContextVue.collectScriptSections w scriptContent addedLines config ast
  = Ok all ->
  In u all ->
  exists p, In p (walked config ast)
            /\ In u (unit_at scriptContent addedLines p).
Proof.
  rewrite collectScriptSections_walk. intros H Hu.
  apply collected_found in H. subst all.
  apply in_flat_map in Hu. destruct Hu as [p [Hp Hu]].
  exists p. split; [now apply walk_examined in Hp | exact Hu].
Qed.

Lemma extractScriptContext_parsed
      (w : World) (scriptContent : jsstring) (addedLines : numset)
      (scriptStartLine : Z) (config : AstConfig) (ast : Node) :
  getAstConfig w = Ok config ->
  parseScript w scriptContent = Ok ast ->
  scopes_pass w ast ->
  AstContextVue.adjustAddedLines addedLines scriptStartLine <> [] ->
  AstContextVue.extractScriptContext w scriptContent addedLines scriptStartLine
  = Ok {| AstContextVue.sections :=
            map (fun u =>
                   AstContextVue.toFileLines scriptStartLine
                     (AstContextVue.applySectionSizeLimit u config))
                (AstUtils.selectSmallestSections
                   AstContextVue.size AstContextVue.added_lines
                   (script_units config scriptContent ast
                      (AstContextVue.adjustAddedLines addedLines scriptStartLine))
                   (AstContextVue.adjustAddedLines addedLines scriptStartLine));
          AstContextVue.script_errors := [] |}.
Proof.
  intros Hc Hp Hq Hne. unfold AstContextVue.extractScriptContext.
  rewrite Hc. cbn [bind]. rewrite Hp.
  destruct (AstContextVue.adjustAddedLines addedLines scriptStartLine)
    as [| l ls] eqn:E; [contradiction |].
  replace (Z.of_nat (List.length (l :: ls)) =? 0) with false
    by (symmetry; apply Z.eqb_neq; cbn [List.length]; lia).
  rewrite (collectScriptSections_quiet w scriptContent (l :: ls) config ast Hq).
  fold (script_units config scriptContent ast (l :: ls)).
  rewrite vue_selector_generic.
  - now rewrite map_map.
  - apply Forall_forall. intros u Hu.
    exact (proj1 (script_units_shape _ _ _ _ u Hu)).
Qed.

(** X17. The same for a script block of a component file.  When the
    block parses, the library sets up the scopes of its tree without a
    throw, and a function, method or class that the walk reaches
    spans, in the lines of the block, an added line of the file, then
    [extractScriptContext] returns without error a Section that holds
    that line of the file, spans it in the lines of the file, and is
    not longer than the function, method or class. *)
Theorem script_section_is_smallest_unit_around_line
        (w : World) (scriptContent : jsstring) (addedLines : numset)
        (scriptStartLine : Z) (config : AstConfig) (ast : Node)
        (p : Path) (lo hi line : Z) :
  getAstConfig w = Ok config ->
  parseScript w scriptContent = Ok ast ->
  scopes_pass w ast ->
  In p (walked config ast) ->
  AstContextVue.isScriptTargetNode p = true ->
  node_loc (fst p) = Some (lo, hi) ->
  In line addedLines ->
  scriptStartLine <= line ->
  lo <= line - scriptStartLine + 1 <= hi ->
  exists r s,
    AstContextVue.extractScriptContext w scriptContent addedLines scriptStartLine
    = Ok r
    /\ AstContextVue.script_errors r = []
    /\ In s (AstContextVue.sections r)
    /\ In line (Sec.added_lines s)
    /\ Sec.start_line s <= line <= Sec.end_line s
    /\ Sec.end_line s - Sec.start_line s <= hi - lo.
Proof.
  intros Hc Hp Hq Hw Ht Hloc Hin Hstart Hrange.
  set (adjusted := AstContextVue.adjustAddedLines addedLines scriptStartLine).
  assert (Hadj : In (line - scriptStartLine + 1) adjusted).
  { apply adjustAddedLines_In. exists line. auto. }
  destruct (unit_at_holds scriptContent adjusted p lo hi _ Ht Hloc Hadj Hrange)
    as [c [Hcand [Hline Hsize]]].
  set (all := script_units config scriptContent ast adjusted).
  assert (Hc_all : In c all).
  { apply in_flat_map. exists p. split; [assumption |]. rewrite Hcand. now left. }
  assert (Hlines : In (line - scriptStartLine + 1)
                      (lines_of AstContextVue.added_lines all)).
  { unfold lines_of. apply in_flat_map. now exists c. }
  destruct (selected_smallest_holder
              AstContextVue.added_lines AstContextVue.size
              all adjusted _ Hlines)
    as (pre & u & post & E & Hu & _ & Hmin).
  assert (Hsel : In u (AstUtils.selectSmallestSections
                         AstContextVue.size AstContextVue.added_lines
                         all adjusted)).
  { rewrite E. apply in_elt. }
  pose proof (selected_In AstContextVue.added_lines AstContextVue.size
                          all adjusted u Hsel) as Hu_all.
  destruct (script_units_shape _ _ _ _ u Hu_all) as [Hread [_ Hsize_u]].
  pose proof (Hmin c Hc_all Hline) as Hle.
  pose proof (applySectionSizeLimit_lines u config) as Hlim.
  cbv zeta in Hlim. destruct Hlim as [Hs [He Ha]].
  assert (Hin_u : AstContextVue.start_line u <= line - scriptStartLine + 1
                  <= AstContextVue.end_line u).
  { unfold read_from in Hread. rewrite Hread in Hu.
    apply filter_In in Hu. destruct Hu as [_ Hb].
    apply andb_true_iff in Hb. destruct Hb as [Hb1 Hb2].
    rewrite Z.geb_leb in Hb1. apply Z.leb_le in Hb1. apply Z.leb_le in Hb2.
    lia. }
  eexists.
  exists (AstContextVue.toFileLines scriptStartLine
            (AstContextVue.applySectionSizeLimit u config)).
  split.
  { apply (extractScriptContext_parsed w scriptContent addedLines
             scriptStartLine config ast Hc Hp Hq).
    fold adjusted. intros Hnil. rewrite Hnil in Hadj. contradiction. }
  cbn [AstContextVue.sections AstContextVue.script_errors].
  split; [reflexivity |]. split; [| split; [| split]].
  - exact (in_map (fun u =>
                     AstContextVue.toFileLines scriptStartLine
                       (AstContextVue.applySectionSizeLimit u config))
                  _ u Hsel).
  - cbn [AstContextVue.toFileLines Sec.added_lines]. rewrite Ha.
    apply in_map_iff. exists (line - scriptStartLine + 1).
    split; [lia | assumption].
  - cbn [AstContextVue.toFileLines Sec.start_line Sec.end_line].
    rewrite Hs, He. lia.
  - cbn [AstContextVue.toFileLines Sec.start_line Sec.end_line].
    rewrite Hs, He. lia.
Qed.

(** X17 at the component file: line 13 of the file is line 10 of the
    script block, which starts on line 4; it lies in the method [b],
    of lines 9 to 11 of the block. *)
Lemma script_section_is_smallest_unit_around_line_witness :
  exists r s,
    AstContextVue.extractScriptContext world_vue panel_script [2; 8; 13] 4
    = Ok r
    /\ AstContextVue.script_errors r = []
    /\ In s (AstContextVue.sections r)
    /\ In 13 (Sec.added_lines s)
    /\ Sec.start_line s <= 13 <= Sec.end_line s
    /\ Sec.end_line s - Sec.start_line s <= 11 - 9.
Proof.
  apply (script_section_is_smallest_unit_around_line
           world_vue panel_script [2; 8; 13] 4
           config_default panel_ast panel_method_path 9 11 13).
  - reflexivity.
  - reflexivity.
  - unfold scopes_pass. vm_compute. repeat constructor.
  - vm_compute. tauto.
  - reflexivity.
  - reflexivity.
  - cbn. tauto.
  - lia.
  - lia.
Defined.

(* ================================================================== *)
(** ** The lines of a component block *)
(* ================================================================== *)

Lemma unit_at_node (scriptContent : jsstring) (addedLines : numset)
      (p : Path) (u : AstContextVue.Unit) :
  In u (unit_at scriptContent addedLines p) ->
  AstContextVue.isScriptTargetNode p = true
  /\ node_loc (fst p)
     = Some (AstContextVue.start_line u, AstContextVue.end_line u).
Proof.
  unfold unit_at.
  destruct (AstContextVue.isScriptTargetNode p); [| intros []].
  destruct (node_loc (fst p)) as [[lo hi] |]; [| intros []].
  destruct (filter _ addedLines) as [| l ls]; [intros [] |].
  intros [<- | []]. cbn. auto.
Qed.

(** C7. Component-region line remapping.  For a block that starts on
    line [o] of the file: the set handed to the collector holds exactly
    the lines [g - o + 1] for the added lines [g >= o] (the lines before
    [o] are dropped).  Every returned Section is built from one unit of
    the block: a function, method or class node of the parsed block,
    reached by the walk, whose location in the lines of the block is
    the range of the unit and whose [added_lines] are the lines of that
    set in the range; the Section is this unit after
    [applySectionSizeLimit], with [start_line], [end_line] and
    [added_lines] carried back by [local + o - 1].  The two maps compose
    to the identity, so that the [added_lines] of the returned Sections
    are added lines [g >= o] of the file. *)
Theorem region_remap_round_trip
        (w : World) (scriptContent : jsstring) (addedLines : numset) (o : Z)
        (r : AstContextVue.ScriptResult) :
  AstContextVue.extractScriptContext w scriptContent addedLines o = Ok r ->
  (forall l, In l (AstContextVue.adjustAddedLines addedLines o)
             <-> exists g, In g addedLines /\ o <= g /\ l = g - o + 1)
  /\ (forall s, In s (AstContextVue.sections r) ->
        exists config ast p u,
          getAstConfig w = Ok config
          /\ parseScript w scriptContent = Ok ast
          /\ In p (walked config ast)
          /\ AstContextVue.isScriptTargetNode p = true
          /\ node_loc (fst p)
             = Some (AstContextVue.start_line u, AstContextVue.end_line u)
          /\ In u (unit_at scriptContent
                           (AstContextVue.adjustAddedLines addedLines o) p)
          /\ read_from (AstContextVue.adjustAddedLines addedLines o) u
          /\ unit_ok (AstContextVue.adjustAddedLines addedLines o) u
          /\ s = AstContextVue.toFileLines
                   o (AstContextVue.applySectionSizeLimit u config)
          /\ Sec.start_line s = AstContextVue.start_line u + o - 1
          /\ Sec.end_line s = AstContextVue.end_line u + o - 1
          /\ Sec.added_lines s
             = map (fun l => l + o - 1) (AstContextVue.added_lines u)
          /\ forall g, In g (Sec.added_lines s) -> In g addedLines /\ o <= g)
  /\ (forall g, In g addedLines -> o <= g ->
        In (g - o + 1) (AstContextVue.adjustAddedLines addedLines o)
        /\ (g - o + 1) + o - 1 = g).
Proof.
  intros Hr. split; [| split].
  - intros l. apply adjustAddedLines_In.
  - intros s Hs. revert Hr Hs.
    unfold AstContextVue.extractScriptContext.
    destruct (getAstConfig w) as [config | e] eqn:Hc; cbn [bind];
      [| discriminate].
    destruct (parseScript w scriptContent) as [ast | e] eqn:Hp.
    2: { intros H. injection H as <-. intros []. }
    destruct (Z.of_nat _ =? 0).
    { intros H. injection H as <-. intros []. }
    destruct (AstContextVue.collectScriptSections _ _ _ _ ast)
      as [all | e] eqn:E.
    2: { intros H. injection H as <-. intros []. }
    intros H. injection H as <-. cbn [AstContextVue.sections].
    intros Hs. apply in_map_iff in Hs. destruct Hs as [v [<- Hv]].
    apply vue_selected_from in Hv. destruct Hv as [u [Hu ->]].
    destruct (collectScriptSections_from _ _ _ _ _ _ u E Hu) as [p [Hw Hat]].
    destruct (unit_at_node _ _ _ _ Hat) as [Ht Hloc].
    destruct (unit_at_shape _ _ _ _ Hat) as [Hread _].
    pose proof (collectScriptSections_ok _ _ _ _ _ _ E) as Hall.
    rewrite Forall_forall in Hall. pose proof (Hall u Hu) as Hok.
    pose proof (applySectionSizeLimit_lines u config) as Hlim.
    cbv zeta in Hlim. destruct Hlim as [H1 [H2 H3]].
    assert (Hok' : unit_ok (AstContextVue.adjustAddedLines addedLines o)
                           (AstContextVue.applySectionSizeLimit u config)).
    { destruct Hok as [Hne Hin]. split.
      - now rewrite H3.
      - intros l Hl. rewrite H3 in Hl. rewrite H1, H2. now apply Hin. }
    exists config, ast, p, u.
    split; [reflexivity |]. split; [reflexivity |].
    split; [exact Hw |]. split; [exact Ht |]. split; [exact Hloc |].
    split; [exact Hat |]. split; [exact Hread |]. split; [exact Hok |].
    split; [reflexivity |].
    cbn [AstContextVue.toFileLines Sec.start_line Sec.end_line Sec.added_lines].
    rewrite H1, H2, H3.
    split; [reflexivity |]. split; [reflexivity |]. split; [reflexivity |].
    pose proof (proj2 (toFileLines_ok addedLines o _ Hok')) as Hback.
    cbn [AstContextVue.toFileLines Sec.added_lines] in Hback.
    rewrite H3 in Hback. exact Hback.
  - intros g Hg Ho. split; [| lia].
    apply adjustAddedLines_In. exists g. auto.
Qed.

(** C7 on the component file: added line 8 of the file is line 5 of the
    block, and comes back as line 8. *)
Lemma region_remap_round_trip_witness :
  In 5 (AstContextVue.adjustAddedLines [2; 8; 13] 4)
  /\ map Sec.added_lines (AstContextVue.sections panel_result) = [[13]; [8]]
  /\ (8 - 4 + 1) + 4 - 1 = 8.
Proof.
  assert (Hr : AstContextVue.extractScriptContext world_vue panel_script [2; 8; 13] 4
               = Ok panel_result) by (vm_compute; reflexivity).
  destruct (region_remap_round_trip _ _ _ _ _ Hr) as [_ [_ H3]].
  destruct (H3 8) as [Hin Hback]; [simpl; tauto | lia |].
  split; [exact Hin | split; [reflexivity | exact Hback]].
Defined.

(* ================================================================== *)
(** ** The two line counters of src/diff_utils.js *)
(* ================================================================== *)

Lemma strip_head (c : N) (p s r : jsstring) :
  DiffUtils.strip (c :: p) s = Some r -> exists s', s = c :: s'.
Proof.
  unfold DiffUtils.strip. destruct s as [| y s']; cbn [startsWith];
    [discriminate |].
  destruct (N.eqb_spec c y) as [-> | _]; [| discriminate].
  intros _. now exists s'.
Qed.

(** Before a space, [(,\d+)?] and [,?(\d+)?] consume the same. *)
Lemma optional_count_agrees (p s r : jsstring) :
  DiffUtils.strip (32%N :: p) (DiffUtils.opt_comma_digits s) = Some r ->
  DiffUtils.opt_comma_opt_digits s = DiffUtils.opt_comma_digits s.
Proof.
  unfold DiffUtils.opt_comma_digits, DiffUtils.opt_comma_opt_digits.
  destruct (DiffUtils.strip (lit ",") s) as [s1 |] eqn:Ec.
  - unfold DiffUtils.digits1.
    destruct (DiffUtils.span_digits s1) as [[| d ds] r'] eqn:Es.
    + intros H. apply strip_head in H. destruct H as [s' ->].
      discriminate Ec.
    + intros _. reflexivity.
  - intros H. apply strip_head in H. destruct H as [s' ->]. reflexivity.
Qed.

(** Where the pattern of [parseDiffNewlineMap] matches, the pattern of
    [splitHunks] matches too, and reads the same new start. *)
Lemma new_start_at_starts_at (line g : jsstring) :
  DiffUtils.new_start_at line = Some g ->
  exists g1, DiffUtils.starts_at line = Some (g1, g).
Proof.
  unfold DiffUtils.new_start_at, DiffUtils.starts_at, DiffUtils.opt_bind.
  destruct (DiffUtils.strip (lit "@@ -") line) as [s1 |]; [| discriminate].
  destruct (DiffUtils.digits1 s1) as [[g1 s2] |]; [| discriminate].
  destruct (DiffUtils.strip (lit " +") (DiffUtils.opt_comma_digits s2))
    as [s3 |] eqn:E3; [| discriminate].
  rewrite (optional_count_agrees _ _ _ E3), E3.
  destruct (DiffUtils.digits1 s3) as [[g3 s4] |]; [| discriminate].
  destruct (DiffUtils.strip (lit " @@") (DiffUtils.opt_comma_digits s4))
    as [s5 |] eqn:E5; [| discriminate].
  rewrite (optional_count_agrees _ _ _ E5), E5.
  intros H. injection H as <-. now exists g1.
Qed.

Lemma new_start_at_header (line g : jsstring) :
  DiffUtils.new_start_at line = Some g ->
  DiffUtils.new_start_exec line = Some g
  /\ (exists g1, DiffUtils.starts_match line = Some (g1, g))
  /\ 0 <= parseInt g.
Proof.
  intros H. split; [| split].
  - destruct line; cbn [DiffUtils.new_start_exec]; now rewrite H.
  - destruct (new_start_at_starts_at line g H) as [g1 E]. exists g1.
    destruct line; cbn [DiffUtils.starts_match]; now rewrite E.
  - apply parseInt_nonneg. eapply new_start_at_digits, H.
Qed.

Lemma numbered_new_eq (h : DiffUtils.Hunk) :
  DiffUtils.numbered_new (DiffUtils.computeHunkLineNumbers h)
  = combine (consecutive (DiffUtils.newStart h)
               (List.length (filter new_side (tl (DiffUtils.hunkLines h)))))
            (filter new_side (tl (DiffUtils.hunkLines h))).
Proof.
  unfold DiffUtils.computeHunkLineNumbers. cbn [DiffUtils.numbered_new].
  pose proof (number_fold (DiffUtils.newStart h) (DiffUtils.oldStart h)
                          (tl (DiffUtils.hunkLines h))
                          {| DiffUtils.temp := [];
                             DiffUtils.maxHeaderLength := 0;
                             DiffUtils.oldLinesMap := [];
                             DiffUtils.newLinesMap := [];
                             DiffUtils.oldLineNumber := DiffUtils.oldStart h;
                             DiffUtils.newLineNumber := DiffUtils.newStart h |}
                          [] []) as H.
  destruct H as [Hn _].
  - unfold numbered_so_far. cbn. repeat split; lia.
  - exact Hn.
Qed.

(** One more line in a hunk: one more number when the line is added. *)
Lemma added_numbers_snoc (h : DiffUtils.Hunk) (line : jsstring) :
  DiffUtils.hunkLines h <> [] ->
  (startsWith (lit "-") line = true -> is_added line = false) ->
  added_numbers
    {| DiffUtils.oldStart := DiffUtils.oldStart h;
       DiffUtils.newStart := DiffUtils.newStart h;
       DiffUtils.hunkLines := DiffUtils.hunkLines h ++ [line] |}
  = added_numbers h
      ++ (if is_added line
          then [DiffUtils.newStart h
                + Z.of_nat (List.length
                              (filter new_side (tl (DiffUtils.hunkLines h))))]
          else []).
Proof.
  intros Hne Hminus. unfold added_numbers. rewrite !numbered_new_eq.
  cbn [DiffUtils.newStart DiffUtils.hunkLines].
  destruct (DiffUtils.hunkLines h) as [| header body]; [contradiction |].
  cbn [app tl]. rewrite filter_app. cbn [filter].
  unfold new_side at 2 4.
  destruct (startsWith (lit "-") line) eqn:Em; cbn [negb].
  - rewrite (Hminus eq_refl), !app_nil_r. reflexivity.
  - rewrite length_app. cbn [List.length]. rewrite Nat.add_1_r, consecutive_snoc.
    rewrite combine_snoc by apply consecutive_length.
    rewrite filter_app, map_app. cbn [filter snd].
    now destruct (is_added line).
Qed.

Lemma added_numbers_header (oldStart newStart : Z) (header : jsstring) :
  added_numbers {| DiffUtils.oldStart := oldStart;
                   DiffUtils.newStart := newStart;
                   DiffUtils.hunkLines := [header] |} = [].
Proof. unfold added_numbers. now rewrite numbered_new_eq. Qed.

Lemma added_starts_with_plus (line : jsstring) :
  startsWith (lit "-") line = true -> is_added line = false.
Proof.
  intros Hm. unfold is_added.
  destruct (startsWith (lit "+") line) eqn:Ep; [| reflexivity].
  apply plus_is_not_minus in Ep. congruence.
Qed.

(** Inside the hunks the two counters run together: what the loop of
    [parseDiffNewlineMap] gives the added lines is what
    [computeHunkLineNumbers] gives them, hunk after hunk. *)
Lemma counters_agree_in_hunks (lines : list jsstring) :
  forall hunks current i,
    Forall (fun line => startsWith (lit "@@") line = true ->
                        DiffUtils.new_start_at line <> None) lines ->
    Forall (fun line => startsWith (lit "---") line = false) lines ->
    DiffUtils.hunkLines current <> [] ->
    0 <= DiffUtils.newStart current ->
    exists hunks' current',
      fold_left DiffUtils.split_step lines (hunks, current, true)
      = (hunks', current', true)
      /\ DiffUtils.hunkLines current' <> []
      /\ flat_map added_numbers (hunks' ++ [current'])
         = flat_map added_numbers (hunks ++ [current])
             ++ map snd
                  (DiffUtils.parse_loop lines i []
                     (DiffUtils.newStart current
                      + Z.of_nat
                          (List.length
                             (filter new_side
                                     (tl (DiffUtils.hunkLines current)))))).
Proof.
  induction lines as [| line rest IH]; intros hunks current i Hh Hd Hne Hpos.
  - exists hunks, current. cbn [fold_left DiffUtils.parse_loop map].
    now rewrite app_nil_r.
  - inversion Hh as [| ? ? Hline Hh']; subst.
    inversion Hd as [| ? ? Hdash Hd']; subst.
    cbn [fold_left].
    set (cur := DiffUtils.newStart current
                + Z.of_nat (List.length
                              (filter new_side
                                      (tl (DiffUtils.hunkLines current))))).
    assert (Hcur : negb (cur =? -1) = true).
    { apply negb_true_iff, Z.eqb_neq. subst cur. lia. }
    destruct (startsWith (lit "@@") line) eqn:Hat.
    + destruct (DiffUtils.new_start_at line) as [g |] eqn:Eg;
        [| now contradiction (Hline eq_refl)].
      destruct (new_start_at_header line g Eg) as [Eexec [[g1 Em] Hg]].
      rewrite (split_step_header hunks current line Hat Hne).
      assert (Eo : opened_by line
                   = {| DiffUtils.oldStart := parseInt g1;
                        DiffUtils.newStart := parseInt g;
                        DiffUtils.hunkLines := [line] |})
        by (unfold opened_by; now rewrite Em).
      rewrite Eo.
      destruct (IH (hunks ++ [current])
                   {| DiffUtils.oldStart := parseInt g1;
                      DiffUtils.newStart := parseInt g;
                      DiffUtils.hunkLines := [line] |} (i + 1) Hh' Hd')
        as (hs & c & E & Hc & Hnum);
        [discriminate | exact Hg |].
      exists hs, c. split; [exact E |]. split; [exact Hc |].
      rewrite Hnum. cbn [DiffUtils.newStart DiffUtils.hunkLines tl filter
                         List.length DiffUtils.parse_loop].
      rewrite Hat, Eexec, Z.add_0_r.
      rewrite (flat_map_app added_numbers (hunks ++ [current])).
      cbn [flat_map]. rewrite added_numbers_header.
      now rewrite !app_nil_r.
    + rewrite (split_step_body hunks current line Hat).
      destruct (IH hunks
                   {| DiffUtils.oldStart := DiffUtils.oldStart current;
                      DiffUtils.newStart := DiffUtils.newStart current;
                      DiffUtils.hunkLines := DiffUtils.hunkLines current ++ [line] |}
                   (i + 1) Hh' Hd')
        as (hs & c & E & Hc & Hnum).
      * cbn [DiffUtils.hunkLines]. now destruct (DiffUtils.hunkLines current).
      * exact Hpos.
      * exists hs, c. split; [exact E |]. split; [exact Hc |].
        rewrite Hnum. clear Hnum E IH.
        rewrite !flat_map_app. cbn [flat_map]. rewrite !app_nil_r.
        rewrite (added_numbers_snoc current line Hne
                                    (added_starts_with_plus line)).
        fold cur. rewrite <- !app_assoc. do 2 f_equal.
        cbn [DiffUtils.newStart DiffUtils.hunkLines DiffUtils.parse_loop].
        rewrite Hat. fold (is_added line).
        assert (Etl : tl (DiffUtils.hunkLines current ++ [line])
                      = tl (DiffUtils.hunkLines current) ++ [line])
          by (now destruct (DiffUtils.hunkLines current)).
        rewrite Etl, filter_app, length_app. cbn [filter].
        unfold new_side at 2.
        destruct (is_added line) eqn:Ea.
        -- rewrite Hcur.
           assert (Em : startsWith (lit "-") line = false).
           { destruct (startsWith (lit "-") line) eqn:Em; [| reflexivity].
             apply added_starts_with_plus in Em. congruence. }
           rewrite Em. cbn [negb List.length app].
           rewrite (parse_loop_app rest (i + 1) [(i + 1, cur)]), map_app.
           cbn [app map snd]. do 3 f_equal. subst cur. lia.
        -- rewrite Hdash, orb_false_r.
           destruct (startsWith (lit "-") line); cbn [negb List.length app].
           ++ do 2 f_equal. subst cur. lia.
           ++ rewrite Hcur. do 2 f_equal. subst cur. lia.
Qed.

Lemma from_first_header_split (lines : list jsstring) :
  exists pre,
    lines = pre ++ from_first_header lines
    /\ Forall (fun line => startsWith (lit "@@") line = false) pre.
Proof.
  induction lines as [| line rest [pre [E Hpre]]].
  - exists []. split; [reflexivity | constructor].
  - cbn [from_first_header].
    destruct (startsWith (lit "@@") line) eqn:Hat.
    + exists []. split; [reflexivity | constructor].
    + exists (line :: pre). split; [cbn [app]; now rewrite <- E |].
      now constructor.
Qed.

(** X18. The two line counters of the file agree.  When the counters
    stay in the range in which the engine counts as the integers do
    (every start that a header names, advanced once per line of the
    diff, is at most 2^53), every [@@] line is a header that the pattern
    matches at its start, and no line of a hunk begins with [---], the
    new-file numbers that [parseDiffNewlineMap] gives the added lines
    are, hunk by hunk and in order, the numbers under which
    [computeHunkLineNumbers] files the lines that begin with [+] and
    not with [+++]: the added-line set of the review names the same
    lines as the numbered diff that the model is shown.  Each of these
    numbers is below 2^53. *)
Theorem added_lines_are_numbered_alike (diffText : jsstring) :
  new_lines_counted_exactly diffText = true ->
  headers_at_line_start diffText = true ->
  no_removed_dashes diffText = true ->
  map snd (DiffUtils.parseDiffNewlineMap diffText)
  = flat_map added_numbers (DiffUtils.splitHunks diffText)
  /\ Forall in_counting_range
            (map snd (DiffUtils.parseDiffNewlineMap diffText)).
Proof.
  intros Hex Hh Hd. split.
  2: { apply Forall_map. now apply parseDiffNewlineMap_in_range. }
  clear Hex. revert Hh Hd.
  unfold headers_at_line_start, no_removed_dashes,
    DiffUtils.parseDiffNewlineMap, DiffUtils.splitHunks.
  intros Hh Hd.
  rewrite forallb_forall in Hh. rewrite forallb_forall in Hd.
  destruct (from_first_header_split (split_lines diffText)) as [pre [E Hpre]].
  rewrite split_fold_before.
  rewrite E at 1.
  rewrite parse_loop_skips.
  2: { intros line Hin Hat. rewrite Forall_forall in Hpre.
       rewrite (Hpre line Hin) in Hat. discriminate. }
  destruct (from_first_header (split_lines diffText)) as [| header rest] eqn:Ef.
  - reflexivity.
  - pose proof (from_first_header_head _ _ _ Ef) as Hat.
    assert (Hin : In header (split_lines diffText)).
    { rewrite E. apply in_elt. }
    pose proof (Hh header Hin) as Hm. rewrite Hat in Hm. cbn [negb orb] in Hm.
    destruct (DiffUtils.new_start_at header) as [g |] eqn:Eg; [| discriminate].
    destruct (new_start_at_header header g Eg) as [Eexec [[g1 Em] Hg]].
    assert (Eo : opened_by header
                 = {| DiffUtils.oldStart := parseInt g1;
                      DiffUtils.newStart := parseInt g;
                      DiffUtils.hunkLines := [header] |})
      by (unfold opened_by; now rewrite Em).
    rewrite Eo.
    destruct (counters_agree_in_hunks rest []
                {| DiffUtils.oldStart := parseInt g1;
                   DiffUtils.newStart := parseInt g;
                   DiffUtils.hunkLines := [header] |}
                (0 + Z.of_nat (List.length pre) + 1))
      as (hs & c & Efold & Hc & Hnum).
    + apply Forall_forall. intros line Hl Hat'.
      assert (Hin' : In line (split_lines diffText)).
      { rewrite E. apply in_or_app. right. now right. }
      pose proof (Hh line Hin') as Hm'. rewrite Hat' in Hm'.
      cbn [negb orb] in Hm'.
      destruct (DiffUtils.new_start_at line); [discriminate | discriminate].
    + apply Forall_forall. intros line Hl.
      apply negb_true_iff. apply Hd. now right.
    + discriminate.
    + exact Hg.
    + rewrite Efold.
      destruct (DiffUtils.hunkLines c) as [| l ls] eqn:Ec; [contradiction |].
      cbn [DiffUtils.nonempty]. rewrite Hnum.
      cbn [DiffUtils.parse_loop]. rewrite Hat, Eexec.
      cbn [app flat_map DiffUtils.newStart DiffUtils.hunkLines tl filter
           List.length].
      rewrite added_numbers_header. cbn [app].
      now rewrite Z.add_0_r.
Qed.

(** X18 at a diff of two hunks. *)
Lemma added_lines_are_numbered_alike_witness :
  map snd (DiffUtils.parseDiffNewlineMap two_hunks_diff)
  = flat_map added_numbers (DiffUtils.splitHunks two_hunks_diff)
  /\ Forall in_counting_range
            (map snd (DiffUtils.parseDiffNewlineMap two_hunks_diff)).
Proof.
  apply (added_lines_are_numbered_alike two_hunks_diff); reflexivity.
Defined.

(* ================================================================== *)
(** ** The two size limits, from the file to the Sections *)
(* ================================================================== *)

Lemma limitSectionSize_within (c : AstContext.Candidate) (code : jsstring)
      (config : AstConfig) :
  AstContext.size c = AstContext.end_line c - AstContext.start_line c + 1 ->
  within_limits config (AstContext.limitSectionSize c code config).
Proof.
  intros Hsize. unfold within_limits, AstContext.limitSectionSize.
  destruct (_ >? maxSnippetLength config) eqn:Echar.
  { right. left. cbn. auto. }
  destruct (_ >? maxBlockSizeLines config) eqn:Eline.
  - right. right. cbn. rewrite Z.gtb_ltb in Eline. apply Z.ltb_lt in Eline.
    repeat split; try discriminate. lia.
  - left. cbn. rewrite Z.gtb_ltb in Echar, Eline.
    apply Z.ltb_ge in Echar. apply Z.ltb_ge in Eline.
    repeat split; [exact Echar | lia].
Qed.

Lemma applySectionSizeLimit_within (u : AstContextVue.Unit) (o : Z)
      (config : AstConfig) :
  AstContextVue.size u
  = AstContextVue.end_line u - AstContextVue.start_line u + 1 ->
  AstContextVue.is_truncated u = None ->
  AstContextVue.truncation_reason u = None ->
  AstContextVue.summary u = None ->
  within_limits config
    (AstContextVue.toFileLines o (AstContextVue.applySectionSizeLimit u config)).
Proof.
  intros Hsize Ht Hr Hs.
  unfold within_limits, AstContextVue.applySectionSizeLimit.
  destruct (_ >? maxSnippetLength config) eqn:Echar.
  { right. left. cbn. auto. }
  destruct (_ >? maxBlockSizeLines config) eqn:Eline.
  - right. right. cbn. rewrite Z.gtb_ltb in Eline. apply Z.ltb_lt in Eline.
    repeat split; try discriminate. lia.
  - left. cbn. rewrite Z.gtb_ltb in Echar, Eline.
    apply Z.ltb_ge in Echar. apply Z.ltb_ge in Eline.
    repeat split; try assumption. lia.
Qed.

Lemma unit_at_whole (scriptContent : jsstring) (addedLines : numset)
      (p : Path) (u : AstContextVue.Unit) :
  In u (unit_at scriptContent addedLines p) ->
  AstContextVue.is_truncated u = None
  /\ AstContextVue.truncation_reason u = None
  /\ AstContextVue.summary u = None.
Proof.
  unfold unit_at.
  destruct (AstContextVue.isScriptTargetNode p); [| intros []].
  destruct (node_loc (fst p)) as [[lo hi] |]; [| intros []].
  destruct (filter _ addedLines) as [| l ls]; [intros [] |].
  intros [<- | []]. cbn. auto.
Qed.

Lemma extractJsAstContext_within
      (w : World) (filePath : jsstring) (addedLines : numset)
      (projectRoot : jsstring) (config : AstConfig) (r : ExtractorResult) :
  getAstConfig w = Ok config ->
  AstContext.extractJsAstContext w filePath addedLines projectRoot = Ok r ->
  Forall (within_limits config) (impacted_sections r).
Proof.
  intros Hc. unfold AstContext.extractJsAstContext. rewrite Hc. cbn [bind].
  destruct (readFileSafe w filePath projectRoot) as [code |].
  2: { intros H. injection H as <-. constructor. }
  destruct (unreadable _).
  { intros H. injection H as <-. constructor. }
  destruct (parseCode w code) as [ast | e].
  2: { intros H. injection H as <-. constructor. }
  destruct (AstContext.collectImpactedSections _ _ _ ast) as [all | e] eqn:E.
  2: { intros H. injection H as <-. constructor. }
  intros H. injection H as <-. cbn [impacted_sections].
  apply collectImpactedSections_ok in E. rewrite Forall_forall in E.
  apply Forall_forall. intros s Hs. apply in_map_iff in Hs.
  destruct Hs as [u [<- Hu]].
  apply limitSectionSize_within.
  apply selected_In in Hu. exact (proj2 (proj2 (E u Hu))).
Qed.

Lemma extractScriptContext_within
      (w : World) (scriptContent : jsstring) (addedLines : numset) (o : Z)
      (config : AstConfig) (r : AstContextVue.ScriptResult) :
  getAstConfig w = Ok config ->
  AstContextVue.extractScriptContext w scriptContent addedLines o = Ok r ->
  Forall (within_limits config) (AstContextVue.sections r).
Proof.
  intros Hc. unfold AstContextVue.extractScriptContext. rewrite Hc. cbn [bind].
  destruct (parseScript w scriptContent) as [ast | e].
  2: { intros H. injection H as <-. constructor. }
  destruct (Z.of_nat _ =? 0).
  { intros H. injection H as <-. constructor. }
  destruct (AstContextVue.collectScriptSections _ _ _ _ ast) as [all | e] eqn:E.
  2: { intros H. injection H as <-. constructor. }
  intros H. injection H as <-. cbn [AstContextVue.sections].
  apply Forall_forall. intros s Hs. apply in_map_iff in Hs.
  destruct Hs as [v [<- Hv]].
  apply vue_selected_from in Hv. destruct Hv as [u [Hu ->]].
  destruct (collectScriptSections_from _ _ _ _ _ _ u E Hu) as [p [_ Hp]].
  destruct (unit_at_shape _ _ _ _ Hp) as [_ [_ Hsize]].
  destruct (unit_at_whole _ _ _ _ Hp) as [Ht [Hr Hs]].
  now apply applySectionSizeLimit_within.
Qed.

Lemma analyseBlock_within (w : World) (block : option SfcBlock)
      (addedLines : numset) (tag : jsstring) (config : AstConfig) :
  getAstConfig w = Ok config ->
  Forall (within_limits config)
         (fst (AstContextVue.analyseBlock w block addedLines tag)).
Proof.
  intros Hc. unfold AstContextVue.analyseBlock.
  destruct block as [b |]; [| constructor].
  destruct (truthy _); [| constructor].
  destruct (AstContextVue.extractScriptContext _ _ _ _) as [r | e] eqn:E;
    [| constructor].
  cbn [fst]. eapply extractScriptContext_within; eassumption.
Qed.

Lemma extractVueAstContext_within
      (w : World) (filePath : jsstring) (addedLines : numset)
      (projectRoot : jsstring) (config : AstConfig) (r : ExtractorResult) :
  getAstConfig w = Ok config ->
  AstContextVue.extractVueAstContext w filePath addedLines projectRoot = Ok r ->
  Forall (within_limits config) (impacted_sections r).
Proof.
  intros Hc. unfold AstContextVue.extractVueAstContext.
  rewrite Hc. cbn [bind].
  destruct (vueSfcCompiler w) as [parseSFC |].
  2: { intros H. injection H as <-. constructor. }
  destruct (readFileSafe w filePath projectRoot) as [code |].
  2: { intros H. injection H as <-. constructor. }
  destruct (unreadable _).
  { intros H. injection H as <-. constructor. }
  destruct (parseSFC code filePath) as [parsed | e].
  2: { intros H. injection H as <-. constructor. }
  pose proof (analyseBlock_within w (script (descriptor parsed)) addedLines
                (lit "script_analysis_error: ") config Hc) as B1.
  pose proof (analyseBlock_within w (scriptSetup (descriptor parsed)) addedLines
                (lit "script_setup_analysis_error: ") config Hc) as B2.
  destruct (AstContextVue.analyseBlock w (script _) _ _) as [s1 e1].
  destruct (AstContextVue.analyseBlock w (scriptSetup _) _ _) as [s2 e2].
  intros H. injection H as <-. cbn [impacted_sections fst] in *.
  eapply Permutation_Forall; [apply Permutation_sym, sort_by_perm |].
  apply Forall_app. now split.
Qed.

(** X19. The two limits hold for every Section that leaves
    [extractAstContext], on the script path and on the component path.
    A Section without a truncation flag has a snippet of at most
    [maxSnippetLength] units and spans at most [maxBlockSizeLines]
    lines; every other Section is flagged as truncated, with the reason
    [char_limit], or with [line_limit] and a summary when its range is
    longer than [maxBlockSizeLines].  No Section is cut without
    saying so. *)
Theorem sections_are_within_limits
        (w : World) (filePath : jsstring) (addedLines : numset)
        (projectRoot : jsstring) (config : AstConfig) :
  getAstConfig w = Ok config ->
  exists r,
    extractAstContext w filePath addedLines projectRoot = Ok r
    /\ Forall (within_limits config) (impacted_sections (result r)).
Proof.
  intros Hc.
  destruct (extractAstContext_cases w filePath addedLines projectRoot)
    as [r [Heq Hcase]].
  eexists. split; [exact Heq |]. cbn [result].
  destruct Hcase as [[_ Hr] | [[_ [_ Hr]] | [[_ [_ ->]] | [e [-> _]]]]].
  - eapply extractJsAstContext_within; eassumption.
  - eapply extractVueAstContext_within; eassumption.
  - constructor.
  - constructor.
Qed.

(** X19 at the component file. *)
Lemma sections_are_within_limits_witness :
  exists r,
    extractAstContext world_vue (lit "src/Panel.vue") [2; 8; 13] (lit "/repo")
    = Ok r
    /\ Forall (within_limits config_default) (impacted_sections (result r)).
Proof.
  apply (sections_are_within_limits
           world_vue (lit "src/Panel.vue") [2; 8; 13] (lit "/repo")
           config_default).
  reflexivity.
Defined.

(* ================================================================== *)
(** ** The excerpt of src/report.js *)
(* ================================================================== *)

Lemma min_of_le (xs : list Z) :
  forall x, Report.min_of x xs <= x
            /\ forall y, In y xs -> Report.min_of x xs <= y.
Proof.
  unfold Report.min_of.
  induction xs as [| z xs IH]; intros x; cbn [fold_left].
  - split; [lia | intros y []].
  - destruct (IH (Z.min x z)) as [H1 H2]. split; [lia |].
    intros y [<- | Hy]; [lia | now apply H2].
Qed.

Lemma max_of_ge (xs : list Z) :
  forall x, x <= Report.max_of x xs
            /\ forall y, In y xs -> y <= Report.max_of x xs.
Proof.
  unfold Report.max_of.
  induction xs as [| z xs IH]; intros x; cbn [fold_left].
  - split; [lia | intros y []].
  - destruct (IH (Z.max x z)) as [H1 H2]. split; [lia |].
    intros y [<- | Hy]; [lia | now apply H2].
Qed.

Lemma map_get_key (m : DiffUtils.LinesMap) (n : Z) (line : jsstring) :
  Report.map_get m n = Some line -> In n (map fst m).
Proof.
  unfold Report.map_get.
  destruct (find (fun kv => fst kv =? n) m) as [kv |] eqn:E; [| discriminate].
  intros _. apply find_some in E. destruct E as [Hin Hk].
  apply Z.eqb_eq in Hk. subst n. now apply in_map.
Qed.

Lemma consecutive_has (n : nat) :
  forall a k, a <= k < a + Z.of_nat n -> In k (consecutive a n).
Proof.
  induction n as [| n IH]; intros a k Hk; cbn [consecutive]; [lia |].
  destruct (Z.eq_dec a k) as [-> | Hne]; [now left |].
  right. apply IH. lia.
Qed.

(** What the loop has collected: the lines of the numbers it went
    through that are in the map and are not empty, in that order. *)
Lemma collect_fold (m : DiffUtils.LinesMap) (numbers : list Z) :
  forall st,
    Report.lines (fold_left (Report.collect_step m) numbers st)
    = Report.lines st
        ++ flat_map (fun n =>
                       match Report.map_get m n with
                       | Some line => if truthy (Some line) then [line] else []
                       | None => []
                       end)
                    numbers.
Proof.
  induction numbers as [| n rest IH]; intros st; cbn [fold_left flat_map].
  - now rewrite app_nil_r.
  - rewrite IH. unfold Report.collect_step.
    destruct (Report.map_get m n) as [line |]; [| reflexivity].
    destruct (truthy (Some line)); [| reflexivity].
    cbn [Report.lines]. now rewrite <- app_assoc.
Qed.

Lemma collect_lines (m : DiffUtils.LinesMap) (lo hi : Z) (line : jsstring) :
  In line (Report.lines (Report.collect m lo hi))
  <-> line <> []
      /\ exists n, lo <= n <= hi /\ Report.map_get m n = Some line.
Proof.
  unfold Report.collect. rewrite collect_fold. cbn [Report.lines app].
  rewrite in_flat_map. split.
  - intros [n [Hn Hl]]. apply consecutive_In in Hn.
    destruct (Report.map_get m n) as [l |] eqn:E; [| contradiction].
    destruct l as [| c l']; cbn [truthy] in Hl; [contradiction |].
    destruct Hl as [<- | []]. split; [discriminate |].
    exists n. split; [lia | exact E].
  - intros [Hne [n [Hn E]]]. exists n. split.
    + apply consecutive_has. lia.
    + rewrite E. destruct line as [| c l']; [contradiction |]. now left.
Qed.

Lemma max_of_In (xs : list Z) :
  forall x, In (Report.max_of x xs) (x :: xs).
Proof.
  unfold Report.max_of.
  induction xs as [| z xs IH]; intros x; cbn [fold_left]; [now left |].
  destruct (IH (Z.max x z)) as [E | Hin]; [| right; now right].
  rewrite <- E. destruct (Z.max_spec x z) as [[_ ->] | [_ ->]];
    [right; now left | now left].
Qed.

Lemma min_of_In (xs : list Z) :
  forall x, In (Report.min_of x xs) (x :: xs).
Proof.
  unfold Report.min_of.
  induction xs as [| z xs IH]; intros x; cbn [fold_left]; [now left |].
  destruct (IH (Z.min x z)) as [E | Hin]; [| right; now right].
  rewrite <- E. destruct (Z.min_spec x z) as [[_ ->] | [_ ->]];
    [now left | right; now left].
Qed.

(** X20. The excerpt that the report shows with an issue, for a map
    whose numbers lie from -2^53 to below 2^53 (the loop from
    [extendedStartLine] to [extendedEndLine] is a counter of the
    engine).
    The code that [extractDiffCode] returns is a list of lines joined
    by line breaks; each of them is a line of the chosen map that is
    not empty and whose number is at most three before [startLine] and
    three after [endLine]; and every such line whose number lies from
    [startLine] to [endLine] is among them.  A line up to three numbers
    away is shown also when no number of the range is in the map.  The
    list is empty when the range lies beside the numbers of the map:
    when every number of the map is before [startLine], or every one is
    after [endLine]. *)
Theorem excerpt_is_drawn_from_the_range
        (info : DiffUtils.ExtendedDiff) (type : jsstring)
        (startLine endLine : Z) :
  Forall in_counting_range (map fst (Report.chosen_map info type)) ->
  exists excerpt,
    Report.code (Report.extractDiffCode (Some info) type startLine endLine)
    = join [10%N] excerpt
    /\ drawn_from (Report.chosen_map info type) startLine endLine excerpt
    /\ holds_the_range (Report.chosen_map info type) startLine endLine excerpt
    /\ (range_misses (Report.chosen_map info type) startLine endLine ->
        excerpt = []).
Proof.
  intros _.
  unfold Report.extractDiffCode, drawn_from, holds_the_range, range_misses.
  set (m := Report.chosen_map info type).
  destruct (map fst m) as [| k ks] eqn:Ekeys.
  { exists []. split; [reflexivity |]. split; [constructor |].
    split; [| reflexivity].
    intros n line Hget. apply map_get_key in Hget. rewrite Ekeys in Hget.
    contradiction. }
  cbv zeta.
  pose proof (min_of_le ks k) as [Hmin0 Hmin].
  pose proof (max_of_ge ks k) as [Hmax0 Hmax].
  assert (Hkeys : forall n line,
             Report.map_get m n = Some line ->
             Report.min_of k ks <= n <= Report.max_of k ks).
  { intros n line Hget. apply map_get_key in Hget. rewrite Ekeys in Hget.
    destruct Hget as [<- | Hin]; [lia |].
    split; [now apply Hmin | now apply Hmax]. }
  destruct ((startLine >? Report.max_of k ks)
            || (endLine <? Report.min_of k ks)) eqn:Eout.
  - exists []. split; [reflexivity |]. split; [constructor |].
    split; [| reflexivity].
    intros n line Hget _ Hrange. apply Hkeys in Hget.
    apply orb_true_iff in Eout. rewrite Z.gtb_ltb in Eout.
    destruct Eout as [Eout | Eout]; apply Z.ltb_lt in Eout; lia.
  - apply orb_false_iff in Eout. rewrite Z.gtb_ltb in Eout.
    destruct Eout as [E1 E2]. apply Z.ltb_ge in E1. apply Z.ltb_ge in E2.
    eexists. split; [reflexivity |]. split; [| split].
    + apply Forall_forall. intros line Hl. apply collect_lines in Hl.
      destruct Hl as [Hne [n [Hn Hget]]]. split; [exact Hne |].
      exists n. split; [lia | exact Hget].
    + intros n line Hget Hne Hrange. apply collect_lines.
      split; [exact Hne |]. exists n. split; [| exact Hget].
      apply Hkeys in Hget. lia.
    + intros [Hbefore | Hafter]; exfalso.
      * rewrite Forall_forall in Hbefore.
        pose proof (Hbefore _ (max_of_In ks k)). lia.
      * rewrite Forall_forall in Hafter.
        pose proof (Hafter _ (min_of_In ks k)). lia.
Qed.

(** X20 on a map with the lines 3 and 9: asked for line 5, the excerpt
    is line 3; asked for line 12, it is empty. *)
Lemma excerpt_is_drawn_from_the_range_witness :
  Report.code (Report.extractDiffCode (Some lines_3_and_9) (lit "new") 5 5)
  = lit "+x"
  /\ Report.code (Report.extractDiffCode (Some lines_3_and_9) (lit "new") 12 12)
     = [].
Proof.
  split; [reflexivity |].
  destruct (excerpt_is_drawn_from_the_range lines_3_and_9 (lit "new") 12 12)
    as [excerpt [E [_ [_ Hmiss]]]].
  - repeat (constructor; [vm_compute; split; [discriminate | reflexivity] |]).
    constructor.
  - rewrite E, Hmiss; [reflexivity |].
    left. repeat (constructor; [reflexivity |]). constructor.
Defined.

(* ================================================================== *)
(** ** The windows of [extractContextAroundLines] *)
(* ================================================================== *)

Lemma firstn_skipn_seq {A : Type} (d : A) (c : nat) :
  forall (j : nat) (xs : list A),
    (j + c <= List.length xs)%nat ->
    firstn c (skipn j xs) = map (fun i => nth i xs d) (seq j c).
Proof.
  induction c as [| c IH]; intros j xs Hlen; [reflexivity |].
  cbn [seq map].
  assert (Hj : (j < List.length xs)%nat) by lia.
  destruct (skipn j xs) as [| x rest] eqn:E.
  - apply (f_equal (@List.length A)) in E. rewrite length_skipn in E.
    cbn [List.length] in E. lia.
  - cbn [firstn]. f_equal.
    + replace x with (nth 0 (skipn j xs) d) by (now rewrite E).
      rewrite nth_skipn. f_equal. lia.
    + replace rest with (skipn (S j) xs).
      * apply IH. lia.
      * replace (S j) with (1 + j)%nat by lia.
        rewrite <- skipn_skipn, E. reflexivity.
Qed.

Lemma slice_lines {A : Type} (d : A) (xs : list A) (j b : Z) :
  0 <= j -> 0 <= b ->
  slice xs j b
  = map (fun i => nth i xs d)
        (seq (Z.to_nat j)
             (Z.to_nat (Z.min b (Z.of_nat (List.length xs)) - j))).
Proof.
  intros Hj Hb. unfold slice, slice_index.
  destruct (Z.ltb_spec j 0) as [| _]; [lia |].
  destruct (Z.ltb_spec b 0) as [| _]; [lia |].
  destruct (Z_le_gt_dec j (Z.of_nat (List.length xs))) as [Hle | Hgt].
  - rewrite (Z.min_l j) by lia.
    apply firstn_skipn_seq. lia.
  - rewrite (Z.min_r j) by lia.
    replace (Z.to_nat (Z.min b (Z.of_nat (List.length xs))
                       - Z.of_nat (List.length xs))) with O by lia.
    replace (Z.to_nat (Z.min b (Z.of_nat (List.length xs)) - j)) with O by lia.
    reflexivity.
Qed.

Lemma combine_seq_map {A : Type} (h : nat -> A) (c : nat) :
  forall s t,
    combine (seq s c) (map h (seq t c))
    = map (fun i => ((s + i)%nat, h (t + i)%nat)) (seq 0 c).
Proof.
  induction c as [| c IH]; intros s t; [reflexivity |].
  cbn [seq map combine]. rewrite !Nat.add_0_r. f_equal.
  rewrite IH, <- seq_shift, map_map.
  apply map_ext. intros i. f_equal; [lia | f_equal; lia].
Qed.

Lemma consecutive_seq (c : nat) :
  forall a, consecutive a c = map (fun i => a + Z.of_nat i) (seq 0 c).
Proof.
  induction c as [| c IH]; intros a; [reflexivity |].
  cbn [consecutive seq map]. f_equal; [lia |].
  rewrite IH, <- seq_shift, map_map. apply map_ext. intros i. lia.
Qed.

(** The lines of a window: the slice from [contextStart] to
    [contextEnd], each with its number counted from [first], is the
    lines numbered [first] onwards, each showing the line of the text
    that stands as far behind [contextStart]. *)
Lemma window_lines (lines : list jsstring) (lineNum first contextStart contextEnd : Z) :
  1 <= contextStart -> 0 <= contextEnd ->
  map (fun '(idx, line) => labelled lineNum (first + Z.of_nat idx) line)
      (combine (seq 0 (List.length (slice lines (contextStart - 1) contextEnd)))
               (slice lines (contextStart - 1) contextEnd))
  = map (fun n => labelled lineNum n (line_at lines (n - (first - contextStart))))
        (from_to first
                 (first + Z.min contextEnd (Z.of_nat (List.length lines))
                  - contextStart)).
Proof.
  intros Hs He.
  rewrite (slice_lines ([] : jsstring) lines (contextStart - 1) contextEnd)
    by lia.
  rewrite length_map, length_seq, combine_seq_map, map_map.
  unfold from_to. rewrite consecutive_seq, map_map.
  replace (Z.to_nat (first + Z.min contextEnd (Z.of_nat (List.length lines))
                     - contextStart - first + 1))
    with (Z.to_nat (Z.min contextEnd (Z.of_nat (List.length lines))
                    - (contextStart - 1))) by lia.
  apply map_ext. intros i. cbn [Nat.add]. unfold line_at.
  do 2 f_equal. lia.
Qed.

(** X21. The windows of the line-limit snippet carry the line numbers
    of the file.  For a block that starts at line 1 or later, a radius
    that is not negative and added lines inside the block,
    [extractContextAroundLines] of src/ast_utils.js returns, for each
    added line, the lines of the code from [radius] before it to
    [radius] after it, cut at the two ends of the block and at the end
    of the code; each is printed with its own line number, and the
    added line itself with the marker.  The windows follow the added
    lines one by one, so they may overlap and repeat lines. *)
Theorem context_windows_carry_the_line_numbers
        (code : jsstring) (addedLines : list Z) (blockStart blockEnd radius : Z) :
  1 <= blockStart ->
  0 <= radius ->
  Forall (fun lineNum => blockStart <= lineNum <= blockEnd) addedLines ->
  AstUtils.extractContextAroundLines code addedLines blockStart blockEnd radius
  = join AstUtils.elision
         (map (fun lineNum =>
                 window (split_lines code) 0 lineNum
                        (Z.max blockStart (lineNum - radius))
                        (Z.min (Z.min blockEnd (lineNum + radius))
                               (Z.of_nat (List.length (split_lines code)))))
              addedLines).
Proof.
  intros Hstart Hradius Hin. unfold AstUtils.extractContextAroundLines.
  cbv zeta. f_equal. apply map_ext_in. intros lineNum Hl.
  rewrite Forall_forall in Hin. specialize (Hin lineNum Hl).
  unfold window. f_equal.
  refine (eq_trans
            (window_lines (split_lines code) lineNum
               (Z.max blockStart (lineNum - radius))
               (Z.max blockStart (lineNum - radius))
               (Z.min blockEnd (lineNum + radius)) _ _) _); [lia | lia |].
  replace (Z.max blockStart (lineNum - radius)
           + Z.min (Z.min blockEnd (lineNum + radius))
                   (Z.of_nat (List.length (split_lines code)))
           - Z.max blockStart (lineNum - radius))
    with (Z.min (Z.min blockEnd (lineNum + radius))
                (Z.of_nat (List.length (split_lines code)))) by lia.
  apply map_ext. intros n. do 2 f_equal. lia.
Qed.

(** X21 at a window of radius 1 in the script file. *)
Lemma context_windows_carry_the_line_numbers_witness :
  AstUtils.extractContextAroundLines shape_js [4] 3 5 1
  = join AstUtils.elision
         (map (fun lineNum =>
                 window (split_lines shape_js) 0 lineNum
                        (Z.max 3 (lineNum - 1))
                        (Z.min (Z.min 5 (lineNum + 1))
                               (Z.of_nat (List.length (split_lines shape_js)))))
              [4]).
Proof.
  apply (context_windows_carry_the_line_numbers shape_js [4] 3 5 1);
    [lia | lia |].
  constructor; [lia | constructor].
Defined.

(** X22. The version of the Vue extractor numbers the lines of the
    snippet from [blockStart]: line [n] of a window shows the line
    [n - blockStart + 1] of the snippet, from [radius] before the added
    line to [radius] after it, cut at the two ends of the snippet.  The
    parameter [blockEnd] is not read. *)
Theorem vue_context_windows_count_from_block_start
        (snippet : jsstring) (addedLines : list Z)
        (blockStart blockEnd radius : Z) :
  0 <= radius ->
  Forall (fun lineNum => blockStart <= lineNum) addedLines ->
  AstContextVue.extractContextAroundLines
    snippet addedLines blockStart blockEnd radius
  = join AstUtils.elision
         (map (fun lineNum =>
                 window (split_lines snippet) (blockStart - 1) lineNum
                        (Z.max blockStart (lineNum - radius))
                        (Z.min (lineNum + radius)
                               (blockStart - 1
                                + Z.of_nat (List.length (split_lines snippet)))))
              addedLines).
Proof.
  intros Hradius Hin. unfold AstContextVue.extractContextAroundLines.
  cbv zeta. f_equal. apply map_ext_in. intros lineNum Hl.
  rewrite Forall_forall in Hin. specialize (Hin lineNum Hl).
  unfold window. f_equal.
  refine (eq_trans
            (window_lines (split_lines snippet) lineNum
               (blockStart + Z.max 1 (lineNum - blockStart + 1 - radius) - 1)
               (Z.max 1 (lineNum - blockStart + 1 - radius))
               (Z.min (Z.of_nat (List.length (split_lines snippet)))
                      (lineNum - blockStart + 1 + radius)) _ _) _);
    [lia | lia |].
  unfold from_to.
  replace (blockStart + Z.max 1 (lineNum - blockStart + 1 - radius) - 1)
    with (Z.max blockStart (lineNum - radius)) by lia.
  replace (Z.max blockStart (lineNum - radius)
           + Z.min (Z.min (Z.of_nat (List.length (split_lines snippet)))
                          (lineNum - blockStart + 1 + radius))
                   (Z.of_nat (List.length (split_lines snippet)))
           - Z.max 1 (lineNum - blockStart + 1 - radius)
           - Z.max blockStart (lineNum - radius) + 1)
    with (Z.min (lineNum + radius)
                (blockStart - 1 + Z.of_nat (List.length (split_lines snippet)))
          - Z.max blockStart (lineNum - radius) + 1) by lia.
  apply map_ext. intros n. do 2 f_equal. lia.
Qed.

(** X22 at a window of radius 1 in a snippet of the script file, taken
    as a block that starts on line 3. *)
Lemma vue_context_windows_count_from_block_start_witness :
  AstContextVue.extractContextAroundLines (substring shape_js 21 44) [4] 3 5 1
  = join AstUtils.elision
         (map (fun lineNum =>
                 window (split_lines (substring shape_js 21 44)) (3 - 1) lineNum
                        (Z.max 3 (lineNum - 1))
                        (Z.min (lineNum + 1)
                               (3 - 1
                                + Z.of_nat
                                    (List.length
                                       (split_lines (substring shape_js 21 44))))))
              [4]).
Proof.
  apply (vue_context_windows_count_from_block_start
           (substring shape_js 21 44) [4] 3 5 1); [lia |].
  constructor; [lia | constructor].
Defined.

(* ================================================================== *)
(** ** Where the Sections come from *)
(* ================================================================== *)

Lemma extractJsAstContext_from
      (w : World) (filePath : jsstring) (addedLines : numset)
      (projectRoot : jsstring) (config : AstConfig) (r : ExtractorResult) :
  getAstConfig w = Ok config ->
  AstContext.extractJsAstContext w filePath addedLines projectRoot = Ok r ->
  Forall (emitted_from w config addedLines) (impacted_sections r).
Proof.
  intros Hc. unfold AstContext.extractJsAstContext. rewrite Hc. cbn [bind].
  destruct (readFileSafe w filePath projectRoot) as [code |].
  2: { intros H. injection H as <-. constructor. }
  destruct (unreadable _).
  { intros H. injection H as <-. constructor. }
  destruct (parseCode w code) as [ast | e] eqn:Hp.
  2: { intros H. injection H as <-. constructor. }
  destruct (AstContext.collectImpactedSections _ _ _ ast) as [all | e] eqn:E.
  2: { intros H. injection H as <-. constructor. }
  intros H. injection H as <-. cbn [impacted_sections].
  apply Forall_forall. intros s Hs. apply in_map_iff in Hs.
  destruct Hs as [u [<- Hu]].
  apply selected_In in Hu.
  destruct (collectImpactedSections_from _ _ _ _ _ u E Hu) as [p [Hp' Hc']].
  left. exists code, ast, p, u. auto.
Qed.

Lemma extractScriptContext_from
      (w : World) (scriptContent : jsstring) (addedLines : numset) (o : Z)
      (config : AstConfig) (r : AstContextVue.ScriptResult) :
  getAstConfig w = Ok config ->
  AstContextVue.extractScriptContext w scriptContent addedLines o = Ok r ->
  Forall (emitted_from w config addedLines) (AstContextVue.sections r).
Proof.
  intros Hc. unfold AstContextVue.extractScriptContext. rewrite Hc. cbn [bind].
  destruct (parseScript w scriptContent) as [ast | e] eqn:Hp.
  2: { intros H. injection H as <-. constructor. }
  destruct (Z.of_nat _ =? 0).
  { intros H. injection H as <-. constructor. }
  destruct (AstContextVue.collectScriptSections _ _ _ _ ast) as [all | e] eqn:E.
  2: { intros H. injection H as <-. constructor. }
  intros H. injection H as <-. cbn [AstContextVue.sections].
  apply Forall_forall. intros s Hs. apply in_map_iff in Hs.
  destruct Hs as [v [<- Hv]].
  apply vue_selected_from in Hv. destruct Hv as [u [Hu ->]].
  destruct (collectScriptSections_from _ _ _ _ _ _ u E Hu) as [p [Hp' Hu']].
  right. exists scriptContent, o, ast, p, u. auto.
Qed.

Lemma analyseBlock_from (w : World) (block : option SfcBlock)
      (addedLines : numset) (tag : jsstring) (config : AstConfig) :
  getAstConfig w = Ok config ->
  Forall (emitted_from w config addedLines)
         (fst (AstContextVue.analyseBlock w block addedLines tag)).
Proof.
  intros Hc. unfold AstContextVue.analyseBlock.
  destruct block as [b |]; [| constructor].
  destruct (truthy _); [| constructor].
  destruct (AstContextVue.extractScriptContext _ _ _ _) as [r | e] eqn:E;
    [| constructor].
  cbn [fst]. eapply extractScriptContext_from; eassumption.
Qed.

Lemma extractVueAstContext_from
      (w : World) (filePath : jsstring) (addedLines : numset)
      (projectRoot : jsstring) (config : AstConfig) (r : ExtractorResult) :
  getAstConfig w = Ok config ->
  AstContextVue.extractVueAstContext w filePath addedLines projectRoot = Ok r ->
  Forall (emitted_from w config addedLines) (impacted_sections r).
Proof.
  intros Hc. unfold AstContextVue.extractVueAstContext.
  rewrite Hc. cbn [bind].
  destruct (vueSfcCompiler w) as [parseSFC |].
  2: { intros H. injection H as <-. constructor. }
  destruct (readFileSafe w filePath projectRoot) as [code |].
  2: { intros H. injection H as <-. constructor. }
  destruct (unreadable _).
  { intros H. injection H as <-. constructor. }
  destruct (parseSFC code filePath) as [parsed | e].
  2: { intros H. injection H as <-. constructor. }
  pose proof (analyseBlock_from w (script (descriptor parsed)) addedLines
                (lit "script_analysis_error: ") config Hc) as B1.
  pose proof (analyseBlock_from w (scriptSetup (descriptor parsed)) addedLines
                (lit "script_setup_analysis_error: ") config Hc) as B2.
  destruct (AstContextVue.analyseBlock w (script _) _ _) as [s1 e1].
  destruct (AstContextVue.analyseBlock w (scriptSetup _) _ _) as [s2 e2].
  intros H. injection H as <-. cbn [impacted_sections fst] in *.
  eapply Permutation_Forall; [apply Permutation_sym, sort_by_perm |].
  apply Forall_app. now split.
Qed.

Lemma sections_provenance
      (w : World) (filePath : jsstring) (addedLines : numset)
      (projectRoot : jsstring) (config : AstConfig) :
  getAstConfig w = Ok config ->
  exists r,
    extractAstContext w filePath addedLines projectRoot = Ok r
    /\ Forall (emitted_from w config addedLines)
              (impacted_sections (result r)).
Proof.
  intros Hc.
  destruct (extractAstContext_cases w filePath addedLines projectRoot)
    as [r [Heq Hcase]].
  eexists. split; [exact Heq |]. cbn [result].
  destruct Hcase as [[_ Hr] | [[_ [_ Hr]] | [[_ [_ ->]] | [e [-> _]]]]].
  - eapply extractJsAstContext_from; eassumption.
  - eapply extractVueAstContext_from; eassumption.
  - constructor.
  - constructor.
Qed.

(** X23. Every Section comes from a node of a parsed tree.  Whatever
    the file, each Section that [extractAstContext] returns was built
    from one function, method or class that the walk reached and whose
    lines hold an added line: on the script path by the collector of
    src/ast_context.js and [limitSectionSize]; on the component path by
    the collector of the Vue extractor in the lines of a script block,
    [applySectionSizeLimit] and the shift to the lines of the file.
    Nothing else is ever emitted. *)
Theorem every_section_comes_from_a_walked_node
        (w : World) (filePath : jsstring) (addedLines : numset)
        (projectRoot : jsstring) (config : AstConfig) :
  getAstConfig w = Ok config ->
  exists r,
    extractAstContext w filePath addedLines projectRoot = Ok r
    /\ Forall (emitted_from w config addedLines)
              (impacted_sections (result r)).
Proof. apply sections_provenance. Qed.

(** X23 at the script file. *)
Lemma every_section_comes_from_a_walked_node_witness :
  exists r,
    extractAstContext world_js (lit "src/shape.js") [2; 4] (lit "/repo") = Ok r
    /\ Forall (emitted_from world_js config_default [2; 4])
              (impacted_sections (result r)).
Proof.
  apply (every_section_comes_from_a_walked_node
           world_js (lit "src/shape.js") [2; 4] (lit "/repo") config_default).
  reflexivity.
Defined.

Lemma str_eqb_eq (a b : jsstring) : str_eqb a b = true -> a = b.
Proof.
  revert b. induction a as [| x a IH]; intros [| y b]; cbn [str_eqb];
    try discriminate; [reflexivity |].
  intros H. apply andb_true_iff in H. destruct H as [Hx Hr].
  apply N.eqb_eq in Hx. subst y. f_equal. now apply IH.
Qed.

Lemma string_or_anonymous (v : option jsstring) :
  AstContext.string_or v AstContext.anonymous <> [].
Proof.
  unfold AstContext.string_or.
  destruct v as [[| c s] |]; cbn [truthy]; discriminate.
Qed.

Lemma key_label_named (k : Key) : AstContext.key_label k <> [].
Proof. apply string_or_anonymous. Qed.

Lemma getNodeName_named (p : Path) : AstContext.getNodeName p <> [].
Proof.
  unfold AstContext.getNodeName. cbv zeta.
  destruct (truthy (node_id_name (fst p))); [apply string_or_anonymous |].
  assert (K : match node_key (fst p) with
              | Some k => AstContext.key_label k
              | None => AstContext.anonymous
              end <> []).
  { destruct (node_key (fst p)); [apply key_label_named | discriminate]. }
  destruct (snd p) as [| parent rest]; [exact K |].
  destruct (is_type VariableDeclarator parent && truthy (node_id_name parent));
    [apply string_or_anonymous | exact K].
Qed.

Lemma getScriptNodeInfo_named (p : Path) :
  fst (AstContextVue.getScriptNodeInfo p) <> [].
Proof.
  unfold AstContextVue.getScriptNodeInfo. cbv zeta.
  destruct (truthy (node_id_name (fst p))); [apply string_or_anonymous |].
  destruct (snd p) as [| parent rest].
  - destruct (node_key (fst p)); cbn [fst];
      [apply key_label_named | discriminate].
  - destruct (is_type VariableDeclarator parent); [apply string_or_anonymous |].
    destruct (node_key (fst p)); cbn [fst];
      [apply key_label_named | discriminate].
Qed.

Lemma target_type_known (p : Path) :
  AstContext.isTargetNode p = true ->
  In (type_name (node_type (fst p))) section_types.
Proof.
  unfold AstContext.isTargetNode, is_type, section_types. cbv zeta.
  destruct (node_type (fst p)); cbn; try discriminate; intros _; tauto.
Qed.

Lemma detectVueContext_known (p : Path) :
  AstContextVue.detectVueContext p = []
  \/ In (AstContextVue.detectVueContext p) section_types.
Proof.
  unfold AstContextVue.detectVueContext.
  destruct (findParent ObjectProperty p) as [objectParent |]; [| now left].
  destruct (node_key objectParent) as [k |]; [| now left].
  destruct (or_else (key_name k) (key_value k)) as [parentKey |]; [| now left].
  destruct (existsb (str_eqb parentKey) AstContextVue.vueContexts) eqn:E;
    [| now left].
  right. apply existsb_exists in E. destruct E as [x [Hx Heq]].
  apply str_eqb_eq in Heq. subst x.
  unfold AstContextVue.vueContexts in Hx. unfold section_types.
  destruct Hx as [<- | [<- | [<- | [<- | []]]]]; cbn; tauto.
Qed.

Lemma script_context_known (p : Path) :
  snd (AstContextVue.getScriptNodeInfo p) = []
  \/ In (snd (AstContextVue.getScriptNodeInfo p)) section_types.
Proof.
  unfold AstContextVue.getScriptNodeInfo. cbv zeta.
  destruct (truthy (node_id_name (fst p))); [now left |].
  destruct (snd p) as [| parent rest].
  - destruct (node_key (fst p)); now left.
  - destruct (is_type VariableDeclarator parent); [now left |].
    destruct (node_key (fst p)); cbn [snd]; [| now left].
    destruct (findParent ObjectExpression p); [| now left].
    destruct (findParent ExportDefaultDeclaration p); [| now left].
    apply detectVueContext_known.
Qed.

Lemma emitted_named (w : World) (config : AstConfig) (addedLines : numset)
      (s : Sec.t) :
  emitted_from w config addedLines s ->
  Sec.name s <> [] /\ In (Sec.type s) section_types.
Proof.
  intros [(code & ast & p & c & _ & _ & Hc & ->)
         | (content & o & ast & p & u & _ & _ & Hu & ->)].
  - assert (G : AstContext.name c <> []
                /\ In (AstContext.type c) section_types).
    { unfold candidate_at in Hc.
      destruct (AstContext.isTargetNode p) eqn:Ht; [| contradiction].
      destruct (node_loc (fst p)) as [[lo hi] |]; [| contradiction].
      destruct (filter _ addedLines) as [| l ls]; [contradiction |].
      destruct Hc as [<- | []]. cbn.
      split; [apply getNodeName_named | now apply target_type_known]. }
    unfold AstContext.limitSectionSize.
    destruct (_ >? maxSnippetLength config); [exact G |].
    destruct (_ >? maxBlockSizeLines config); exact G.
  - assert (G : AstContextVue.name u <> []
                /\ In (AstContextVue.type u) section_types).
    { unfold unit_at in Hu.
      destruct (AstContextVue.isScriptTargetNode p) eqn:Ht; [| contradiction].
      destruct (node_loc (fst p)) as [[lo hi] |]; [| contradiction].
      destruct (filter _ _) as [| l ls]; [contradiction |].
      destruct Hu as [<- | []]. cbn.
      split; [apply getScriptNodeInfo_named |].
      destruct (script_context_known p) as [E | Hin].
      - rewrite E. now apply target_type_known.
      - destruct (snd (AstContextVue.getScriptNodeInfo p)) as [| x xs];
          [now apply target_type_known | exact Hin]. }
    unfold AstContextVue.applySectionSizeLimit.
    destruct (_ >? maxSnippetLength config); [exact G |].
    destruct (_ >? maxBlockSizeLines config); exact G.
Qed.

(** X24. Every Section has a name and a known type.  The name is never
    the empty string: a node without a name of its own, of its
    declarator or of its key is called [anonymous].  The type is the
    kind of node of one of the six units, or, on the component path,
    one of [vue_methods], [vue_computed], [vue_watch] and
    [vue_setup]. *)
Theorem sections_have_a_name_and_a_known_type
        (w : World) (filePath : jsstring) (addedLines : numset)
        (projectRoot : jsstring) (config : AstConfig) :
  getAstConfig w = Ok config ->
  exists r,
    extractAstContext w filePath addedLines projectRoot = Ok r
    /\ Forall (fun s => Sec.name s <> [] /\ In (Sec.type s) section_types)
              (impacted_sections (result r)).
Proof.
  intros Hc.
  destruct (sections_provenance w filePath addedLines projectRoot config Hc)
    as [r [Heq Hall]].
  exists r. split; [exact Heq |].
  eapply Forall_impl; [| exact Hall].
  intros s Hs. eapply emitted_named, Hs.
Qed.

(** X24 at the component file. *)
Lemma sections_have_a_name_and_a_known_type_witness :
  exists r,
    extractAstContext world_vue (lit "src/Panel.vue") [2; 8; 13] (lit "/repo")
    = Ok r
    /\ Forall (fun s => Sec.name s <> [] /\ In (Sec.type s) section_types)
              (impacted_sections (result r)).
Proof.
  apply (sections_have_a_name_and_a_known_type
           world_vue (lit "src/Panel.vue") [2; 8; 13] (lit "/repo")
           config_default).
  reflexivity.
Defined.

(* ================================================================== *)
(** ** The errors that are reported *)
(* ================================================================== *)

Lemma extractScriptContext_errors
      (w : World) (scriptContent : jsstring) (addedLines : numset) (o : Z)
      (config : AstConfig) :
  getAstConfig w = Ok config ->
  exists r,
    AstContextVue.extractScriptContext w scriptContent addedLines o = Ok r
    /\ Forall reported_error (AstContextVue.script_errors r).
Proof.
  intros Hc. unfold AstContextVue.extractScriptContext. rewrite Hc. cbn [bind].
  destruct (parseScript w scriptContent) as [ast | e].
  2: { eexists. split; [reflexivity |]. cbn. constructor; [| constructor].
       unfold reported_error. do 6 right. left. now exists (message e). }
  destruct (Z.of_nat _ =? 0).
  { eexists. split; [reflexivity | constructor]. }
  destruct (AstContextVue.collectScriptSections _ _ _ _ ast) as [all | e].
  - eexists. split; [reflexivity | constructor].
  - eexists. split; [reflexivity |]. cbn. constructor; [| constructor].
    unfold reported_error. do 8 right. now exists (message e).
Qed.

Lemma analyseBlock_errors (w : World) (block : option SfcBlock)
      (addedLines : numset) (tag : jsstring) (config : AstConfig) :
  getAstConfig w = Ok config ->
  Forall reported_error
         (snd (AstContextVue.analyseBlock w block addedLines tag)).
Proof.
  intros Hc. unfold AstContextVue.analyseBlock.
  destruct block as [b |]; [| constructor].
  destruct (truthy _); [| constructor].
  destruct (extractScriptContext_errors w (content b) addedLines
              (loc_start_line b) config Hc) as [r [-> Hr]].
  exact Hr.
Qed.

Lemma extractJsAstContext_errors
      (w : World) (filePath : jsstring) (addedLines : numset)
      (projectRoot : jsstring) (config : AstConfig) :
  getAstConfig w = Ok config ->
  exists r,
    AstContext.extractJsAstContext w filePath addedLines projectRoot = Ok r
    /\ Forall reported_error (errors r).
Proof.
  intros Hc. unfold AstContext.extractJsAstContext. rewrite Hc. cbn [bind].
  destruct (readFileSafe w filePath projectRoot) as [code |].
  2: { eexists. split; [reflexivity |]. cbn. constructor; [| constructor].
       unfold reported_error. tauto. }
  destruct (unreadable _).
  { eexists. split; [reflexivity |]. cbn. constructor; [| constructor].
    unfold reported_error. tauto. }
  destruct (parseCode w code) as [ast | e].
  2: { eexists. split; [reflexivity |]. cbn. constructor; [| constructor].
       unfold reported_error. do 3 right. left. now exists (message e). }
  destruct (AstContext.collectImpactedSections _ _ _ ast) as [all | e].
  - eexists. split; [reflexivity | constructor].
  - eexists. split; [reflexivity |]. cbn. constructor; [| constructor].
    unfold reported_error. do 7 right. left. now exists (message e).
Qed.

Lemma extractVueAstContext_errors
      (w : World) (filePath : jsstring) (addedLines : numset)
      (projectRoot : jsstring) (config : AstConfig) :
  getAstConfig w = Ok config ->
  exists r,
    AstContextVue.extractVueAstContext w filePath addedLines projectRoot = Ok r
    /\ Forall reported_error (errors r).
Proof.
  intros Hc. unfold AstContextVue.extractVueAstContext.
  rewrite Hc. cbn [bind].
  destruct (vueSfcCompiler w) as [parseSFC |].
  2: { eexists. split; [reflexivity |]. cbn. constructor; [| constructor].
       unfold reported_error. tauto. }
  destruct (readFileSafe w filePath projectRoot) as [code |].
  2: { eexists. split; [reflexivity |]. cbn. constructor; [| constructor].
       unfold reported_error. tauto. }
  destruct (unreadable _).
  { eexists. split; [reflexivity |]. cbn. constructor; [| constructor].
    unfold reported_error. tauto. }
  destruct (parseSFC code filePath) as [parsed | e].
  2: { eexists. split; [reflexivity |]. cbn. constructor; [| constructor].
       unfold reported_error. do 4 right. left. now exists (message e). }
  pose proof (analyseBlock_errors w (script (descriptor parsed)) addedLines
                (lit "script_analysis_error: ") config Hc) as B1.
  pose proof (analyseBlock_errors w (scriptSetup (descriptor parsed)) addedLines
                (lit "script_setup_analysis_error: ") config Hc) as B2.
  destruct (AstContextVue.analyseBlock w (script _) _ _) as [s1 e1].
  destruct (AstContextVue.analyseBlock w (scriptSetup _) _ _) as [s2 e2].
  eexists. split; [reflexivity |]. cbn [errors snd] in *.
  apply Forall_app. split; [| apply Forall_app; now split].
  destruct (sfc_errors parsed >? 0) eqn:E; [| constructor].
  constructor; [| constructor].
  unfold reported_error. do 5 right. left. exists (sfc_errors parsed).
  split; [| reflexivity]. rewrite Z.gtb_ltb in E. now apply Z.ltb_lt.
Qed.

(** X25. The errors that can be reported.  Once the configuration is
    loaded, every error of the result of [extractAstContext] is one of
    [unsupported_file_type], [file_not_readable],
    [vue_sfc_compiler_not_installed], [parse_error: ...],
    [sfc_parse_error: ...], [sfc_parse_errors: n] with [n] above zero,
    [script_parse_error: ...], [traverse_error: ...] and
    [script_traverse_error: ...].  The other three that the code can
    build are never reported: a script block reports its own parse
    error and the error of its own walk, so there is no
    [script_analysis_error] and no [script_setup_analysis_error]; and
    nothing is left for the outer handler, so there is no
    [unexpected_error]. *)
Theorem reported_errors_are_among_nine
        (w : World) (filePath : jsstring) (addedLines : numset)
        (projectRoot : jsstring) (config : AstConfig) :
  getAstConfig w = Ok config ->
  exists r,
    extractAstContext w filePath addedLines projectRoot = Ok r
    /\ Forall reported_error (errors (result r)).
Proof.
  intros Hc. unfold extractAstContext.
  destruct (is_js_path filePath).
  - destruct (extractJsAstContext_errors w filePath addedLines projectRoot
                config Hc) as [r [-> Hr]].
    eexists. split; [reflexivity | exact Hr].
  - destruct (is_vue_path filePath).
    + destruct (extractVueAstContext_errors w filePath addedLines projectRoot
                  config Hc) as [r [-> Hr]].
      eexists. split; [reflexivity | exact Hr].
    + eexists. split; [reflexivity |]. cbn. constructor; [| constructor].
      unfold reported_error. tauto.
Qed.

(** X25 at the script file when the library throws during the walk. *)
Lemma reported_errors_are_among_nine_witness :
  exists r,
    extractAstContext world_duplicate (lit "src/shape.js") [2; 4] (lit "/repo")
    = Ok r
    /\ Forall reported_error (errors (result r)).
Proof.
  apply (reported_errors_are_among_nine
           world_duplicate (lit "src/shape.js") [2; 4] (lit "/repo")
           config_default).
  reflexivity.
Defined.

(* ================================================================== *)
(** ** The two maps of [addLineNumbersToDiff] *)
(* ================================================================== *)

Lemma map_get_absent (m : DiffUtils.LinesMap) (n : Z) :
  ~ In n (map fst m) -> Report.map_get m n = None.
Proof.
  intros Hn. unfold Report.map_get.
  destruct (find (fun kv => fst kv =? n) m) as [kv |] eqn:E; [| reflexivity].
  apply find_some in E. destruct E as [Hin Hk]. apply Z.eqb_eq in Hk.
  exfalso. apply Hn. subst n. now apply in_map.
Qed.

Lemma map_get_cons (k : Z) (v : jsstring) (m : DiffUtils.LinesMap) (n : Z) :
  Report.map_get ((k, v) :: m) n
  = if k =? n then Some v else Report.map_get m n.
Proof.
  unfold Report.map_get. cbn [find fst]. now destruct (k =? n).
Qed.

Lemma map_get_set (m : DiffUtils.LinesMap) (k : Z) (v : jsstring) (n : Z) :
  Report.map_get (DiffUtils.map_set m k v) n
  = if k =? n then Some v else Report.map_get m n.
Proof.
  induction m as [| [k' v'] m IH]; cbn [DiffUtils.map_set].
  - rewrite map_get_cons. now destruct (k =? n).
  - destruct (Z.eqb_spec k' k) as [-> | Hne].
    + rewrite !map_get_cons. now destruct (k =? n).
    + rewrite !map_get_cons, IH.
      destruct (Z.eqb_spec k' n) as [-> | Hn]; [| reflexivity].
      destruct (Z.eqb_spec k n) as [-> | _]; [contradiction | reflexivity].
Qed.

(** Merging a map without a repeated key: its lines win, the others
    stay. *)
Lemma merge_into_get (m : DiffUtils.LinesMap) :
  NoDup (map fst m) ->
  forall (all : DiffUtils.LinesMap) (n : Z),
    Report.map_get (DiffUtils.merge_into all m) n
    = match Report.map_get m n with
      | Some line => Some line
      | None => Report.map_get all n
      end.
Proof.
  unfold DiffUtils.merge_into.
  induction m as [| [k v] m IH]; intros Hnd all n; [reflexivity |].
  cbn [map fst] in Hnd. inversion Hnd as [| ? ? Hk Hnd']; subst.
  cbn [fold_left]. rewrite (IH Hnd'), map_get_cons, map_get_set.
  destruct (Z.eqb_spec k n) as [-> | Hne]; [| reflexivity].
  now rewrite (map_get_absent m n Hk).
Qed.

Lemma consecutive_NoDup (n : nat) : forall a, NoDup (consecutive a n).
Proof.
  induction n as [| n IH]; intros a; cbn [consecutive]; constructor.
  - intros H. apply consecutive_In in H. lia.
  - apply IH.
Qed.

Lemma combine_keys {A B : Type} (ks : list A) :
  forall vs : list B,
    List.length ks = List.length vs -> map fst (combine ks vs) = ks.
Proof.
  induction ks as [| k ks IH]; intros [| v vs] H; try discriminate;
    [reflexivity |].
  cbn [combine map fst]. f_equal. apply IH. now injection H.
Qed.

Lemma numbered_keys_NoDup (start : Z) (ls : list jsstring) :
  NoDup (map fst (combine (consecutive start (List.length ls)) ls)).
Proof.
  rewrite combine_keys by apply consecutive_length.
  apply consecutive_NoDup.
Qed.

Lemma numbered_old_eq (h : DiffUtils.Hunk) :
  DiffUtils.numbered_old (DiffUtils.computeHunkLineNumbers h)
  = combine (consecutive (DiffUtils.oldStart h)
               (List.length (filter old_side (tl (DiffUtils.hunkLines h)))))
            (filter old_side (tl (DiffUtils.hunkLines h))).
Proof.
  unfold DiffUtils.computeHunkLineNumbers. cbn [DiffUtils.numbered_old].
  pose proof (number_fold (DiffUtils.newStart h) (DiffUtils.oldStart h)
                          (tl (DiffUtils.hunkLines h))
                          {| DiffUtils.temp := [];
                             DiffUtils.maxHeaderLength := 0;
                             DiffUtils.oldLinesMap := [];
                             DiffUtils.newLinesMap := [];
                             DiffUtils.oldLineNumber := DiffUtils.oldStart h;
                             DiffUtils.newLineNumber := DiffUtils.newStart h |}
                          [] []) as H.
  destruct H as [_ [_ [Ho _]]].
  - unfold numbered_so_far. cbn. repeat split; lia.
  - exact Ho.
Qed.

Lemma merged_get (side : DiffUtils.Numbered -> DiffUtils.LinesMap) (n : Z)
      (hunks : list DiffUtils.Hunk) :
  Forall (fun h => NoDup (map fst (side (DiffUtils.computeHunkLineNumbers h))))
         hunks ->
  forall (all : DiffUtils.LinesMap) (found : option jsstring),
    Report.map_get all n = found ->
    Report.map_get
      (fold_left (fun all numbered => DiffUtils.merge_into all (side numbered))
                 (map DiffUtils.computeHunkLineNumbers hunks) all) n
    = fold_left (fun found h =>
                   match Report.map_get
                           (side (DiffUtils.computeHunkLineNumbers h)) n with
                   | Some line => Some line
                   | None => found
                   end)
                hunks found.
Proof.
  induction 1 as [| h hs Hh _ IH]; intros all found Hall;
    cbn [map fold_left]; [exact Hall |].
  apply IH. rewrite (merge_into_get _ Hh). now rewrite Hall.
Qed.

(** X26. What the two maps of [addLineNumbersToDiff] hold.  Under a
    line number each map holds the line that the last hunk using that
    number files under it, and nothing when no hunk uses it: when two
    hunks give the same number, as hunks with a header that does not
    match do from 0, the later hunk replaces the line of the earlier
    one.  This is the line that the report reads for an issue. *)
Theorem merged_maps_keep_the_last_hunk (diffText : jsstring) (n : Z) :
  Report.map_get
    (DiffUtils.allNewLinesMap (DiffUtils.addLineNumbersToDiff diffText)) n
  = last_numbering DiffUtils.numbered_new n (DiffUtils.splitHunks diffText)
  /\ Report.map_get
       (DiffUtils.allOldLinesMap (DiffUtils.addLineNumbersToDiff diffText)) n
     = last_numbering DiffUtils.numbered_old n (DiffUtils.splitHunks diffText).
Proof.
  unfold DiffUtils.addLineNumbersToDiff, last_numbering.
  cbn [DiffUtils.allNewLinesMap DiffUtils.allOldLinesMap]. split.
  - apply (merged_get DiffUtils.numbered_new); [| reflexivity].
    apply Forall_forall. intros h _. rewrite numbered_new_eq.
    apply numbered_keys_NoDup.
  - apply (merged_get DiffUtils.numbered_old); [| reflexivity].
    apply Forall_forall. intros h _. rewrite numbered_old_eq.
    apply numbered_keys_NoDup.
Qed.

(* ================================================================== *)
(** ** The errors and the prompt *)
(* ================================================================== *)

Lemma extractJsAstContext_error_alone
      (w : World) (filePath : jsstring) (addedLines : numset)
      (projectRoot : jsstring) (r : ExtractorResult) :
  AstContext.extractJsAstContext w filePath addedLines projectRoot = Ok r ->
  errors r <> [] -> impacted_sections r = [].
Proof.
  unfold AstContext.extractJsAstContext.
  destruct (getAstConfig w) as [config | e]; cbn [bind]; [| discriminate].
  destruct (readFileSafe w filePath projectRoot) as [code |].
  2: { intros H. now injection H as <-. }
  destruct (unreadable _).
  { intros H. now injection H as <-. }
  destruct (parseCode w code) as [ast | e].
  2: { intros H. now injection H as <-. }
  destruct (AstContext.collectImpactedSections _ _ _ ast) as [all | e].
  2: { intros H. now injection H as <-. }
  intros H. injection H as <-. cbn [errors]. contradiction.
Qed.

Lemma buildUserContent_without_sections
      (filePath extendedDiff : jsstring) (r : ExtractionResult) :
  impacted_sections (result r) = [] ->
  PromptBuilder.buildUserContent filePath extendedDiff (Some r)
  = PromptBuilder.buildUserContent filePath extendedDiff None.
Proof.
  intros H. unfold PromptBuilder.buildUserContent. now rewrite H.
Qed.

(** X27. Off the component path an AST error never reaches the model.
    For a file that is not sent to the Vue extractor, whenever the
    result of [extractAstContext] carries an error it carries no
    Section, and [buildUserContent] writes the errors only after the
    Sections: the user content of the review is then the one that is
    built with the AST context switched off. *)
Theorem script_path_errors_never_reach_the_prompt
        (w : World) (filePath diffText projectRoot : jsstring) :
  is_js_path filePath = true \/ is_vue_path filePath = false ->
  exists r,
    extractAstContext w filePath (ReviewEngine.addedLines diffText) projectRoot
    = Ok r
    /\ (errors (result r) <> [] ->
        userContent w true filePath diffText projectRoot
        = userContent w false filePath diffText projectRoot).
Proof.
  intros Hpath.
  destruct (extractAstContext_cases
              w filePath (ReviewEngine.addedLines diffText) projectRoot)
    as [r [Heq Hcase]].
  eexists. split; [exact Heq |].
  intros Herr. unfold userContent. cbv zeta. rewrite Heq. cbn [bind].
  f_equal. apply buildUserContent_without_sections. cbn [result] in *.
  destruct Hcase as [[_ Hr] | [[Hjs [Hvue _]] | [[_ [_ ->]] | [e [-> _]]]]].
  - eapply extractJsAstContext_error_alone; eassumption.
  - destruct Hpath; congruence.
  - reflexivity.
  - reflexivity.
Qed.

(** X27 at a script file when the configuration cannot be loaded. *)
Lemma script_path_errors_never_reach_the_prompt_witness :
  exists r,
    extractAstContext world_unconfigured (lit "src/shape.js")
                      (ReviewEngine.addedLines two_hunks_diff) (lit "/repo")
    = Ok r
    /\ (errors (result r) <> [] ->
        userContent world_unconfigured true (lit "src/shape.js")
                    two_hunks_diff (lit "/repo")
        = userContent world_unconfigured false (lit "src/shape.js")
                      two_hunks_diff (lit "/repo")).
Proof.
  apply (script_path_errors_never_reach_the_prompt
           world_unconfigured (lit "src/shape.js") two_hunks_diff (lit "/repo")).
  left. reflexivity.
Defined.
